(** * Excise Boring Bits (ebb): the frame-retention decision engine

    A shallow embedding of [src/ebb.c]: the pixel comparator, the 2x2
    neighbourhood classifier, the frame differencer, the timeline reporter
    ([get_times]), the splash injector ([dump_splash]) and the main
    read/compare/emit loop of [excise_boring_bits].

    Conventions.
    - A C [int] is a [Z]; sums, differences and products that can leave the
      32-bit range are reduced with [CInt.wrap] (two's complement).  Every
      theorem that depends on such a value carries the hypothesis that it
      stays in range, so none relies on the wrapped value.
    - [uint8_t] data is a [list byte]; a pointer into a buffer is a [Z]
      offset; a read outside the buffer has no defined result.
    - Calls to the outside world ([link], [image_write_png], [printf]
      through [LOG]) are recorded as events, in program order.  A [LOG]
      call is recorded whatever the log level in force.
    - File names are not modelled: an output file is known by the index
      printed into its name. *)

From Stdlib Require Import String Ascii ZArith List Lia Bool.
From Stdlib.Strings Require Import Byte.
Import ListNotations.
Local Open Scope Z_scope.

(** ** C integers *)

Module CInt.

Definition INT_MAX : Z := 2147483647.
Definition INT_MIN : Z := -2147483648.

Definition in_range (z : Z) : Prop := INT_MIN <= z <= INT_MAX.

(** Reduction to the 32-bit signed range. *)
Definition wrap (z : Z) : Z := (z + 2147483648) mod 4294967296 - 2147483648.

Definition add (a b : Z) : Z := wrap (a + b).
Definition sub (a b : Z) : Z := wrap (a - b).
Definition mul (a b : Z) : Z := wrap (a * b).
(** C division truncates towards zero. *)
Definition div (a b : Z) : Z := wrap (Z.quot a b).

End CInt.

Infix "+i" := CInt.add (at level 50, left associativity).
Infix "-i" := CInt.sub (at level 50, left associativity).
Infix "*i" := CInt.mul (at level 40, left associativity).
Infix "/i" := CInt.div (at level 40, left associativity).

(** ** Constants and options *)

Definition SECOND_IN_CS : Z := 100.
Definition SLACK_TIME_CS : Z := 80.
Definition SPLASH_TIME_CS : Z := 300.
Definition PIXEL_TOLERANCE : Z := (255 * 3) /i 10.
Definition BORDER : Z := 5.

Record options_t := {
  input_path : string;          (**  Video *)
  output_path : string;         (**  Output path *)
  splash_path : option string;  (**  Optional splash PNG path *)
  border : Z;                   (**  Border to ignore changes in (px) *)
  slack : Z;                    (**  Unchanging time to allow *)
  splash : Z                    (**  Time to display splash *)
}.

(** The options [main] starts from, before the arguments are handled. *)
Definition default_options (in_file out_file : string) : options_t :=
  {| input_path := in_file; output_path := out_file; splash_path := None;
     border := BORDER; slack := SLACK_TIME_CS; splash := SPLASH_TIME_CS |}.

Record AVRational := { num : Z; den : Z }.

(** ** Frames *)

(** [data] is the pixel buffer [data[0]] of an RGB24 picture, [linesize]
    its row stride [linesize[0]] in bytes. *)
Record AVFrame := { data : list byte; linesize : Z }.

(** [p[0]] for a pointer [p] at offset [off] of buffer [buf]. *)
Definition load (buf : list byte) (off : Z) : option Z :=
  if off <? 0 then None
  else option_map (fun b => Z.of_N (Byte.to_N b)) (nth_error buf (Z.to_nat off)).

(** ** Pixel comparator *)

(** Find the degree to which two pixels differ (0 to 255*3).  The channel
    values are bytes, so no operation here leaves the int range. *)
Definition pixel_difference (pbuf : list byte) (prev : Z)
                            (cbuf : list byte) (curr : Z) : option Z :=
  match load pbuf prev, load pbuf (prev + 1), load pbuf (prev + 2),
        load cbuf curr, load cbuf (curr + 1), load cbuf (curr + 2) with
  | Some pr, Some pg, Some pb, Some cr, Some cg, Some cb =>
      Some (Z.abs (pr - cr) + Z.abs (pg - cg) + Z.abs (pb - cb))
  | _, _, _, _, _, _ => None
  end.

(** The three channel bytes of the pixel at byte offset [off], as numbers
    from 0 to 255. *)
Definition pixel_at (buf : list byte) (off : Z) : option (Z * Z * Z) :=
  match load buf off, load buf (off + 1), load buf (off + 2) with
  | Some r, Some g, Some b => Some (r, g, b)
  | _, _, _ => None
  end.

(** The sum of the absolute per-channel differences of two pixels. *)
Definition channel_distance (p c : Z * Z * Z) : Z :=
  let '(pr, pg, pb) := p in
  let '(cr, cg, cb) := c in
  Z.abs (pr - cr) + Z.abs (pg - cg) + Z.abs (pb - cb).

(** ** Neighbourhood classifier *)

(** The counting part of [neighbourhoods_differ], on the four corner
    differences. *)
Definition count_different (tl tr bl br : Z) : Z :=
  let different := 0 in
  let different := if tl >? PIXEL_TOLERANCE then different + 1 else different in
  let different := if tr >? PIXEL_TOLERANCE then different + 1 else different in
  let different := if bl >? PIXEL_TOLERANCE then different + 1 else different in
  let different := if br >? PIXEL_TOLERANCE then different + 1 else different in
  different.

(** Find whether two 2x2 pixel neighbourhoods may be considered different.
    [prev_t], [prev_n] are the offsets of the current and next row in the
    previous frame's buffer, [curr_t], [curr_n] those in the current one. *)
Definition neighbourhoods_differ (pbuf cbuf : list byte)
    (prev_t prev_n curr_t curr_n : Z) (x : Z) : option bool :=
  match pixel_difference pbuf (prev_t + x) cbuf (curr_t + x),
        pixel_difference pbuf (prev_t + x + 3) cbuf (curr_t + x + 3),
        pixel_difference pbuf (prev_n + x) cbuf (curr_n + x),
        pixel_difference pbuf (prev_n + x + 3) cbuf (curr_n + x + 3) with
  | Some tl, Some tr, Some bl, Some br =>
      if count_different tl tr bl br >? 3 then Some true else Some false
  | _, _, _, _ => None
  end.

(** ** Frame differencer *)

(** Result of a scan: [verdict] is the value returned ([None] when the scan
    has no defined result: a read outside a buffer, or a loop counter that
    left the int range), [visited] the loop positions [(y, x)] at which
    [neighbourhoods_differ] was called, in order. *)
Record scan := { verdict : option bool; visited : list (Z * Z) }.

(** The inner loop [for (x = ...; x < w; x += 3)] of [frames_differ] on row
    [y], entered with the current value of [x].  [fuel] bounds the number of
    iterations; [frames_differ] passes [w - x], which is enough while [x]
    does not overflow. *)
Fixpoint scan_row (fuel : nat) (pbuf cbuf : list byte)
    (prev_t prev_n curr_t curr_n : Z) (y x w : Z) : scan :=
  if x <? w then
    match fuel with
    | O => {| verdict := None; visited := [] |}
    | S fuel' =>
        match neighbourhoods_differ pbuf cbuf prev_t prev_n curr_t curr_n x with
        | Some false =>
            let r := scan_row fuel' pbuf cbuf prev_t prev_n curr_t curr_n
                              y (x +i 3) w in
            {| verdict := verdict r; visited := (y, x) :: visited r |}
        | found_or_fault =>
            (* Found a difference: return true *)
            {| verdict := found_or_fault; visited := [(y, x)] |}
        end
    end
  else {| verdict := Some false; visited := [] |}.

(** The outer loop [for (y = options.border; y < h; y++)], entered with the
    current [y] and row pointers [prev_t], [curr_t]. *)
Fixpoint scan_rows (fuel : nat) (opts : options_t) (frame_prev frame_curr : AVFrame)
    (prev_t curr_t : Z) (y w h : Z) : scan :=
  if y <? h then
    match fuel with
    | O => {| verdict := None; visited := [] |}
    | S fuel' =>
        (* Position of next row in current and previous frames *)
        let prev_n := prev_t + linesize frame_prev in
        let curr_n := curr_t + linesize frame_curr in
        let x0 := border opts *i 3 in
        let r := scan_row (Z.to_nat (w - x0)) (data frame_prev) (data frame_curr)
                          prev_t prev_n curr_t curr_n y x0 w in
        match verdict r with
        | Some false =>
            let r' := scan_rows fuel' opts frame_prev frame_curr
                                prev_n curr_n (y +i 1) w h in
            {| verdict := verdict r'; visited := visited r ++ visited r' |}
        | _ => r
        end
    end
  else {| verdict := Some false; visited := [] |}.

(** Find whether two frames may be considered different. *)
Definition frames_differ (opts : options_t) (frame_prev frame_curr : AVFrame)
    (w h : Z) : scan :=
  (* Don't check for differences within border *)
  let w := w -i 2 *i border opts in
  let h := h -i 2 *i border opts in
  (* 2x2 neighbourhood per pixel: no need to look at last row/col *)
  let w := w -i 1 in
  let h := h -i 1 in
  (* Row data length is 3 times pixel width *)
  let w := w *i 3 in
  (* Position of this row in current and previous frames: data[0] *)
  let prev_t := 0 in
  let curr_t := 0 in
  scan_rows (Z.to_nat (h - border opts)) opts frame_prev frame_curr
            prev_t curr_t (border opts) w h.

(** ** Events, results and the monad of the driver *)

Inductive log_level := LOG_DEBUG | LOG_INFO | LOG_RESULT | LOG_WARNING | LOG_ERROR.

(** An hours/minutes/seconds triple, as printed by ["%.2i:%.2i:%.2i"]. *)
Record hms := { hours : Z; minutes : Z; seconds : Z }.

(** The arguments of the [LOG] calls of the modelled functions. *)
Inductive message :=
| MsgSplashCopyFailed                      (* "Could not copy splash image" *)
| MsgSplashFrames (i : Z)                  (* "Splash frames: %i" *)
| MsgNotVideo                              (* "Not video stream!" *)
| MsgDecodeFailed                          (* "Warning: could not decode frame" *)
| MsgDifferent (n : Z)                     (* "%i: Different" *)
| MsgSame (n : Z)                          (* "%i: Same" *)
| MsgSkipFrames (f1 f2 : Z)                (* "Skip frames %i to %i " *)
| MsgSkipTimes (t1 t2 : hms)               (* "(h:m:s - h:m:s)" *)
| MsgTotalFrames (n_in n_out : Z)          (* "Frames %i --> %i " *)
| MsgTotalTimes (t1 t2 : hms).             (* "(h:m:s --> h:m:s)" *)

Inductive event :=
| EvLog (lev : log_level) (m : message)    (* LOG(lev, ...) *)
| EvLink (i : Z)                           (* link(splash, path of slot i) *)
| EvCompare (prev curr : AVFrame)          (* frames_differ(prev, curr, w, h) *)
| EvWritePng (i : Z) (f : AVFrame).        (* image_write_png(path of slot i, f) *)

Inductive result (A : Type) :=
| Ok (a : A)
| AssertFailed      (* assert() failed: the program aborts *)
| Undefined.        (* invalid read, division by zero or runaway counter *)
Arguments Ok {A} a.
Arguments AssertFailed {A}.
Arguments Undefined {A}.

(** Computations that log events and may stop early. *)
Definition M (A : Type) : Type := (result A * list event)%type.

Definition ret {A} (a : A) : M A := (Ok a, []).

Definition bind {A B} (m : M A) (k : A -> M B) : M B :=
  match m with
  | (Ok a, l) => let (r, l') := k a in (r, l ++ l')
  | (AssertFailed, l) => (AssertFailed, l)
  | (Undefined, l) => (Undefined, l)
  end.

Notation "x <- c ;; k" := (bind c (fun x => k))
  (at level 61, c at next level, right associativity).
Notation "c ;;; k" := (bind c (fun _ => k))
  (at level 61, right associativity).

Definition lift {A} (r : result A) : M A := (r, []).
Definition emit (e : event) : M unit := (Ok tt, [e]).
Definition LOG (lev : log_level) (m : message) : M unit := emit (EvLog lev m).

Definition of_option {A} (o : option A) : result A :=
  match o with Some a => Ok a | None => Undefined end.

(** ** Timeline reporter *)

(** Convert two frame numbers and an FPS to two times.  The result is the
    pair [(h1:m1:s1, h2:m2:s2)] left in the six output variables. *)
Definition get_times (f1 f2 : Z) (fps : AVRational) : result (hms * hms) :=
  if f1 <=? f2 then
    if num fps =? 0 then Undefined else
    let h1 := 0 in let h2 := 0 in let m1 := 0 in let m2 := 0 in
    (* Find how many seconds we have *)
    let s1 := f1 *i den fps /i num fps in
    let s2 := f2 *i den fps /i num fps in
    (* If we have enough seconds, put them in hours *)
    let '(h1, h2, s1, s2) :=
      if s1 /i (60 * 60) >? 0 then
        let h1 := s1 /i (60 * 60) in
        let h2 := s2 /i (60 * 60) in
        (h1, h2, s1 -i h1 *i (60 * 60), s2 -i h2 *i (60 * 60))
      else (h1, h2, s1, s2) in
    (* If we have enough seconds, put them in minutes *)
    let '(m1, m2, s1, s2) :=
      if s1 /i 60 >? 0 then
        let m1 := s1 /i 60 in
        let m2 := s2 /i 60 in
        (m1, m2, s1 -i m1 *i 60, s2 -i m2 *i 60)
      else (m1, m2, s1, s2) in
    Ok ({| hours := h1; minutes := m1; seconds := s1 |},
        {| hours := h2; minutes := m2; seconds := s2 |})
  else AssertFailed.   (* assert(f1 <= f2) *)

(** ** Splash injector *)

(** The loop [for (i = 0; i < lim; i++)] of [dump_splash], entered with the
    current [i]; returns the value of [i] on exit.  [link_ok i] tells
    whether [link(splash, path)] succeeds for slot [i]. *)
Fixpoint splash_loop (fuel : nat) (link_ok : Z -> bool) (i lim : Z) : M Z :=
  if i <? lim then
    match fuel with
    | O => lift Undefined
    | S fuel' =>
        emit (EvLink i) ;;;
        if link_ok i then splash_loop fuel' link_ok (i +i 1) lim
        else
          LOG LOG_INFO MsgSplashCopyFailed ;;;
          ret i   (* break *)
    end
  else ret i.

(** Dump splash screen frames; returns the number of slots written. *)
Definition dump_splash (opts : options_t) (link_ok : Z -> bool)
    (fps : AVRational) : M Z :=
  if SECOND_IN_CS *i den fps =? 0 then lift Undefined else
  let lim := (splash opts *i num fps) /i (SECOND_IN_CS *i den fps) in
  i <- splash_loop (Z.to_nat lim) link_ok 0 lim ;;
  LOG LOG_INFO (MsgSplashFrames i) ;;;
  ret i.

(** ** Skip accumulator: the read loop of [excise_boring_bits] *)

(** The variables of the loop: the two picture slots, the count of frames
    read, the count of frames written, and the count of frames to skip. *)
Record loop_state := {
  frame_prev : AVFrame;
  frame_curr : AVFrame;
  frames : Z;
  out_frames : Z;
  skip : Z
}.

(** What [av_read_frame] and [avcodec_decode_video2] deliver for one
    iteration of the loop. *)
Inductive packet :=
| NotVideo                  (* pkt.stream_index != stream_id *)
| DecodeError               (* avcodec_decode_video2 returned ret < 0 *)
| NoFrame                   (* decoded, but got_frame == 0 *)
| Picture (rgb : list byte).
    (* got_frame: [rgb] is what sws_scale writes into frame_curr's buffer *)

(** [sws_scale] converts the decoded picture into the buffer of [dst]: the
    pixels change, the stride stays. *)
Definition sws_scale (rgb : list byte) (dst : AVFrame) : AVFrame :=
  {| data := rgb; linesize := linesize dst |}.

(** The block [if (skip > slack) { ... }] of the "different" branch: log
    which frames got skipped. *)
Definition log_skipped (fps : AVRational) (slack frames skip : Z) : M unit :=
  let f1 := frames -i (skip -i slack) in
  let f2 := frames in
  t <- lift (get_times f1 f2 fps) ;;
  LOG LOG_INFO (MsgSkipFrames f1 f2) ;;;
  LOG LOG_INFO (MsgSkipTimes (fst t) (snd t)).

(** The body of [if (got_frame) { ... }]. *)
Definition handle_frame (opts : options_t) (fps : AVRational) (w h slack : Z)
    (st : loop_state) (rgb : list byte) : M loop_state :=
  (* sws_scale converts the picture into frame_curr's buffer *)
  let frame_curr := sws_scale rgb (frame_curr st) in
  let frame_prev := frame_prev st in
  differs <-
    (if frames st =? 0 then ret true
     else
       emit (EvCompare frame_prev frame_curr) ;;;
       lift (of_option (verdict (frames_differ opts frame_prev frame_curr w h)))) ;;
  decided <-
    (if differs : bool then
       (* This frame has something new: swap the slots *)
       let frame_tmp := frame_prev in
       let frame_prev := frame_curr in
       let frame_curr := frame_tmp in
       LOG LOG_DEBUG (MsgDifferent (frames st)) ;;;
       (if skip st >? slack then log_skipped fps slack (frames st) (skip st)
        else ret tt) ;;;
       ret (frame_prev, frame_curr, 0, true)
     else
       (* Frames are the same *)
       let skip := skip st +i 1 in
       LOG LOG_DEBUG (MsgSame (frames st)) ;;;
       ret (frame_prev, frame_curr, skip, negb (skip >? slack))) ;;
  let '(frame_prev, frame_curr, skip, write_frame) := decided in
  (* Write frame_prev to the output file, if we've decided to keep it *)
  out_frames <-
    (if write_frame : bool then
       emit (EvWritePng (out_frames st) frame_prev) ;;;
       ret (out_frames st +i 1)
     else ret (out_frames st)) ;;
  ret {| frame_prev := frame_prev; frame_curr := frame_curr;
         frames := frames st +i 1; out_frames := out_frames; skip := skip |}.

(** [while (av_read_frame(fmt_ctx, &pkt) >= 0) { ... }]: the list holds what
    is read until [av_read_frame] fails. *)
Fixpoint read_loop (opts : options_t) (fps : AVRational) (w h slack : Z)
    (st : loop_state) (pkts : list packet) : M loop_state :=
  match pkts with
  | [] => ret st
  | NotVideo :: rest =>
      (* Skip non-video packets *)
      LOG LOG_DEBUG MsgNotVideo ;;;
      read_loop opts fps w h slack st rest
  | DecodeError :: _ =>
      LOG LOG_WARNING MsgDecodeFailed ;;;
      ret st   (* break *)
  | NoFrame :: rest => read_loop opts fps w h slack st rest
  | Picture rgb :: rest =>
      st' <- handle_frame opts fps w h slack st rgb ;;
      read_loop opts fps w h slack st' rest
  end.

(** The statements after the loop: the totals summary. *)
Definition report_totals (fps : AVRational) (st : loop_state) : M bool :=
  t <- lift (get_times (frames st) (out_frames st) fps) ;;
  LOG LOG_RESULT (MsgTotalFrames (frames st) (out_frames st)) ;;;
  LOG LOG_RESULT (MsgTotalTimes (fst t) (snd t)) ;;;
  (* It all worked! *)
  ret true.

(** [const int slack = options.slack * num / (SECOND_IN_CS * den)]. *)
Definition slack_frames (opts : options_t) (fps : AVRational) : result Z :=
  if SECOND_IN_CS *i den fps =? 0 then Undefined
  else Ok (slack opts *i num fps /i (SECOND_IN_CS *i den fps)).

(** [excise_boring_bits], from the point where the three [AVFrame]s and the
    two RGB buffers are allocated: [w], [h] are [dec_ctx->width] and
    [dec_ctx->height], [fps] is [vs->avg_frame_rate], [buf_curr] and
    [buf_prev] the pictures [avpicture_fill] set up (their contents are
    whatever [av_malloc] returned). *)
Definition excise_boring_bits (opts : options_t) (fps : AVRational) (w h : Z)
    (buf_curr buf_prev : AVFrame) (link_ok : Z -> bool)
    (pkts : list packet) : M bool :=
  slack <- lift (slack_frames opts fps) ;;
  (* Output any splash title screen that is required *)
  out_frames <-
    (match splash_path opts with
     | Some _ => dump_splash opts link_ok fps
     | None => ret 0
     end) ;;
  (* Read the frames from the input file *)
  st <- read_loop opts fps w h slack
          {| frame_prev := buf_prev; frame_curr := buf_curr;
             frames := 0; out_frames := out_frames; skip := 0 |} pkts ;;
  report_totals fps st.

(** ** Observations on event logs *)

(** The output slots written, with the picture written to each. *)
Fixpoint writes (evs : list event) : list (Z * AVFrame) :=
  match evs with
  | [] => []
  | EvWritePng i f :: evs' => (i, f) :: writes evs'
  | _ :: evs' => writes evs'
  end.

(** The skip ranges reported. *)
Fixpoint skip_reports (evs : list event) : list (Z * Z) :=
  match evs with
  | [] => []
  | EvLog _ (MsgSkipFrames f1 f2) :: evs' => (f1, f2) :: skip_reports evs'
  | _ :: evs' => skip_reports evs'
  end.

(** The number of calls of the frame differencer. *)
Fixpoint compares (evs : list event) : nat :=
  match evs with
  | [] => O
  | EvCompare _ _ :: evs' => S (compares evs')
  | _ :: evs' => compares evs'
  end.

(** [n] consecutive output slots from [o]. *)
Fixpoint slots (o : Z) (n : nat) : list Z :=
  match n with
  | O => []
  | S n' => o :: slots (o + 1) n'
  end.

(** A picture is classified "different" in state [st] when it is the
    first one or the frame differencer says so: the condition
    [frames == 0 || frames_differ(frame_prev, frame_curr, w, h)]. *)
Definition classified_different (opts : options_t) (w h : Z)
    (st : loop_state) (rgb : list byte) : Prop :=
  frames st = 0 \/
  verdict (frames_differ opts (frame_prev st) (sws_scale rgb (frame_curr st)) w h)
    = Some true.

(** A picture is classified "same" against the retained picture [kept]
    when the frame differencer finds no difference; [slot] is the buffer it
    is converted into. *)
Definition classified_same (opts : options_t) (w h : Z)
    (kept slot : AVFrame) (rgb : list byte) : Prop :=
  verdict (frames_differ opts kept (sws_scale rgb slot) w h) = Some false.

(** A packet that brings no picture and does not end the loop. *)
Definition carries_no_frame (p : packet) : Prop := p = NotVideo \/ p = NoFrame.

(** The messages logged, without the other events. *)
Fixpoint logged (evs : list event) : list message :=
  match evs with
  | [] => []
  | EvLog _ m :: evs' => m :: logged evs'
  | _ :: evs' => logged evs'
  end.

(** ** Sample inputs *)

Module Sample.

(** A [w] x [h] RGB24 picture without row padding: pixel [(y, x)] is white
    where [lit y x] holds and black elsewhere. *)
Definition picture (w h : nat) (lit : nat -> nat -> bool) : list byte :=
  flat_map (fun y =>
    flat_map (fun x => if lit y x then [xff; xff; xff] else [x00; x00; x00])
             (seq 0 w))
    (seq 0 h).

(** The 2x2 block with top-left pixel [(y0, x0)]. *)
Definition block (y0 x0 : nat) (y x : nat) : bool :=
  ((y0 <=? y) && (y <=? y0 + 1) && (x0 <=? x) && (x <=? x0 + 1))%nat.

Definition black : list byte := picture 2 2 (fun _ _ => false).
Definition white : list byte := picture 2 2 (fun _ _ => true).

(** White but for the bottom-right pixel. *)
Definition three_white : list byte :=
  picture 2 2 (fun y x => negb ((y =? 1) && (x =? 1))%nat).

(** A 2x2 picture slot (stride 6) with arbitrary initial contents. *)
Definition slot2 : AVFrame := {| data := []; linesize := 6 |}.

Definition fps_1 : AVRational := {| num := 1; den := 1 |}.

(** [ebb --border 0 --slack s in.mkv out/frame.png] *)
Definition plain (s : Z) : options_t :=
  {| input_path := "in.mkv"; output_path := "out/frame.png";
     splash_path := None;
     border := 0; slack := s; splash := SPLASH_TIME_CS |}.

(** [ebb --border 0 --slack s in.mkv out/frame.png splash.png] *)
Definition with_splash (s : Z) : options_t :=
  {| input_path := "in.mkv"; output_path := "out/frame.png";
     splash_path := Some "splash.png"%string;
     border := 0; slack := s; splash := SPLASH_TIME_CS |}.

(** [ebb --border 1 in.mkv out/frame.png] *)
Definition bordered : options_t :=
  {| input_path := "in.mkv"; output_path := "out/frame.png";
     splash_path := None;
     border := 1; slack := SLACK_TIME_CS; splash := SPLASH_TIME_CS |}.

(** The loop state at the first picture, with [o] slots already written. *)
Definition start (o : Z) : loop_state :=
  {| frame_prev := slot2; frame_curr := slot2;
     frames := 0; out_frames := o; skip := 0 |}.

(** The loop state after five black pictures with a slack of one frame:
    two written, three dropped. *)
Definition after_pause : loop_state :=
  {| frame_prev := sws_scale black slot2; frame_curr := sws_scale black slot2;
     frames := 5; out_frames := 2; skip := 4 |}.

Definition always (_ : Z) : bool := true.

(** A 6x6 picture slot (stride 18) holding [picture 6 6 lit]. *)
Definition frame6 (lit : nat -> nat -> bool) : AVFrame :=
  {| data := picture 6 6 lit; linesize := 18 |}.

Definition dark (_ _ : nat) : bool := false.

(** [ebb --border 0 --slack 0 --intro 6000 in.mkv out/frame.png splash.png] *)
Definition long_splash : options_t :=
  {| input_path := "in.mkv"; output_path := "out/frame.png";
     splash_path := Some "splash.png"%string;
     border := 0; slack := 0; splash := 6000 |}.

End Sample.

(** ** Notions used to state more properties *)

(** A picture of [w] x [h] pixels fits its buffer: a row of [3 * w] bytes
    fits the stride, and [h] strides fit the buffer. *)
Definition frame_fits (f : AVFrame) (w h : Z) : Prop :=
  3 * w <= linesize f /\ linesize f * h <= Z.of_nat (length (data f)).

(** The value of a channel byte, as [load] reads it. *)
Definition channel (b : byte) : Z := Z.of_N (Byte.to_N b).

(** Two buffers of the same size whose corresponding channels differ by at
    most [t]. *)
Definition channels_within (t : Z) (pbuf cbuf : list byte) : Prop :=
  Forall2 (fun a b => Z.abs (channel a - channel b) <= t) pbuf cbuf.

(** The verdict of [neighbourhoods_differ] at loop position [(y, x)] of
    [frames_differ]: the row pointers have advanced [y - border] strides
    from [data[0]]. *)
Definition block_at (opts : options_t) (frame_prev frame_curr : AVFrame)
    (p : Z * Z) : option bool :=
  let r := fst p - border opts in
  neighbourhoods_differ (data frame_prev) (data frame_curr)
    (r * linesize frame_prev) ((r + 1) * linesize frame_prev)
    (r * linesize frame_curr) ((r + 1) * linesize frame_curr) (snd p).

(** The loop positions of [frames_differ] in the order of the two loops:
    rows [border .. h - 2*border - 2], and in each row the byte offsets of
    the pixel columns [border .. w - 2*border - 2]. *)
Definition scan_region (opts : options_t) (w h : Z) : list (Z * Z) :=
  flat_map
    (fun y => map (fun c => (y, 3 * c))
                  (slots (border opts) (Z.to_nat (w - 3 * border opts - 1))))
    (slots (border opts) (Z.to_nat (h - 3 * border opts - 1))).

(** A linear search: classify the positions in order and stop at the first
    one that is not classified "same"; the result keeps the positions
    looked at. *)
Fixpoint first_different (classify : Z * Z -> option bool)
    (ps : list (Z * Z)) : scan :=
  match ps with
  | [] => {| verdict := Some false; visited := [] |}
  | p :: ps' =>
      match classify p with
      | Some false =>
          let r := first_different classify ps' in
          {| verdict := verdict r; visited := p :: visited r |}
      | found_or_fault => {| verdict := found_or_fault; visited := [p] |}
      end
  end.

(** The source indices of the pictures handled, as the loop logs them
    ("%i: Different", "%i: Same"). *)
Fixpoint handled (evs : list event) : list Z :=
  match evs with
  | [] => []
  | EvLog _ (MsgDifferent n) :: evs' => n :: handled evs'
  | EvLog _ (MsgSame n) :: evs' => n :: handled evs'
  | _ :: evs' => handled evs'
  end.

(** The source indices of the pictures for which a file is written: a
    write belongs to the picture logged last before it ([cur]). *)
Fixpoint fates (cur : option Z) (evs : list event) : list Z :=
  match evs with
  | [] => []
  | EvLog _ (MsgDifferent n) :: evs' => fates (Some n) evs'
  | EvLog _ (MsgSame n) :: evs' => fates (Some n) evs'
  | EvWritePng _ _ :: evs' =>
      match cur with
      | Some n => n :: fates cur evs'
      | None => fates cur evs'
      end
  | _ :: evs' => fates cur evs'
  end.

Definition emitted (evs : list event) : list Z := fates None evs.

(** Picture [i] was read and no file was written for it. *)
Definition dropped_frame (evs : list event) (i : Z) : Prop :=
  In i (handled evs) /\ ~ In i (emitted evs).

(** The reported skip ranges read as closed intervals of dropped pictures:
    both ends are dropped pictures, and no written picture lies inside. *)
Definition closed_range_claim (evs : list event) : Prop :=
  forall f1 f2, In (f1, f2) (skip_reports evs) ->
    dropped_frame evs f1 /\ dropped_frame evs f2 /\
    (forall i, In i (emitted evs) -> ~ (f1 <= i <= f2)).

(** The number of frames the reported skip ranges span. *)
Definition frames_reported (reports : list (Z * Z)) : Z :=
  fold_right (fun r acc => (snd r - fst r) + acc) 0 reports.

(** The frames dropped so far in the pause the loop is in: the "same"
    pictures counted beyond the slack. *)
Definition pending (slack : Z) (st : loop_state) : Z :=
  Z.max 0 (skip st - slack).

(** The output slots linked to the splash image. *)
Fixpoint links (evs : list event) : list Z :=
  match evs with
  | [] => []
  | EvLink i :: evs' => i :: links evs'
  | _ :: evs' => links evs'
  end.

(** The pictures the read loop handles: those that come before the first
    decode error. *)
Fixpoint pictures_read (pkts : list packet) : list (list byte) :=
  match pkts with
  | [] => []
  | DecodeError :: _ => []
  | Picture rgb :: rest => rgb :: pictures_read rest
  | _ :: rest => pictures_read rest
  end.

(** ** Output file names *)

(** [isdigit] and the value of a digit character. *)
Definition isdigit (c : ascii) : bool :=
  let n := Z.of_N (N_of_ascii c) in (48 <=? n) && (n <=? 57).

Definition digit_value (c : ascii) : Z := Z.of_N (N_of_ascii c) - 48.

Definition digit_char (d : Z) : ascii := ascii_of_N (Z.to_N (48 + d)).

(** The decimal digits of [n >= 0], most significant first.  An int has at
    most 10 of them, which is the [fuel] [format_08i] passes. *)
Fixpoint decimal_digits (fuel : nat) (n : Z) : list Z :=
  match fuel with
  | O => []
  | S fuel' =>
      if n <? 10 then [n]
      else decimal_digits fuel' (n / 10) ++ [n mod 10]
  end.

Fixpoint string_of_digits (ds : list Z) : string :=
  match ds with
  | [] => EmptyString
  | d :: ds' => String (digit_char d) (string_of_digits ds')
  end.

(** The number a list of decimal digits stands for, after the digits
    already read as [acc]. *)
Definition digits_value (ds : list Z) (acc : Z) : Z :=
  fold_left (fun a d => a * 10 + d) ds acc.

(** [printf("%.08i", i)]: the digits of [|i|], with zeros in front up to 8
    digits, after a minus sign when [i] is negative. *)
Definition format_08i (i : Z) : string :=
  let ds := decimal_digits 10 (Z.abs i) in
  let padded := repeat 0 (8 - length ds) ++ ds in
  if i <? 0 then String "-"%char (string_of_digits padded)
  else string_of_digits padded.

(** [path_len] of [excise_boring_bits]: the length of the output path,
    without a final ".png" when the path is longer than that. *)
Definition path_len (output : string) : nat :=
  let n := String.length output in
  if (4 <? n)%nat && String.eqb (substring (n - 4) 4 output) ".png"
  then (n - 4)%nat else n.

(** [sprintf(path, "%.*s%.08i.png", path_len, options.output_path, i)]: the
    name of output file [i]. *)
Definition output_file (opts : options_t) (i : Z) : string :=
  (substring 0 (path_len (output_path opts)) (output_path opts)
   ++ format_08i i ++ ".png")%string.

(** The value of the leading decimal digits of [s], after the digits
    already read as [acc]. *)
Fixpoint numeral (s : string) (acc : Z) : Z :=
  match s with
  | EmptyString => acc
  | String c s' =>
      if isdigit c then numeral s' (acc * 10 + digit_value c) else acc
  end.

(** [LONG_MAX] of the 64-bit C library. *)
Definition LONG_MAX : Z := 9223372036854775807.

(** [atoi] on the strings [main] hands it, which start with a digit.  The C
    library computes [(int) strtol(s, NULL, 10)]: the value of the leading
    digits, held at [LONG_MAX] when it is larger, then reduced to an int. *)
Definition atoi (s : string) : Z := CInt.wrap (Z.min (numeral s 0) LONG_MAX).

(** Whether every character of [s] is a decimal digit. *)
Fixpoint all_digits (s : string) : bool :=
  match s with
  | EmptyString => true
  | String c s' => isdigit c && all_digits s'
  end.

(** ** The command line *)

Module Cli.

(** The global [options] and [level] while [main] handles the arguments:
    the three paths may still be [NULL]. *)
Record options := {
  input_path : option string;
  output_path : option string;
  splash_path : option string;
  border : Z;
  slack : Z;
  splash : Z;
  level : log_level
}.

Inductive exit_status := EXIT_SUCCESS | EXIT_FAILURE.

(** What [main] prints itself. *)
Inductive printed :=
| Usage       (* show_usage(argv[0]) *)
| BadArg.     (* LOG(LOG_ERROR, "Bad arg\n") *)

(** How the handling of the arguments ends: [main] returns, or goes on to
    [excise_boring_bits_wrapper] with the options set. *)
Inductive parsed :=
| Stop (code : exit_status) (out : list printed)
| Go (o : options).

(** [*arg == '-'] *)
Definition dashed (arg : string) : bool :=
  match arg with
  | String c _ => Ascii.eqb c "-"%char
  | EmptyString => false
  end.

(** [isdigit(argv[a][0])] *)
Definition starts_with_digit (arg : string) : bool :=
  match arg with
  | String c _ => isdigit c
  | EmptyString => false
  end.

(** [strcmp(arg, short) == 0 || strcmp(arg, long) == 0] *)
Definition flag (arg short long : string) : bool :=
  String.eqb arg short || String.eqb arg long.

Definition set_level (o : options) (l : log_level) : options :=
  {| input_path := input_path o; output_path := output_path o;
     splash_path := splash_path o; border := border o; slack := slack o;
     splash := splash o; level := l |}.

Definition set_border (o : options) (v : Z) : options :=
  {| input_path := input_path o; output_path := output_path o;
     splash_path := splash_path o; border := v; slack := slack o;
     splash := splash o; level := level o |}.

Definition set_slack (o : options) (v : Z) : options :=
  {| input_path := input_path o; output_path := output_path o;
     splash_path := splash_path o; border := border o; slack := v;
     splash := splash o; level := level o |}.

Definition set_splash (o : options) (v : Z) : options :=
  {| input_path := input_path o; output_path := output_path o;
     splash_path := splash_path o; border := border o; slack := slack o;
     splash := v; level := level o |}.

Definition set_input (o : options) (p : string) : options :=
  {| input_path := Some p; output_path := output_path o;
     splash_path := splash_path o; border := border o; slack := slack o;
     splash := splash o; level := level o |}.

Definition set_output (o : options) (p : string) : options :=
  {| input_path := input_path o; output_path := Some p;
     splash_path := splash_path o; border := border o; slack := slack o;
     splash := splash o; level := level o |}.

Definition set_splash_path (o : options) (p : string) : options :=
  {| input_path := input_path o; output_path := output_path o;
     splash_path := Some p; border := border o; slack := slack o;
     splash := splash o; level := level o |}.

(** The loop [for (a = 1; a < argc; a++)] of [main], on the arguments not
    yet handled.  [argc] is the full count, which the option tests check
    again. *)
Fixpoint handle_args (argc : Z) (args : list string) (o : options) : parsed :=
  match args with
  | [] => Go o
  | arg :: rest =>
      if dashed arg then
        if flag arg "-h" "--help" then Stop EXIT_SUCCESS [Usage]
        else if (3 <=? argc) && flag arg "-v" "--verbose" then
          handle_args argc rest (set_level o LOG_INFO)
        else if (3 <=? argc) && flag arg "-d" "--debug" then
          handle_args argc rest (set_level o LOG_DEBUG)
        else if (3 <=? argc) && flag arg "-q" "--quiet" then
          handle_args argc rest (set_level o LOG_WARNING)
        else if (3 <=? argc) && flag arg "-b" "--border" then
          match rest with
          | value :: rest' =>
              if starts_with_digit value
              then handle_args argc rest' (set_border o (atoi value))
              else Stop EXIT_FAILURE [BadArg]
          | [] => Go o   (* no value follows: nothing is set *)
          end
        else if (3 <=? argc) && flag arg "-s" "--slack" then
          match rest with
          | value :: rest' =>
              if starts_with_digit value
              then handle_args argc rest' (set_slack o (atoi value))
              else Stop EXIT_FAILURE [BadArg]
          | [] => Go o   (* no value follows: nothing is set *)
          end
        else if (3 <=? argc) && flag arg "-i" "--intro" then
          match rest with
          | value :: rest' =>
              if starts_with_digit value
              then handle_args argc rest' (set_splash o (atoi value))
              else Stop EXIT_FAILURE [BadArg]
          | [] => Go o   (* no value follows: nothing is set *)
          end
        else handle_args argc rest o
      else
        match input_path o, output_path o, splash_path o with
        | None, _, _ => handle_args argc rest (set_input o arg)
        | Some _, None, _ => handle_args argc rest (set_output o arg)
        | Some _, Some _, None => handle_args argc rest (set_splash_path o arg)
        | Some _, Some _, Some _ =>
            (* We've got input and output path, and this isn't an option *)
            Stop EXIT_FAILURE [Usage]
        end
  end.

(** The options [main] starts from. *)
Definition initial : options :=
  {| input_path := None; output_path := None; splash_path := None;
     border := BORDER; slack := SLACK_TIME_CS; splash := SPLASH_TIME_CS;
     level := LOG_RESULT |}.

(** [main] up to the call of [excise_boring_bits_wrapper]; [argv] includes
    the program name. *)
Definition prepare (argv : list string) : parsed :=
  let argc := Z.of_nat (length argv) in
  if argc <? 3 then Stop EXIT_FAILURE [Usage]
  else handle_args argc (tl argv) initial.

End Cli.

(** ** What is printed *)

(** The levels in the order of [enum log_level]. *)
Definition level_rank (l : log_level) : Z :=
  match l with
  | LOG_DEBUG => 0
  | LOG_INFO => 1
  | LOG_RESULT => 2
  | LOG_WARNING => 3
  | LOG_ERROR => 4
  end.

(** The [LOG] macro, [if (lev >= level) printf(...)]: the messages that
    reach the output when the global [level] is [level]. *)
Fixpoint printed (level : log_level) (evs : list event) : list message :=
  match evs with
  | [] => []
  | EvLog lev m :: evs' =>
      if level_rank level <=? level_rank lev then m :: printed level evs'
      else printed level evs'
  | _ :: evs' => printed level evs'
  end.

(** Whether the read loop gets a packet that fails to decode. *)
Definition decode_fails (pkts : list packet) : bool :=
  existsb (fun p => match p with DecodeError => true | _ => false end) pkts.

(** ** The driver: [excise_boring_bits_wrapper] and [main] *)

Module Driver.

(** What the libavformat and libavcodec calls of the wrapper return. *)
Record library := {
  avformat_open_input : Z;
  avformat_find_stream_info : Z;
  av_find_best_stream : Z;
  avcodec_find_decoder : bool;     (* dec != NULL *)
  avcodec_open2 : Z;
  avg_frame_rate : AVRational
}.

(** The arguments of the [LOG] calls of the wrapper. *)
Inductive note :=
| NoteOpenInputFailed     (* "Could not open input video: '%s'" *)
| NoteNoStreamInfo        (* "Warning: Couldn't get input stream info" *)
| NoteNoVideoStream       (* "Could not find video stream in input file: '%s'" *)
| NoteNoCodec             (* "Could not find codec for input video" *)
| NoteOpenCodecFailed     (* "Could not open codec for input video" *)
| NoteFrameRate (fps : AVRational).   (* "Frame rate: %i/%i" *)

Inductive action :=
| Main (p : Cli.printed)           (* printed by main itself *)
| Note (lev : log_level) (n : note)    (* LOG(lev, ...) in the wrapper *)
| Excise (evs : list event)        (* excise_boring_bits(...), with its events *)
| CloseCodec                       (* avcodec_close(dec_ctx) *)
| CloseInput.                      (* avformat_close_input(&fmt_ctx) *)

(** An [int] returned from a function declared [bool]. *)
Definition bool_of_int (i : Z) : bool := negb (i =? 0).

(** [excise_boring_bits_wrapper]; [excise] is the call of
    [excise_boring_bits].  After the label [free], [fmt_ctx] is not [NULL]
    once [avformat_open_input] has succeeded, and [dec_ctx] is not [NULL]
    once it has been set to [vs->codec]. *)
Definition excise_boring_bits_wrapper (lib : library) (excise : M bool)
  : result bool * list action :=
  (* Open the input file *)
  if avformat_open_input lib <? 0 then
    (Ok false, [Note LOG_ERROR NoteOpenInputFailed])
  else
  (* Get info about the stream *)
  let info :=
    if avformat_find_stream_info lib <? 0
    then [Note LOG_ERROR NoteNoStreamInfo] else [] in
  (* Find the "best" video stream in the file *)
  if av_find_best_stream lib <? 0 then
    (Ok false, info ++ [Note LOG_ERROR NoteNoVideoStream; CloseInput])
  else
  (* Get the decoder for the stream *)
  if negb (avcodec_find_decoder lib) then
    (Ok false, info ++ [Note LOG_ERROR NoteNoCodec; CloseCodec; CloseInput])
  else
  (* Initialise the decoder *)
  if avcodec_open2 lib <? 0 then
    (* return ret; *)
    (Ok (bool_of_int (avcodec_open2 lib)),
     info ++ [Note LOG_ERROR NoteOpenCodecFailed])
  else
  let started := info ++ [Note LOG_DEBUG (NoteFrameRate (avg_frame_rate lib))] in
  (* Do the excising of boring bits *)
  match excise with
  | (Ok res, evs) => (Ok res, started ++ [Excise evs; CloseCodec; CloseInput])
  | (AssertFailed, evs) => (AssertFailed, started ++ [Excise evs])
  | (Undefined, evs) => (Undefined, started ++ [Excise evs])
  end.

(** [main]: [excise o] is the call of [excise_boring_bits] under the
    options [o]. *)
Definition main (argv : list string) (lib : library)
    (excise : Cli.options -> M bool) : result Cli.exit_status * list action :=
  match Cli.prepare argv with
  | Cli.Stop code out => (Ok code, map Main out)
  | Cli.Go o =>
      match excise_boring_bits_wrapper lib (excise o) with
      | (Ok ok, acts) =>
          (Ok (if ok then Cli.EXIT_SUCCESS else Cli.EXIT_FAILURE), acts)
      | (AssertFailed, acts) => (AssertFailed, acts)
      | (Undefined, acts) => (Undefined, acts)
      end
  end.

End Driver.

(** ** More sample inputs *)

Module Example.

(** A 2x2 picture with every channel at 25. *)
Definition dim : list byte := repeat x19 12.

Definition black2 : AVFrame := {| data := Sample.black; linesize := 6 |}.
Definition dim2 : AVFrame := {| data := dim; linesize := 6 |}.

(** Only the link of slot 0 succeeds. *)
Definition first_only (i : Z) : bool := i <? 1.

(** Two white pictures and a black one, then a packet that fails to
    decode. *)
Definition stream : list packet :=
  [Picture Sample.white; NotVideo; Picture Sample.white; Picture Sample.black;
   NoFrame; DecodeError; Picture Sample.white].

(** Two white pictures, a black one and two more white ones: a pause that
    ends and one that is still open at the end. *)
Definition pauses : list packet :=
  map Picture [Sample.white; Sample.white; Sample.black;
               Sample.white; Sample.white; Sample.white].

(** The read loop on 2x2 pictures at 1 fps, without border or slack. *)
Definition loop (pkts : list packet) : M loop_state :=
  read_loop (Sample.plain 0) Sample.fps_1 2 2 0 (Sample.start 0) pkts.

(** The state a computation ends in. *)
Definition final (m : M loop_state) : loop_state :=
  match fst m with
  | Ok st => st
  | _ => Sample.start 0
  end.

(** [ebb -b 7 -q in.mkv out/frame.png] *)
Definition argv_border : list string :=
  ["ebb"; "-b"; "7"; "-q"; "in.mkv"; "out/frame.png"]%string.

(** [ebb -v --help] *)
Definition argv_help : list string := ["ebb"; "-v"; "--help"]%string.

Definition two_pictures : list packet :=
  [Picture Sample.white; NotVideo; Picture Sample.black].

(** A run with a splash image of which only the first link succeeds. *)
Definition splash_run (pkts : list packet) : M bool :=
  excise_boring_bits (Sample.with_splash 100) Sample.fps_1 2 2
    Sample.slot2 Sample.slot2 first_only pkts.

(** A run on 2x2 pictures at 1 fps, with a slack of one frame. *)
Definition short_run (pkts : list packet) : M bool :=
  excise_boring_bits (Sample.plain 100) Sample.fps_1 2 2
    Sample.slot2 Sample.slot2 Sample.always pkts.

End Example.

(** * Properties *)

(** ** C integers *)

Lemma wrap_id z : CInt.in_range z -> CInt.wrap z = z.
Proof.
  unfold CInt.in_range, CInt.INT_MIN, CInt.INT_MAX, CInt.wrap; intros H.
  rewrite Z.mod_small by lia. lia.
Qed.

Lemma wrap_range z : CInt.in_range (CInt.wrap z).
Proof.
  unfold CInt.in_range, CInt.INT_MIN, CInt.INT_MAX, CInt.wrap.
  pose proof (Z.mod_pos_bound (z + 2147483648) 4294967296 ltac:(lia)). lia.
Qed.

Lemma div_nonneg a b : 0 <= a <= CInt.INT_MAX -> 0 < b -> a /i b = a / b.
Proof.
  intros Ha Hb. unfold CInt.div.
  rewrite Z.quot_div_nonneg by lia.
  apply wrap_id. unfold CInt.in_range, CInt.INT_MIN, CInt.INT_MAX in *.
  pose proof (Z.div_pos a b ltac:(lia) Hb).
  pose proof (Z.div_le_upper_bound a b a Hb ltac:(nia)). lia.
Qed.

(** Rewrites in-range int operations to their mathematical value. *)
Ltac int_simpl :=
  unfold CInt.add, CInt.sub, CInt.mul;
  repeat match goal with
         | |- context [CInt.wrap ?z] =>
             rewrite (wrap_id z)
               by (unfold CInt.in_range, CInt.INT_MIN, CInt.INT_MAX in *; lia)
         end.

Lemma PIXEL_TOLERANCE_value : PIXEL_TOLERANCE = 76.
Proof. reflexivity. Qed.

(** ** Event logs *)

Lemma writes_app l1 l2 : writes (l1 ++ l2) = writes l1 ++ writes l2.
Proof.
  induction l1 as [|e l1 IH]; [reflexivity|].
  destruct e; cbn; rewrite IH; reflexivity.
Qed.

Lemma skip_reports_app l1 l2 :
  skip_reports (l1 ++ l2) = skip_reports l1 ++ skip_reports l2.
Proof.
  induction l1 as [|e l1 IH]; [reflexivity|].
  destruct e as [lev m| | |]; cbn; try (rewrite IH; reflexivity).
  destruct m; cbn; rewrite IH; reflexivity.
Qed.

Lemma writes_links l : writes (map EvLink l) = [].
Proof. induction l; cbn; auto. Qed.

Lemma bind_log {A B} (m : M A) (k : A -> M B) :
  snd (bind m k) =
  snd m ++ match fst m with Ok a => snd (k a) | _ => [] end.
Proof.
  destruct m as [[a| |] l]; cbn.
  - destruct (k a); reflexivity.
  - rewrite app_nil_r. reflexivity.
  - rewrite app_nil_r. reflexivity.
Qed.

Lemma hd_error_app {A} (l l' : list A) x :
  hd_error l = Some x -> hd_error (l ++ l') = Some x.
Proof. destruct l; [discriminate|]. cbn. auto. Qed.

(** ** Pixel comparator and neighbourhood classifier *)

Lemma load_byte buf off v : load buf off = Some v -> 0 <= v <= 255.
Proof.
  unfold load. destruct (off <? 0); [discriminate|].
  destruct (nth_error buf (Z.to_nat off)) as [b|]; [|discriminate].
  cbn. intros [= <-]. destruct b; cbn; lia.
Qed.

(** The pixel difference is the sum of the absolute differences of the
    three channels. *)
Lemma pixel_difference_sum pbuf prev cbuf curr pr pg pb cr cg cb :
  load pbuf prev = Some pr -> load pbuf (prev + 1) = Some pg ->
  load pbuf (prev + 2) = Some pb ->
  load cbuf curr = Some cr -> load cbuf (curr + 1) = Some cg ->
  load cbuf (curr + 2) = Some cb ->
  pixel_difference pbuf prev cbuf curr =
  Some (Z.abs (pr - cr) + Z.abs (pg - cg) + Z.abs (pb - cb)).
Proof.
  intros H1 H2 H3 H4 H5 H6. unfold pixel_difference.
  rewrite H1, H2, H3, H4, H5, H6. reflexivity.
Qed.

(** It lies between 0 and 255*3. *)
Lemma pixel_difference_range pbuf prev cbuf curr d :
  pixel_difference pbuf prev cbuf curr = Some d -> 0 <= d <= 765.
Proof.
  unfold pixel_difference.
  destruct (load pbuf prev) as [pr|] eqn:E1; [|discriminate].
  destruct (load pbuf (prev + 1)) as [pg|] eqn:E2; [|discriminate].
  destruct (load pbuf (prev + 2)) as [pb|] eqn:E3; [|discriminate].
  destruct (load cbuf curr) as [cr|] eqn:E4; [|discriminate].
  destruct (load cbuf (curr + 1)) as [cg|] eqn:E5; [|discriminate].
  destruct (load cbuf (curr + 2)) as [cb|] eqn:E6; [|discriminate].
  intros [= <-].
  apply load_byte in E1, E2, E3, E4, E5, E6. lia.
Qed.

(** [pixel_difference] on two readable pixels is the distance of their
    channel bytes. *)
Lemma pixel_difference_channels pbuf prev cbuf curr p c :
  pixel_at pbuf prev = Some p -> pixel_at cbuf curr = Some c ->
  pixel_difference pbuf prev cbuf curr = Some (channel_distance p c).
Proof.
  unfold pixel_at, pixel_difference, channel_distance.
  destruct (load pbuf prev), (load pbuf (prev + 1)), (load pbuf (prev + 2));
    try discriminate.
  destruct (load cbuf curr), (load cbuf (curr + 1)), (load cbuf (curr + 2));
    try discriminate.
  intros [= <-] [= <-]. reflexivity.
Qed.

Lemma count_different_all tl tr bl br :
  (count_different tl tr bl br >? 3) = true <->
  tl > 76 /\ tr > 76 /\ bl > 76 /\ br > 76.
Proof.
  unfold count_different. rewrite PIXEL_TOLERANCE_value.
  destruct (Z.gtb_spec tl 76), (Z.gtb_spec tr 76),
           (Z.gtb_spec bl 76), (Z.gtb_spec br 76); cbn; split;
    first [ discriminate | reflexivity | lia | intros _; lia ].
Qed.

(** C2.  A 2x2 block is classified different exactly when all four corner
    pixel differences, each the sum of the absolute differences of the
    three channel bytes of the two pixels, exceed the tolerance
    [(255*3)/10 = 76]; with three or fewer corners above the tolerance the
    verdict is "not different". *)
Theorem neighbourhoods_differ_iff_all_four
    pbuf cbuf prev_t prev_n curr_t curr_n x
    p_tl p_tr p_bl p_br c_tl c_tr c_bl c_br :
  pixel_at pbuf (prev_t + x) = Some p_tl ->
  pixel_at cbuf (curr_t + x) = Some c_tl ->
  pixel_at pbuf (prev_t + x + 3) = Some p_tr ->
  pixel_at cbuf (curr_t + x + 3) = Some c_tr ->
  pixel_at pbuf (prev_n + x) = Some p_bl ->
  pixel_at cbuf (curr_n + x) = Some c_bl ->
  pixel_at pbuf (prev_n + x + 3) = Some p_br ->
  pixel_at cbuf (curr_n + x + 3) = Some c_br ->
  PIXEL_TOLERANCE = 76 /\
  exists verdict,
    neighbourhoods_differ pbuf cbuf prev_t prev_n curr_t curr_n x = Some verdict /\
    (verdict = true <->
     channel_distance p_tl c_tl > 76 /\ channel_distance p_tr c_tr > 76 /\
     channel_distance p_bl c_bl > 76 /\ channel_distance p_br c_br > 76).
Proof.
  intros Hptl Hctl Hptr Hctr Hpbl Hcbl Hpbr Hcbr. split; [reflexivity|].
  unfold neighbourhoods_differ.
  rewrite (pixel_difference_channels _ _ _ _ _ _ Hptl Hctl),
          (pixel_difference_channels _ _ _ _ _ _ Hptr Hctr),
          (pixel_difference_channels _ _ _ _ _ _ Hpbl Hcbl),
          (pixel_difference_channels _ _ _ _ _ _ Hpbr Hcbr).
  pose proof (count_different_all (channel_distance p_tl c_tl)
                (channel_distance p_tr c_tr) (channel_distance p_bl c_bl)
                (channel_distance p_br c_br)) as Hc.
  destruct (count_different _ _ _ _ >? 3).
  - exists true. split; [reflexivity|]. tauto.
  - exists false. split; [reflexivity|].
    split; [discriminate|]. intros H. apply Hc in H. discriminate.
Qed.

Lemma neighbourhoods_differ_iff_all_four_witness :
  PIXEL_TOLERANCE = 76 /\
  exists verdict,
    neighbourhoods_differ Sample.black Sample.three_white 0 6 0 6 0
      = Some verdict /\
    (verdict = true <->
     channel_distance (0, 0, 0) (255, 255, 255) > 76 /\
     channel_distance (0, 0, 0) (255, 255, 255) > 76 /\
     channel_distance (0, 0, 0) (255, 255, 255) > 76 /\
     channel_distance (0, 0, 0) (0, 0, 0) > 76).
Proof.
  apply (neighbourhoods_differ_iff_all_four
           Sample.black Sample.three_white 0 6 0 6 0
           (0, 0, 0) (0, 0, 0) (0, 0, 0) (0, 0, 0)
           (255, 255, 255) (255, 255, 255) (255, 255, 255) (0, 0, 0));
    reflexivity.
Defined.

(** ** Frame differencer *)

(** The fuel [frames_differ] passes is enough: more fuel does not change
    the result of a loop whose counter stays in the int range. *)
Lemma scan_row_fuel pbuf cbuf prev_t prev_n curr_t curr_n y w :
  w <= CInt.INT_MAX - 3 ->
  forall f1 f2 x,
    CInt.INT_MIN <= x ->
    (Z.to_nat (w - x) <= f1)%nat -> (Z.to_nat (w - x) <= f2)%nat ->
    scan_row f1 pbuf cbuf prev_t prev_n curr_t curr_n y x w =
    scan_row f2 pbuf cbuf prev_t prev_n curr_t curr_n y x w.
Proof.
  intros Hw. induction f1 as [|f1 IH]; intros f2 x Hx H1 H2.
  - destruct f2; cbn [scan_row]; destruct (Z.ltb_spec x w);
      solve [lia | reflexivity].
  - destruct f2 as [|f2]; cbn [scan_row]; destruct (Z.ltb_spec x w);
      try solve [lia | reflexivity].
    assert (E : x +i 3 = x + 3) by (int_simpl; reflexivity).
    rewrite E.
    destruct (neighbourhoods_differ pbuf cbuf prev_t prev_n curr_t curr_n x)
      as [[|]|]; try reflexivity.
    rewrite (IH f2) by lia. reflexivity.
Qed.

Lemma scan_rows_fuel opts frame_prev frame_curr w h :
  h <= CInt.INT_MAX ->
  forall f1 f2 prev_t curr_t y,
    CInt.INT_MIN <= y ->
    (Z.to_nat (h - y) <= f1)%nat -> (Z.to_nat (h - y) <= f2)%nat ->
    scan_rows f1 opts frame_prev frame_curr prev_t curr_t y w h =
    scan_rows f2 opts frame_prev frame_curr prev_t curr_t y w h.
Proof.
  intros Hh. induction f1 as [|f1 IH]; intros f2 prev_t curr_t y Hy H1 H2.
  - destruct f2; cbn [scan_rows]; destruct (Z.ltb_spec y h);
      solve [lia | reflexivity].
  - destruct f2 as [|f2]; cbn [scan_rows]; destruct (Z.ltb_spec y h);
      try solve [lia | reflexivity].
    assert (E : y +i 1 = y + 1) by (int_simpl; reflexivity).
    rewrite E.
    destruct (verdict (scan_row _ _ _ _ _ _ _ _ _ _)) as [[|]|];
      try reflexivity.
    rewrite (IH f2) by lia. reflexivity.
Qed.

(** Every position the scan visits lies below the loop bounds
    [h - 2*border - 1] and [3 * (w - 2*border - 1)]. *)
Lemma scan_row_visited_below fuel pbuf cbuf prev_t prev_n curr_t curr_n y0 w :
  forall x0 y x,
    In (y, x) (visited (scan_row fuel pbuf cbuf prev_t prev_n curr_t curr_n
                                 y0 x0 w)) ->
    y = y0 /\ x < w.
Proof.
  induction fuel as [|fuel IH]; intros x0 y x; cbn [scan_row];
    destruct (Z.ltb_spec x0 w) as [Hlt|Hge]; cbn [visited];
    try contradiction.
  destruct (neighbourhoods_differ pbuf cbuf prev_t prev_n curr_t curr_n x0)
    as [[|]|]; cbn [visited In].
  - intros [[= <- <-]|[]]. split; [reflexivity|assumption].
  - intros [[= <- <-]|Hin]; [split; [reflexivity|assumption]|].
    apply IH in Hin. exact Hin.
  - intros [[= <- <-]|[]]. split; [reflexivity|assumption].
Qed.

Lemma scan_rows_visited_below fuel opts frame_prev frame_curr w h :
  forall prev_t curr_t y0 y x,
    In (y, x) (visited (scan_rows fuel opts frame_prev frame_curr
                                  prev_t curr_t y0 w h)) ->
    y < h /\ x < w.
Proof.
  induction fuel as [|fuel IH]; intros prev_t curr_t y0 y x; cbn [scan_rows];
    destruct (Z.ltb_spec y0 h) as [Hlt|Hge]; cbn [visited];
    try contradiction.
  match goal with
  | |- context [verdict ?r] => remember r as row eqn:Hrow
  end.
  assert (Hr : In (y, x) (visited row) -> y < h /\ x < w).
  { intros Hin. subst row. apply scan_row_visited_below in Hin.
    destruct Hin as [-> Hx]. split; assumption. }
  destruct (verdict row) as [[|]|]; cbn [visited]; try exact Hr.
  rewrite in_app_iff. intros [Hin|Hin]; [exact (Hr Hin)|].
  apply IH in Hin. exact Hin.
Qed.

Lemma frames_differ_visited_below opts frame_prev frame_curr w h y x :
  In (y, x) (visited (frames_differ opts frame_prev frame_curr w h)) ->
  y < h -i 2 *i border opts -i 1 /\
  x < (w -i 2 *i border opts -i 1) *i 3.
Proof. unfold frames_differ. apply scan_rows_visited_below. Qed.







(** C3.  Border 1, two 6x6 pictures.  The claimed region is rows 1..4 and
    columns 1..4.  (a) The pictures differ in the whole 2x2 block at rows
    3..4, columns 3..4, inside that region: the scan visits only the loop
    positions y = 1, 2 and x = 3, 6 (columns 1, 2) and answers "no
    difference".  (b) The pictures differ in the block at rows 0..1,
    columns 1..2, whose top row lies in the border: the scan answers
    "different" at its first position, because the row pointer starts at
    row 0 of the buffer while y starts at the border. *)
Theorem frames_differ_region_sample :
  frames_differ Sample.bordered (Sample.frame6 Sample.dark)
                (Sample.frame6 (Sample.block 3 3)) 6 6
    = {| verdict := Some false; visited := [(1, 3); (1, 6); (2, 3); (2, 6)] |} /\
  frames_differ Sample.bordered (Sample.frame6 Sample.dark)
                (Sample.frame6 (Sample.block 0 1)) 6 6
    = {| verdict := Some true; visited := [(1, 3)] |}.
Proof. split; vm_compute; reflexivity. Qed.

(** ** Timeline reporter *)

Lemma get_times_ok f1 f2 fps :
  f1 <= f2 -> num fps <> 0 -> exists t, get_times f1 f2 fps = Ok t.
Proof.
  intros Hle Hn. unfold get_times.
  destruct (Z.leb_spec f1 f2); [|lia].
  destruct (Z.eqb_spec (num fps) 0); [contradiction|].
  destruct (_ >? 0); destruct (_ >? 0); eexists; reflexivity.
Qed.

(** X1.  The first of the two times is always decomposed: hours, minutes and a
    seconds remainder below 60.  (The second one is decomposed under the
    guards of the first.) *)
Lemma get_times_first_time f1 f2 fps t1 t2 :
  0 <= f1 -> 0 <= den fps -> 0 < num fps ->
  f1 * den fps <= CInt.INT_MAX ->
  get_times f1 f2 fps = Ok (t1, t2) ->
  let s := f1 * den fps / num fps in
  hours t1 = s / 3600 /\
  minutes t1 = s mod 3600 / 60 /\
  seconds t1 = s mod 60 /\ 0 <= seconds t1 < 60.
Proof.
  intros Hf Hd Hn Hfd Hget. cbv zeta.
  remember (f1 * den fps / num fps) as s eqn:Hdef.
  assert (Hs : 0 <= s <= CInt.INT_MAX).
  { subst s. split; [apply Z.div_pos; nia|].
    apply Z.le_trans with (f1 * den fps); [|assumption].
    apply Z.div_le_upper_bound; nia. }
  assert (Es : f1 *i den fps /i num fps = s).
  { replace (f1 *i den fps) with (f1 * den fps) by (int_simpl; nia).
    subst s. apply div_nonneg; nia. }
  clear Hdef.
  pose proof (Z.div_mod s 3600 ltac:(lia)) as Hdm.
  pose proof (Z.mod_pos_bound s 3600 ltac:(lia)) as Hmb.
  pose proof (Z.div_pos s 3600 ltac:(lia) ltac:(lia)) as Hdp.
  assert (Hmm : (s mod 3600) mod 60 = s mod 60)
    by (apply Z.mod_mod_divide; exists 60; reflexivity).
  remember (s mod 3600) as r eqn:Hrdef. clear Hrdef.
  pose proof (Z.div_mod r 60 ltac:(lia)) as Hdm'.
  pose proof (Z.mod_pos_bound r 60 ltac:(lia)) as Hmb'.
  pose proof (Z.div_pos r 60 ltac:(lia) ltac:(lia)) as Hdp'.
  unfold get_times in Hget.
  destruct (f1 <=? f2); [|discriminate].
  destruct (Z.eqb_spec (num fps) 0); [lia|].
  rewrite Es in Hget. change (60 * 60) with 3600 in Hget.
  rewrite (div_nonneg s 3600) in Hget by lia.
  assert (Hsec : forall q, 0 <= q <= CInt.INT_MAX ->
            q /i 60 = q / 60 /\ q -i q / 60 *i 60 = q mod 60).
  { intros q Hq. rewrite div_nonneg by lia. split; [reflexivity|].
    pose proof (Z.div_mod q 60 ltac:(lia)).
    pose proof (Z.mod_pos_bound q 60 ltac:(lia)).
    pose proof (Z.div_pos q 60 ltac:(lia) ltac:(lia)).
    int_simpl. lia. }
  destruct (Z.gtb_spec (s / 3600) 0) as [G1|G1]; cbv beta iota in Hget.
  - (* at least an hour *)
    replace (s -i s / 3600 *i 3600) with r in Hget by (int_simpl; lia).
    destruct (Hsec r ltac:(lia)) as [Eq Er]. rewrite Eq in Hget.
    destruct (Z.gtb_spec (r / 60) 0) as [G2|G2]; cbv beta iota in Hget;
      injection Hget as <- <-; cbn [hours minutes seconds];
      rewrite ?Er; repeat split; lia.
  - (* less than an hour *)
    assert (s = r) by lia. subst r.
    destruct (Hsec s ltac:(lia)) as [Eq Er]. rewrite Eq in Hget.
    destruct (Z.gtb_spec (s / 60) 0) as [G2|G2]; cbv beta iota in Hget;
      injection Hget as <- <-; cbn [hours minutes seconds];
      rewrite ?Er; repeat split; lia.
Qed.

(** C8.  At 1 frame per second, [get_times 50 70] leaves the second time
    as 0 h, 0 min, 70 s (70 s is 1 min 10 s): minutes are only split off
    when the first time has some.  The totals of a run reach this: a
    splash of 60 slots and one picture give "(00:00:01 --> 00:00:61)". *)
Theorem get_times_second_not_decomposed_sample :
  get_times 50 70 Sample.fps_1 =
    Ok ({| hours := 0; minutes := 0; seconds := 50 |},
        {| hours := 0; minutes := 0; seconds := 70 |}) /\
  let run := excise_boring_bits Sample.long_splash Sample.fps_1 2 2
               Sample.slot2 Sample.slot2 Sample.always
               [Picture Sample.black] in
  fst run = Ok true /\
  logged (snd run) =
    [MsgSplashFrames 60; MsgDifferent 0; MsgTotalFrames 1 61;
     MsgTotalTimes {| hours := 0; minutes := 0; seconds := 1 |}
                   {| hours := 0; minutes := 0; seconds := 61 |}].
Proof. vm_compute. repeat split. Qed.

(** ** Skip accumulator *)

(** The three ways a picture is handled. *)

Lemma handle_frame_first opts fps w h slack st rgb :
  frames st = 0 -> skip st <= slack ->
  handle_frame opts fps w h slack st rgb =
  (Ok {| frame_prev := sws_scale rgb (frame_curr st);
         frame_curr := frame_prev st;
         frames := 1; out_frames := out_frames st +i 1; skip := 0 |},
   [EvLog LOG_DEBUG (MsgDifferent 0);
    EvWritePng (out_frames st) (sws_scale rgb (frame_curr st))]).
Proof.
  intros Hf Hs. unfold handle_frame. rewrite Hf. cbn.
  destruct (Z.gtb_spec (skip st) slack); [lia|]. reflexivity.
Qed.

Lemma handle_frame_same opts fps w h slack st rgb :
  frames st <> 0 ->
  verdict (frames_differ opts (frame_prev st) (sws_scale rgb (frame_curr st)) w h)
    = Some false ->
  handle_frame opts fps w h slack st rgb =
  (Ok {| frame_prev := frame_prev st;
         frame_curr := sws_scale rgb (frame_curr st);
         frames := frames st +i 1;
         out_frames := if skip st +i 1 >? slack then out_frames st
                       else out_frames st +i 1;
         skip := skip st +i 1 |},
   EvCompare (frame_prev st) (sws_scale rgb (frame_curr st))
   :: EvLog LOG_DEBUG (MsgSame (frames st))
   :: if skip st +i 1 >? slack then []
      else [EvWritePng (out_frames st) (frame_prev st)]).
Proof.
  intros Hf Hv. unfold handle_frame.
  destruct (Z.eqb_spec (frames st) 0); [contradiction|].
  cbn. rewrite Hv. cbn.
  destruct (skip st +i 1 >? slack); reflexivity.
Qed.

Lemma log_skipped_ok fps slack frames skip :
  num fps <> 0 -> 0 <= slack < skip ->
  0 <= frames <= CInt.INT_MAX -> skip <= CInt.INT_MAX ->
  exists t,
    log_skipped fps slack frames skip =
    (Ok tt, [EvLog LOG_INFO (MsgSkipFrames (frames - (skip - slack)) frames);
             EvLog LOG_INFO (MsgSkipTimes (fst t) (snd t))]).
Proof.
  intros Hn Hs Hf Hk. unfold log_skipped.
  assert (E : frames -i (skip -i slack) = frames - (skip - slack))
    by (int_simpl; reflexivity).
  rewrite E.
  destruct (get_times_ok (frames - (skip - slack)) frames fps) as [t Ht];
    [lia|assumption|].
  rewrite Ht. exists t. reflexivity.
Qed.

Lemma handle_frame_different opts fps w h slack st rgb :
  classified_different opts w h st rgb ->
  num fps <> 0 -> 0 <= slack ->
  0 <= frames st <= CInt.INT_MAX -> 0 <= skip st <= CInt.INT_MAX ->
  exists evs,
    handle_frame opts fps w h slack st rgb =
    (Ok {| frame_prev := sws_scale rgb (frame_curr st);
           frame_curr := frame_prev st;
           frames := frames st +i 1; out_frames := out_frames st +i 1;
           skip := 0 |}, evs) /\
    writes evs = [(out_frames st, sws_scale rgb (frame_curr st))] /\
    skip_reports evs =
      if skip st >? slack
      then [(frames st - (skip st - slack), frames st)] else [].
Proof.
  intros Hd Hn Hs Hf Hk.
  assert (Hreport : exists evs,
    (if skip st >? slack then log_skipped fps slack (frames st) (skip st)
     else ret tt) = (Ok tt, evs) /\
    writes evs = [] /\
    skip_reports evs =
      if skip st >? slack
      then [(frames st - (skip st - slack), frames st)] else []).
  { destruct (Z.gtb_spec (skip st) slack) as [Hgt|Hle].
    - destruct (log_skipped_ok fps slack (frames st) (skip st)) as [t Ht];
        try assumption; try lia.
      rewrite Ht. eexists. repeat split.
    - eexists. repeat split. }
  destruct Hreport as (evs & Hrun & Hw & Hr).
  unfold handle_frame.
  assert (Hcls :
    (if frames st =? 0 then ret true
     else emit (EvCompare (frame_prev st) (sws_scale rgb (frame_curr st))) ;;;
          lift (of_option (verdict (frames_differ opts (frame_prev st)
                                      (sws_scale rgb (frame_curr st)) w h)))) =
    (Ok true, if frames st =? 0 then []
              else [EvCompare (frame_prev st) (sws_scale rgb (frame_curr st))])).
  { destruct Hd as [H0|Hv].
    - rewrite H0. reflexivity.
    - destruct (frames st =? 0); [reflexivity|]. rewrite Hv. reflexivity. }
  cbv zeta. rewrite Hcls. cbn -[log_skipped]. rewrite Hrun. cbn.
  eexists. split; [reflexivity|].
  rewrite !app_nil_r.
  split.
  - rewrite writes_app. cbn. rewrite writes_app, Hw. cbn.
    destruct (frames st =? 0); reflexivity.
  - rewrite skip_reports_app. cbn. rewrite skip_reports_app, Hr. cbn.
    rewrite app_nil_r. destruct (frames st =? 0); reflexivity.
Qed.

(** A run of pictures classified "same": the skip counter counts them, the
    first ones (while the counter is at most [slack]) re-emit the retained
    picture, the others are dropped; the retained slot does not change. *)
Lemma same_run opts fps w h slack kept slot Gs :
  Forall (classified_same opts w h kept slot) Gs ->
  forall st,
    frame_prev st = kept ->
    linesize (frame_curr st) = linesize slot ->
    0 < frames st -> frames st + Z.of_nat (length Gs) <= CInt.INT_MAX ->
    0 <= skip st -> skip st + Z.of_nat (length Gs) <= CInt.INT_MAX ->
    0 <= slack ->
    CInt.INT_MIN <= out_frames st ->
    out_frames st + (slack - Z.min (skip st) slack) <= CInt.INT_MAX ->
    let n := Z.of_nat (length Gs) in
    let emitted := Z.min (skip st + n) slack - Z.min (skip st) slack in
    exists st' evs,
      read_loop opts fps w h slack st (map Picture Gs) = (Ok st', evs) /\
      frame_prev st' = kept /\
      linesize (frame_curr st') = linesize slot /\
      frames st' = frames st + n /\
      skip st' = skip st + n /\
      out_frames st' = out_frames st + emitted /\
      writes evs =
        map (fun i => (i, kept)) (slots (out_frames st) (Z.to_nat emitted)).
Proof.
  induction 1 as [|G Gs HG HGs IH]; intros st Hp Hl Hf Hfn Hk Hkn Hs Ho Hon.
  - cbn. exists st, [].
    replace (Z.min (skip st + 0) slack - Z.min (skip st) slack) with 0 by lia.
    repeat split; try assumption; try lia.
  - cbn [length map read_loop] in *.
    rewrite Nat2Z.inj_succ in *.
    rewrite handle_frame_same; [|lia|].
    2:{ rewrite Hp. unfold classified_same in HG.
        unfold sws_scale in *. rewrite Hl. exact HG. }
    set (st1 := {| frame_prev := frame_prev st;
                   frame_curr := sws_scale G (frame_curr st);
                   frames := frames st +i 1;
                   out_frames := if skip st +i 1 >? slack then out_frames st
                                 else out_frames st +i 1;
                   skip := skip st +i 1 |}).
    assert (E1 : frames st +i 1 = frames st + 1) by (int_simpl; reflexivity).
    assert (E2 : skip st +i 1 = skip st + 1) by (int_simpl; reflexivity).
    destruct (IH st1) as (st' & evs & Hrun & Hp' & Hl' & Hf' & Hk' & Ho' & Hw');
      subst st1; cbn [frame_prev frame_curr frames out_frames skip];
      rewrite ?E1, ?E2; try lia; try assumption.
    + destruct (Z.gtb_spec (skip st + 1) slack); [lia|].
      int_simpl. lia.
    + destruct (Z.gtb_spec (skip st + 1) slack); [lia|].
      replace (out_frames st +i 1) with (out_frames st + 1)
        by (int_simpl; reflexivity).
      lia.
    + cbn [frame_prev frame_curr frames out_frames skip] in *.
      rewrite ?E1, ?E2 in *.
      unfold bind. rewrite Hrun.
      exists st', (EvCompare (frame_prev st) (sws_scale G (frame_curr st))
                   :: EvLog LOG_DEBUG (MsgSame (frames st))
                   :: (if skip st + 1 >? slack then []
                       else [EvWritePng (out_frames st) (frame_prev st)]) ++ evs).
      split; [reflexivity|].
      repeat split; try assumption; try lia.
      * rewrite Ho'. destruct (Z.gtb_spec (skip st + 1) slack); [lia|].
        int_simpl. lia.
      * cbn [writes]. rewrite writes_app, Hw'.
        destruct (Z.gtb_spec (skip st + 1) slack) as [Hgt|Hle].
        -- cbn. f_equal. f_equal. lia.
        -- replace (out_frames st +i 1) with (out_frames st + 1)
             by (int_simpl; reflexivity).
           cbn [writes app]. rewrite Hp.
           replace (Z.to_nat (Z.min (skip st + Z.succ (Z.of_nat (length Gs))) slack
                              - Z.min (skip st) slack))
             with (S (Z.to_nat (Z.min (skip st + 1 + Z.of_nat (length Gs)) slack
                                - Z.min (skip st + 1) slack))) by lia.
           reflexivity.
Qed.

Lemma Forall_firstn_keep {A} (P : A -> Prop) (l : list A) :
  Forall P l -> forall n, Forall P (firstn n l).
Proof.
  induction 1 as [|a l Ha Hl IH]; intros [|n]; cbn; constructor; auto.
Qed.

(** C9.  The first picture of the stream ([frames = 0], [skip = 0]) is
    treated as different without a call of the frame differencer: it is
    swapped into the retained slot, written to the next output slot, and
    the skip counter is zero afterwards. *)
Theorem first_frame_kept_without_compare opts fps w h slack st rgb :
  frames st = 0 -> skip st = 0 -> 0 <= slack ->
  exists st' evs,
    handle_frame opts fps w h slack st rgb = (Ok st', evs) /\
    compares evs = O /\
    frame_prev st' = sws_scale rgb (frame_curr st) /\
    frame_curr st' = frame_prev st /\
    writes evs = [(out_frames st, frame_prev st')] /\
    skip st' = 0.
Proof.
  intros Hf Hk Hs.
  rewrite handle_frame_first by lia.
  eexists. eexists. split; [reflexivity|]. cbn. repeat split.
Qed.

Lemma first_frame_kept_without_compare_witness :
  exists st' evs,
    handle_frame (Sample.plain 100) Sample.fps_1 2 2 1 (Sample.start 0)
                 Sample.black = (Ok st', evs) /\
    compares evs = O /\
    frame_prev st' = sws_scale Sample.black Sample.slot2 /\
    frame_curr st' = Sample.slot2 /\
    writes evs = [(0, frame_prev st')] /\
    skip st' = 0.
Proof.
  apply (first_frame_kept_without_compare
           (Sample.plain 100) Sample.fps_1 2 2 1 (Sample.start 0) Sample.black);
    [reflexivity | reflexivity | lia].
Defined.

(** C1.  With slack [S], a picture classified different followed by [K > S]
    pictures classified same: after the first [n] of them ([n <= K]) the
    retained slot still holds the differing picture, [1 + min n S] slots
    have been written, all with the retained picture (the differing
    picture, then one duplicate per same picture while the counter is at
    most [S]), and [max 0 (n - S)] pictures have been dropped.  For the
    whole run ([n = K]) that is [S + 1] emitted and [K - S] dropped. *)
Theorem slack_run_emits_S_plus_1 opts fps w h slack st D Gs :
  classified_different opts w h st D ->
  Forall (classified_same opts w h (sws_scale D (frame_curr st)) (frame_prev st)) Gs ->
  0 <= slack < Z.of_nat (length Gs) ->
  num fps <> 0 ->
  0 <= frames st -> frames st + Z.of_nat (length Gs) + 1 <= CInt.INT_MAX ->
  0 <= skip st <= CInt.INT_MAX ->
  CInt.INT_MIN <= out_frames st -> out_frames st + slack + 1 <= CInt.INT_MAX ->
  forall n, (n <= length Gs)%nat ->
    exists st' evs,
      read_loop opts fps w h slack st (map Picture (D :: firstn n Gs))
        = (Ok st', evs) /\
      frame_prev st' = sws_scale D (frame_curr st) /\
      skip st' = Z.of_nat n /\
      frames st' = frames st + 1 + Z.of_nat n /\
      out_frames st' = out_frames st + 1 + Z.min (Z.of_nat n) slack /\
      writes evs =
        map (fun i => (i, sws_scale D (frame_curr st)))
            (slots (out_frames st) (S (Z.to_nat (Z.min (Z.of_nat n) slack)))) /\
      Z.of_nat (S n) - Z.of_nat (length (writes evs))
        = Z.max 0 (Z.of_nat n - slack).
Proof.
  intros Hd Hsame Hs Hn Hf HfK Hk Ho HoS n Hle.
  destruct (handle_frame_different opts fps w h slack st D Hd Hn)
    as (evs1 & Hrun1 & Hw1 & _); try lia.
  set (st1 := {| frame_prev := sws_scale D (frame_curr st);
                 frame_curr := frame_prev st;
                 frames := frames st +i 1; out_frames := out_frames st +i 1;
                 skip := 0 |}) in *.
  assert (E1 : frames st +i 1 = frames st + 1) by (int_simpl; reflexivity).
  assert (E2 : out_frames st +i 1 = out_frames st + 1)
    by (int_simpl; reflexivity).
  assert (Hlen : length (firstn n Gs) = n) by (apply firstn_length_le; exact Hle).
  destruct (same_run opts fps w h slack (sws_scale D (frame_curr st))
              (frame_prev st) (firstn n Gs)) with (st := st1)
    as (st' & evs2 & Hrun2 & Hp & _ & Hf' & Hk' & Ho' & Hw2);
    subst st1; cbn [frame_prev frame_curr frames out_frames skip];
    rewrite ?E1, ?E2, ?Hlen; try reflexivity; try lia.
  { apply Forall_firstn_keep. exact Hsame. }
  cbn [frame_prev frame_curr frames out_frames skip] in *.
  rewrite ?E1, ?E2, ?Hlen in *.
  exists st', (evs1 ++ evs2).
  split.
  { cbn [map read_loop]. rewrite Hrun1. unfold bind. rewrite Hrun2. reflexivity. }
  assert (Hw : writes (evs1 ++ evs2) =
               map (fun i => (i, sws_scale D (frame_curr st)))
                   (slots (out_frames st)
                          (S (Z.to_nat (Z.min (Z.of_nat n) slack))))).
  { rewrite writes_app, Hw1, Hw2.
    replace (Z.min (0 + Z.of_nat n) slack - Z.min 0 slack)
      with (Z.min (Z.of_nat n) slack) by lia.
    reflexivity. }
  repeat split; try assumption; try lia.
  rewrite Hw, length_map.
  assert (Hslots : forall m o, length (slots o m) = m).
  { induction m as [|m IHm]; intros o; cbn; [reflexivity|].
    rewrite IHm. reflexivity. }
  rewrite Hslots. lia.
Qed.

Lemma after_pause_reached :
  fst (read_loop (Sample.plain 100) Sample.fps_1 2 2 1 (Sample.start 0)
         (map Picture (repeat Sample.black 5)))
  = Ok Sample.after_pause.
Proof. reflexivity. Qed.

Lemma slack_run_emits_S_plus_1_witness :
  exists st' evs,
    read_loop (Sample.plain 100) Sample.fps_1 2 2 1 Sample.after_pause
      (map Picture (Sample.white
                      :: firstn 3 [Sample.white; Sample.white; Sample.white]))
      = (Ok st', evs) /\
    frame_prev st' = sws_scale Sample.white Sample.slot2 /\
    skip st' = 3 /\
    frames st' = 5 + 1 + 3 /\
    out_frames st' = 2 + 1 + Z.min 3 1 /\
    writes evs =
      map (fun i => (i, sws_scale Sample.white Sample.slot2))
          (slots 2 (S (Z.to_nat (Z.min 3 1)))) /\
    Z.of_nat 4 - Z.of_nat (length (writes evs)) = Z.max 0 (3 - 1).
Proof.
  apply (slack_run_emits_S_plus_1
           (Sample.plain 100) Sample.fps_1 2 2 1 Sample.after_pause
           Sample.white [Sample.white; Sample.white; Sample.white]).
  - right. reflexivity.
  - repeat (constructor; [reflexivity|]). constructor.
  - cbn. lia.
  - cbn. lia.
  - cbn. lia.
  - cbn. unfold CInt.INT_MAX. lia.
  - cbn. unfold CInt.INT_MAX. lia.
  - cbn. unfold CInt.INT_MIN. lia.
  - cbn. unfold CInt.INT_MAX. lia.
  - cbn. lia.
Defined.

(** Splash of 3 slots, slack of 1 frame, four identical pictures and then
    a different one: pictures 2 and 3 are dropped, picture 4 is classified
    different and written (slot 5), and the range reported is "2 to 4": it
    ends at a picture that is written, so read as a closed interval of
    dropped pictures it is wrong. *)
Lemma skip_range_end_is_written_sample :
  let run := excise_boring_bits (Sample.with_splash 100) Sample.fps_1 2 2
               Sample.slot2 Sample.slot2 Sample.always
               (map Picture [Sample.black; Sample.black; Sample.black;
                             Sample.black; Sample.white]) in
  fst run = Ok true /\
  logged (snd run) =
    [MsgSplashFrames 3; MsgDifferent 0; MsgSame 1; MsgSame 2; MsgSame 3;
     MsgDifferent 4; MsgSkipFrames 2 4;
     MsgSkipTimes {| hours := 0; minutes := 0; seconds := 2 |}
                  {| hours := 0; minutes := 0; seconds := 4 |};
     MsgTotalFrames 5 6;
     MsgTotalTimes {| hours := 0; minutes := 0; seconds := 5 |}
                   {| hours := 0; minutes := 0; seconds := 6 |}] /\
  writes (snd run) =
    [(3, sws_scale Sample.black Sample.slot2);
     (4, sws_scale Sample.black Sample.slot2);
     (5, sws_scale Sample.white Sample.slot2)] /\
  skip_reports (snd run) = [(2, 4)] /\
  handled (snd run) = [0; 1; 2; 3; 4] /\
  emitted (snd run) = [0; 1; 4] /\
  ~ closed_range_claim (snd run).
Proof.
  cbv zeta.
  assert (Hfacts :
    skip_reports (snd (excise_boring_bits (Sample.with_splash 100) Sample.fps_1
                         2 2 Sample.slot2 Sample.slot2 Sample.always
                         (map Picture [Sample.black; Sample.black; Sample.black;
                                       Sample.black; Sample.white])))
      = [(2, 4)] /\
    emitted (snd (excise_boring_bits (Sample.with_splash 100) Sample.fps_1
                    2 2 Sample.slot2 Sample.slot2 Sample.always
                    (map Picture [Sample.black; Sample.black; Sample.black;
                                  Sample.black; Sample.white])))
      = [0; 1; 4]) by (vm_compute; split; reflexivity).
  destruct Hfacts as [Hreports Hemitted].
  repeat (split; [vm_compute; reflexivity|]).
  intros Hclaim.
  destruct (Hclaim 2 4) as (_ & [_ Hdropped] & _).
  - rewrite Hreports. left. reflexivity.
  - apply Hdropped. rewrite Hemitted. right. right. left. reflexivity.
Qed.

(** ** Splash injector *)

(** When every [link] succeeds the loop runs up to [lim]. *)
Lemma splash_loop_all_ok link_ok lim :
  (forall i, link_ok i = true) -> lim <= CInt.INT_MAX ->
  forall fuel i,
    CInt.INT_MIN <= i -> (Z.to_nat (lim - i) <= fuel)%nat ->
    splash_loop fuel link_ok i lim =
    (Ok (Z.max i lim), map EvLink (slots i (Z.to_nat (lim - i)))).
Proof.
  intros Hok Hlim. induction fuel as [|fuel IH]; intros i Hi Hfuel.
  - cbn. destruct (Z.ltb_spec i lim); [lia|].
    replace (Z.to_nat (lim - i)) with O by lia.
    replace (Z.max i lim) with i by lia. reflexivity.
  - cbn [splash_loop]. destruct (Z.ltb_spec i lim) as [Hlt|Hge].
    + rewrite Hok.
      assert (E : i +i 1 = i + 1) by (int_simpl; reflexivity).
      rewrite E, IH by lia.
      replace (Z.to_nat (lim - i)) with (S (Z.to_nat (lim - (i + 1)))) by lia.
      cbn. replace (Z.max (i + 1) lim) with (Z.max i lim) by lia. reflexivity.
    + replace (Z.to_nat (lim - i)) with O by lia.
      replace (Z.max i lim) with i by lia. reflexivity.
Qed.

Lemma dump_splash_all_ok opts link_ok fps :
  (forall i, link_ok i = true) ->
  0 <= splash opts -> 0 <= num fps -> 0 < den fps ->
  splash opts * num fps <= CInt.INT_MAX ->
  SECOND_IN_CS * den fps <= CInt.INT_MAX ->
  let N := (splash opts * num fps) / (100 * den fps) in
  dump_splash opts link_ok fps =
  (Ok N, map EvLink (slots 0 (Z.to_nat N))
         ++ [EvLog LOG_INFO (MsgSplashFrames N)]).
Proof.
  intros Hok Hs Hn Hd Hsn Hcd N. unfold dump_splash.
  unfold SECOND_IN_CS in *.
  assert (E1 : 100 *i den fps = 100 * den fps) by (int_simpl; reflexivity).
  assert (E2 : splash opts *i num fps = splash opts * num fps)
    by (int_simpl; nia).
  rewrite E1, E2.
  destruct (Z.eqb_spec (100 * den fps) 0); [lia|].
  rewrite div_nonneg by nia. fold N.
  assert (HN : 0 <= N <= CInt.INT_MAX).
  { subst N. split; [apply Z.div_pos; nia|].
    apply Z.le_trans with (splash opts * num fps); [|assumption].
    apply Z.div_le_upper_bound; nia. }
  rewrite splash_loop_all_ok;
    [| assumption | lia | unfold CInt.INT_MIN; lia | lia].
  replace (Z.max 0 N) with N by lia.
  replace (N - 0) with N by lia.
  cbn. reflexivity.
Qed.

(** The first picture of a stream is written to the slot [out_frames]
    holds when the loop starts. *)
Lemma read_loop_first_write opts fps w h s st rgb rest :
  frames st = 0 -> skip st <= s ->
  forall pre, Forall carries_no_frame pre ->
    hd_error (writes (snd (read_loop opts fps w h s st
                             (pre ++ Picture rgb :: rest))))
      = Some (out_frames st, sws_scale rgb (frame_curr st)).
Proof.
  intros Hf Hk. induction 1 as [|p pre [-> | ->] Hpre IH].
  - cbn [app read_loop]. rewrite bind_log, handle_frame_first by assumption.
    reflexivity.
  - cbn [app read_loop]. rewrite bind_log. cbn. exact IH.
  - cbn [app read_loop]. exact IH.
Qed.

(** C7.  With a splash image configured, a duration of [D] cs, a frame
    rate [num/den] and every [link] succeeding, [dump_splash] fills exactly
    [floor (D * num / (100 * den))] slots, numbered from 0, and the first
    picture written by the main loop goes to the slot with that number. *)
Theorem splash_slots_then_first_index opts link_ok fps p :
  splash_path opts = Some p ->
  (forall i, link_ok i = true) ->
  0 <= splash opts -> 0 <= num fps -> 0 < den fps ->
  splash opts * num fps <= CInt.INT_MAX ->
  SECOND_IN_CS * den fps <= CInt.INT_MAX ->
  0 <= slack opts -> slack opts * num fps <= CInt.INT_MAX ->
  let N := (splash opts * num fps) / (100 * den fps) in
  dump_splash opts link_ok fps =
    (Ok N, map EvLink (slots 0 (Z.to_nat N))
           ++ [EvLog LOG_INFO (MsgSplashFrames N)]) /\
  forall w h buf_curr buf_prev pre rgb rest,
    Forall carries_no_frame pre ->
    hd_error (writes (snd (excise_boring_bits opts fps w h buf_curr buf_prev
                             link_ok (pre ++ Picture rgb :: rest))))
      = Some (N, sws_scale rgb buf_curr).
Proof.
  intros Hp Hok Hs Hn Hd Hsn Hcd Hk Hkn N.
  pose proof (dump_splash_all_ok opts link_ok fps Hok Hs Hn Hd Hsn Hcd) as Hdump.
  cbv zeta in Hdump. fold N in Hdump.
  split; [exact Hdump|].
  intros w h buf_curr buf_prev pre rgb rest Hpre.
  unfold excise_boring_bits, slack_frames. rewrite Hp, Hdump.
  unfold SECOND_IN_CS in *.
  assert (E1 : 100 *i den fps = 100 * den fps) by (int_simpl; reflexivity).
  assert (E2 : slack opts *i num fps = slack opts * num fps)
    by (int_simpl; nia).
  rewrite E1, E2.
  destruct (Z.eqb_spec (100 * den fps) 0); [lia|].
  rewrite div_nonneg by nia.
  assert (Hslack : 0 <= slack opts * num fps / (100 * den fps))
    by (apply Z.div_pos; nia).
  unfold lift. rewrite bind_log. cbn [fst snd app].
  rewrite bind_log. cbn [fst snd].
  rewrite bind_log.
  rewrite <- !app_assoc, !writes_app, writes_links. cbn [app writes].
  apply hd_error_app.
  apply (read_loop_first_write opts fps w h _
           {| frame_prev := buf_prev; frame_curr := buf_curr;
              frames := 0; out_frames := N; skip := 0 |});
    [reflexivity | cbn [skip]; lia | exact Hpre].
Qed.

Lemma splash_slots_then_first_index_witness :
  dump_splash (Sample.with_splash 0) Sample.always Sample.fps_1 =
    (Ok 3, map EvLink (slots 0 (Z.to_nat 3))
           ++ [EvLog LOG_INFO (MsgSplashFrames 3)]) /\
  hd_error (writes (snd (excise_boring_bits (Sample.with_splash 0)
                           Sample.fps_1 2 2 Sample.slot2 Sample.slot2
                           Sample.always
                           ([NotVideo; NoFrame]
                              ++ Picture Sample.white :: [Picture Sample.black]))))
    = Some (3, sws_scale Sample.white Sample.slot2).
Proof.
  destruct (splash_slots_then_first_index (Sample.with_splash 0) Sample.always
              Sample.fps_1 "splash.png"%string) as [Hslots Hfirst].
  - reflexivity.
  - intros i. reflexivity.
  - cbn. unfold SPLASH_TIME_CS. lia.
  - cbn. lia.
  - cbn. lia.
  - cbn. unfold SPLASH_TIME_CS, CInt.INT_MAX. lia.
  - cbn. unfold SECOND_IN_CS, CInt.INT_MAX. lia.
  - cbn. lia.
  - cbn. unfold CInt.INT_MAX. lia.
  - split; [exact Hslots|].
    apply Hfirst.
    constructor; [left; reflexivity|].
    constructor; [right; reflexivity|].
    constructor.
Defined.

(** ** End of the stream *)

(** The statements after the loop log the totals and nothing else,
    whatever the skip counter holds. *)
Lemma report_totals_logs_totals_only fps st :
  skip_reports (snd (report_totals fps st)) = [] /\
  writes (snd (report_totals fps st)) = [].
Proof.
  unfold report_totals.
  destruct (get_times (frames st) (out_frames st) fps); split; reflexivity.
Qed.

(** C4.  Splash of 3 slots, slack 0, three identical pictures: pictures 1
    and 2 are dropped and the stream ends with the skip run open.  The run
    succeeds, and after "2: Same" the log holds the totals only: no skip
    range is reported. *)
Theorem open_skip_run_not_reported_sample :
  let run := excise_boring_bits (Sample.with_splash 0) Sample.fps_1 2 2
               Sample.slot2 Sample.slot2 Sample.always
               (map Picture [Sample.black; Sample.black; Sample.black]) in
  fst run = Ok true /\
  logged (snd run) =
    [MsgSplashFrames 3; MsgDifferent 0; MsgSame 1; MsgSame 2;
     MsgTotalFrames 3 4;
     MsgTotalTimes {| hours := 0; minutes := 0; seconds := 3 |}
                   {| hours := 0; minutes := 0; seconds := 4 |}] /\
  map fst (writes (snd run)) = [3] /\
  skip_reports (snd run) = [].
Proof. vm_compute. repeat split. Qed.

(** C10.  [get_times] asserts [f1 <= f2], and the totals summary calls it
    with the frames read as [f1] and the frames written as [f2]: every run
    whose loop ends with more frames read than written stops at that
    assertion instead of reporting its totals. *)
Theorem totals_assertion_fails_when_frames_dropped
    opts fps w h buf_curr buf_prev link_ok pkts s o e1 st e2 :
  slack_frames opts fps = Ok s ->
  (match splash_path opts with
   | Some _ => dump_splash opts link_ok fps
   | None => ret 0
   end) = (Ok o, e1) ->
  read_loop opts fps w h s
    {| frame_prev := buf_prev; frame_curr := buf_curr;
       frames := 0; out_frames := o; skip := 0 |} pkts = (Ok st, e2) ->
  out_frames st < frames st ->
  get_times (frames st) (out_frames st) fps = AssertFailed /\
  excise_boring_bits opts fps w h buf_curr buf_prev link_ok pkts
    = (AssertFailed, e1 ++ e2).
Proof.
  intros Hs Hsplash Hloop Hlt.
  assert (Hg : get_times (frames st) (out_frames st) fps = AssertFailed).
  { unfold get_times.
    destruct (Z.leb_spec (frames st) (out_frames st)); [lia|reflexivity]. }
  split; [exact Hg|].
  unfold excise_boring_bits. rewrite Hs. cbn [lift bind app].
  rewrite Hsplash. cbn [bind]. rewrite Hloop. cbn [bind].
  unfold report_totals. rewrite Hg. cbn. rewrite app_nil_r. reflexivity.
Qed.

Lemma totals_assertion_fails_when_frames_dropped_witness :
  get_times 2 1 Sample.fps_1 = AssertFailed /\
  excise_boring_bits (Sample.plain 0) Sample.fps_1 2 2
    Sample.slot2 Sample.slot2 Sample.always
    (map Picture [Sample.black; Sample.black])
  = (AssertFailed,
     [] ++ [EvLog LOG_DEBUG (MsgDifferent 0);
            EvWritePng 0 (sws_scale Sample.black Sample.slot2);
            EvCompare (sws_scale Sample.black Sample.slot2)
                      (sws_scale Sample.black Sample.slot2);
            EvLog LOG_DEBUG (MsgSame 1)]).
Proof.
  apply (totals_assertion_fails_when_frames_dropped
           (Sample.plain 0) Sample.fps_1 2 2 Sample.slot2 Sample.slot2
           Sample.always (map Picture [Sample.black; Sample.black])
           0 0 []
           {| frame_prev := sws_scale Sample.black Sample.slot2;
              frame_curr := sws_scale Sample.black Sample.slot2;
              frames := 2; out_frames := 1; skip := 1 |}).
  - reflexivity.
  - reflexivity.
  - reflexivity.
  - cbn. lia.
Defined.

(** * Further properties *)

(** ** Pixel comparator *)

(** X2.  The difference of two pixels does not depend on which one is the
    previous and which the current one. *)
Theorem pixel_difference_symmetric pbuf prev cbuf curr :
  pixel_difference pbuf prev cbuf curr = pixel_difference cbuf curr pbuf prev.
Proof.
  unfold pixel_difference.
  destruct (load pbuf prev), (load pbuf (prev + 1)), (load pbuf (prev + 2)),
           (load cbuf curr), (load cbuf (curr + 1)), (load cbuf (curr + 2));
    try reflexivity.
  f_equal. lia.
Qed.

Lemma load_some_iff buf off :
  (exists v, load buf off = Some v) <-> 0 <= off < Z.of_nat (length buf).
Proof.
  unfold load. destruct (Z.ltb_spec off 0) as [Hneg|Hpos].
  - split; [intros [v Hv]; discriminate | lia].
  - destruct (nth_error buf (Z.to_nat off)) as [b|] eqn:E.
    + split; [intros _|intros _; eexists; reflexivity].
      assert (Z.to_nat off < length buf)%nat
        by (apply nth_error_Some; congruence).
      lia.
    + split; [intros [v Hv]; discriminate|].
      apply nth_error_None in E. lia.
Qed.

Lemma pixel_difference_in_bounds pbuf prev cbuf curr :
  0 <= prev -> prev + 2 < Z.of_nat (length pbuf) ->
  0 <= curr -> curr + 2 < Z.of_nat (length cbuf) ->
  exists d, pixel_difference pbuf prev cbuf curr = Some d.
Proof.
  intros Hp Hp' Hc Hc'. unfold pixel_difference.
  destruct (proj2 (load_some_iff pbuf prev) ltac:(lia)) as [v1 ->].
  destruct (proj2 (load_some_iff pbuf (prev + 1)) ltac:(lia)) as [v2 ->].
  destruct (proj2 (load_some_iff pbuf (prev + 2)) ltac:(lia)) as [v3 ->].
  destruct (proj2 (load_some_iff cbuf curr) ltac:(lia)) as [v4 ->].
  destruct (proj2 (load_some_iff cbuf (curr + 1)) ltac:(lia)) as [v5 ->].
  destruct (proj2 (load_some_iff cbuf (curr + 2)) ltac:(lia)) as [v6 ->].
  eexists. reflexivity.
Qed.

(** When corresponding bytes of the two buffers differ by at most 25, a
    pixel difference is at most 75, below the tolerance. *)
Lemma pixel_difference_close pbuf cbuf off d :
  (forall o a b, load pbuf o = Some a -> load cbuf o = Some b ->
                 Z.abs (a - b) <= 25) ->
  pixel_difference pbuf off cbuf off = Some d -> d <= 75.
Proof.
  intros Hclose. unfold pixel_difference.
  destruct (load pbuf off) as [pr|] eqn:E1; [|discriminate].
  destruct (load pbuf (off + 1)) as [pg|] eqn:E2; [|discriminate].
  destruct (load pbuf (off + 2)) as [pb|] eqn:E3; [|discriminate].
  destruct (load cbuf off) as [cr|] eqn:E4; [|discriminate].
  destruct (load cbuf (off + 1)) as [cg|] eqn:E5; [|discriminate].
  destruct (load cbuf (off + 2)) as [cb|] eqn:E6; [|discriminate].
  intros [= <-].
  pose proof (Hclose _ _ _ E1 E4). pose proof (Hclose _ _ _ E2 E5).
  pose proof (Hclose _ _ _ E3 E6). lia.
Qed.

Lemma channels_within_load t pbuf cbuf :
  channels_within t pbuf cbuf ->
  forall o a b, load pbuf o = Some a -> load cbuf o = Some b ->
                Z.abs (a - b) <= t.
Proof.
  intros H o a b. unfold load. destruct (o <? 0); [discriminate|].
  generalize (Z.to_nat o) as n. clear o.
  induction H as [|x y pbuf cbuf Hxy H IH]; intros [|n]; cbn;
    try discriminate.
  - intros [= <-] [= <-]. exact Hxy.
  - apply IH.
Qed.

(** ** Neighbourhood classifier and frame differencer: noise *)

Lemma neighbourhoods_close pbuf cbuf top next x :
  channels_within 25 pbuf cbuf ->
  neighbourhoods_differ pbuf cbuf top next top next x <> Some true.
Proof.
  intros Hc. pose proof (channels_within_load _ _ _ Hc) as Hl.
  unfold neighbourhoods_differ.
  destruct (pixel_difference pbuf (top + x) cbuf (top + x)) as [tl|] eqn:E1;
    [|discriminate].
  destruct (pixel_difference pbuf (top + x + 3) cbuf (top + x + 3))
    as [tr|] eqn:E2; [|discriminate].
  destruct (pixel_difference pbuf (next + x) cbuf (next + x)) as [bl|] eqn:E3;
    [|discriminate].
  destruct (pixel_difference pbuf (next + x + 3) cbuf (next + x + 3))
    as [br|] eqn:E4; [|discriminate].
  apply (pixel_difference_close _ _ _ _ Hl) in E1.
  destruct (count_different tl tr bl br >? 3) eqn:Hcount; [|discriminate].
  apply count_different_all in Hcount. lia.
Qed.

Lemma scan_row_close pbuf cbuf top next y w :
  channels_within 25 pbuf cbuf ->
  forall fuel x,
    verdict (scan_row fuel pbuf cbuf top next top next y x w) <> Some true.
Proof.
  intros Hc. induction fuel as [|fuel IH]; intros x; cbn [scan_row];
    destruct (x <? w); cbn [verdict]; try discriminate.
  pose proof (neighbourhoods_close pbuf cbuf top next x Hc) as Hn.
  destruct (neighbourhoods_differ pbuf cbuf top next top next x) as [[|]|];
    cbn [verdict]; try discriminate; [congruence|apply IH].
Qed.

Lemma scan_rows_close opts frame_prev frame_curr w h :
  linesize frame_prev = linesize frame_curr ->
  channels_within 25 (data frame_prev) (data frame_curr) ->
  forall fuel top y,
    verdict (scan_rows fuel opts frame_prev frame_curr top top y w h)
      <> Some true.
Proof.
  intros Hls Hc. induction fuel as [|fuel IH]; intros top y; cbn [scan_rows];
    destruct (y <? h); cbn [verdict]; try discriminate.
  rewrite <- Hls.
  pose proof (scan_row_close _ _ top (top + linesize frame_prev) y w Hc
                (Z.to_nat (w - border opts *i 3)) (border opts *i 3)) as Hrow.
  destruct (verdict (scan_row _ _ _ _ _ _ _ _ _ _)) as [[|]|] eqn:E;
    cbn [verdict]; first [apply IH | congruence].
Qed.

(** ** Frame differencer: a linear search over the region *)

Lemma first_different_ext f g ps :
  (forall p, In p ps -> f p = g p) ->
  first_different f ps = first_different g ps.
Proof.
  induction ps as [|p ps IH]; intros H; [reflexivity|].
  cbn [first_different]. rewrite <- (H p (or_introl eq_refl)).
  rewrite IH by (intros q Hq; apply H; right; exact Hq). reflexivity.
Qed.

Lemma first_different_app f l1 l2 :
  first_different f (l1 ++ l2) =
  match verdict (first_different f l1) with
  | Some false =>
      {| verdict := verdict (first_different f l2);
         visited := visited (first_different f l1)
                    ++ visited (first_different f l2) |}
  | _ => first_different f l1
  end.
Proof.
  induction l1 as [|p l1 IH]; cbn [app first_different verdict visited].
  - destruct (first_different f l2); reflexivity.
  - destruct (f p) as [[|]|]; cbn [verdict visited]; try reflexivity.
    rewrite IH.
    destruct (first_different f l1) as [[[|]|] vis1];
      cbn [verdict visited]; reflexivity.
Qed.

(** One row: the columns [c .. cmax - 1], at byte offsets [3 * c]. *)
Lemma scan_row_search pbuf cbuf prev_t prev_n curr_t curr_n y cmax :
  3 * cmax <= CInt.INT_MAX ->
  forall n fuel c,
    CInt.INT_MIN <= 3 * c -> n = Z.to_nat (cmax - c) ->
    (Z.to_nat (3 * cmax - 3 * c) <= fuel)%nat ->
    scan_row fuel pbuf cbuf prev_t prev_n curr_t curr_n y (3 * c) (3 * cmax) =
    first_different
      (fun p => neighbourhoods_differ pbuf cbuf prev_t prev_n curr_t curr_n
                                      (snd p))
      (map (fun c => (y, 3 * c)) (slots c n)).
Proof.
  intros Hmax. induction n as [|n IH]; intros fuel c Hc Hn Hfuel.
  - cbn [slots map first_different].
    destruct fuel; cbn [scan_row];
      destruct (Z.ltb_spec (3 * c) (3 * cmax)); solve [lia | reflexivity].
  - cbn [slots map first_different snd].
    destruct fuel as [|fuel]; [lia|]. cbn [scan_row].
    destruct (Z.ltb_spec (3 * c) (3 * cmax)); [|lia].
    replace (3 * c +i 3) with (3 * (c + 1)) by (int_simpl; lia).
    rewrite (IH fuel (c + 1)) by lia.
    reflexivity.
Qed.

(** The rows [y .. hmax - 1], the row pointers having advanced
    [y - border] strides. *)
Lemma scan_rows_search opts frame_prev frame_curr cmax hmax :
  0 <= border opts -> 3 * border opts <= CInt.INT_MAX ->
  3 * cmax <= CInt.INT_MAX -> hmax <= CInt.INT_MAX ->
  forall m fuel y,
    CInt.INT_MIN <= y -> m = Z.to_nat (hmax - y) -> (m <= fuel)%nat ->
    scan_rows fuel opts frame_prev frame_curr
      ((y - border opts) * linesize frame_prev)
      ((y - border opts) * linesize frame_curr) y (3 * cmax) hmax =
    first_different (block_at opts frame_prev frame_curr)
      (flat_map
         (fun y => map (fun c => (y, 3 * c))
                       (slots (border opts) (Z.to_nat (cmax - border opts))))
         (slots y m)).
Proof.
  intros Hb Hb3 Hcmax Hhmax. induction m as [|m IH]; intros fuel y Hy Hm Hfuel.
  - cbn [slots flat_map first_different].
    destruct fuel; cbn [scan_rows];
      destruct (Z.ltb_spec y hmax); solve [lia | reflexivity].
  - cbn [slots flat_map].
    destruct fuel as [|fuel]; [lia|]. cbn [scan_rows].
    destruct (Z.ltb_spec y hmax); [|lia].
    replace (border opts *i 3) with (3 * border opts) by (int_simpl; lia).
    rewrite (scan_row_search _ _ _ _ _ _ y cmax Hcmax
               (Z.to_nat (cmax - border opts)))
      by (unfold CInt.INT_MIN; lia).
    rewrite first_different_app.
    rewrite (first_different_ext
               (fun p => neighbourhoods_differ (data frame_prev) (data frame_curr)
                           ((y - border opts) * linesize frame_prev)
                           ((y - border opts) * linesize frame_prev
                            + linesize frame_prev)
                           ((y - border opts) * linesize frame_curr)
                           ((y - border opts) * linesize frame_curr
                            + linesize frame_curr) (snd p))
               (block_at opts frame_prev frame_curr)).
    2:{ intros p Hp. apply in_map_iff in Hp. destruct Hp as (c & <- & _).
        unfold block_at. cbn [fst snd]. f_equal; lia. }
    replace (y +i 1) with (y + 1) by (int_simpl; lia).
    replace ((y - border opts) * linesize frame_prev + linesize frame_prev)
      with ((y + 1 - border opts) * linesize frame_prev) by lia.
    replace ((y - border opts) * linesize frame_curr + linesize frame_curr)
      with ((y + 1 - border opts) * linesize frame_curr) by lia.
    rewrite (IH fuel (y + 1)) by lia.
    reflexivity.
Qed.

Lemma frames_differ_is_linear_search_aux opts frame_prev frame_curr w h :
  0 <= border opts -> 6 * border opts + 3 <= CInt.INT_MAX ->
  0 <= w -> 3 * w <= CInt.INT_MAX -> 0 <= h <= CInt.INT_MAX ->
  frames_differ opts frame_prev frame_curr w h =
  first_different (block_at opts frame_prev frame_curr) (scan_region opts w h).
Proof.
  intros Hb Hb6 Hw Hw3 Hh. unfold frames_differ, scan_region.
  replace (h -i 2 *i border opts -i 1) with (h - 2 * border opts - 1)
    by (int_simpl; lia).
  replace ((w -i 2 *i border opts -i 1) *i 3)
    with (3 * (w - 2 * border opts - 1)) by (int_simpl; lia).
  pose proof (scan_rows_search opts frame_prev frame_curr
                (w - 2 * border opts - 1) (h - 2 * border opts - 1)
                Hb ltac:(lia) ltac:(lia) ltac:(lia)
                (Z.to_nat (h - 2 * border opts - 1 - border opts))
                (Z.to_nat (h - 2 * border opts - 1 - border opts))
                (border opts)) as H.
  replace ((border opts - border opts) * linesize frame_prev) with 0 in H by lia.
  replace ((border opts - border opts) * linesize frame_curr) with 0 in H by lia.
  rewrite H by (unfold CInt.INT_MIN; lia).
  replace (w - 2 * border opts - 1 - border opts)
    with (w - 3 * border opts - 1) by lia.
  replace (h - 2 * border opts - 1 - border opts)
    with (h - 3 * border opts - 1) by lia.
  reflexivity.
Qed.

Lemma in_slots z o n : In z (slots o n) <-> o <= z < o + Z.of_nat n.
Proof.
  revert o. induction n as [|n IH]; intros o; cbn [slots In].
  - lia.
  - rewrite IH. lia.
Qed.

Lemma in_scan_region opts w h y x :
  In (y, x) (scan_region opts w h) <->
  exists c, x = 3 * c /\
            border opts <= y < h - 2 * border opts - 1 /\
            border opts <= c < w - 2 * border opts - 1.
Proof.
  unfold scan_region. rewrite in_flat_map. split.
  - intros (y' & Hy & Hin). apply in_map_iff in Hin.
    destruct Hin as (c & Heq & Hc).
    assert (Hy' : y' = y) by congruence.
    assert (Hx : x = 3 * c) by congruence.
    apply in_slots in Hy, Hc. exists c. lia.
  - intros (c & -> & Hy & Hc). exists y. split.
    + apply in_slots. lia.
    + apply in_map_iff. exists c. split; [reflexivity|].
      apply in_slots. lia.
Qed.

Lemma first_different_prefix f ps :
  (exists rest, ps = visited (first_different f ps) ++ rest) /\
  (verdict (first_different f ps) = Some false ->
   visited (first_different f ps) = ps).
Proof.
  induction ps as [|p ps [[rest IH1] IH2]]; cbn [first_different].
  - split; [exists []; reflexivity | reflexivity].
  - destruct (f p) as [[|]|]; cbn [verdict visited].
    + split; [exists ps; reflexivity | discriminate].
    + split.
      * exists rest. cbn. f_equal. exact IH1.
      * intros Hv. f_equal. apply IH2. exact Hv.
    + split; [exists ps; reflexivity | discriminate].
Qed.

(** X4.  [frames_differ] is a linear search over [scan_region]: it classifies
    the positions row by row, returns at the first block found different
    without looking at a later position, and answers "no difference"
    after the last one. *)
Theorem frames_differ_is_linear_search opts frame_prev frame_curr w h :
  0 <= border opts -> 6 * border opts + 3 <= CInt.INT_MAX ->
  0 <= w -> 3 * w <= CInt.INT_MAX -> 0 <= h <= CInt.INT_MAX ->
  frames_differ opts frame_prev frame_curr w h =
  first_different (block_at opts frame_prev frame_curr) (scan_region opts w h).
Proof. exact (frames_differ_is_linear_search_aux opts frame_prev frame_curr w h). Qed.




(** ** Frame differencer: reads stay inside the buffers *)

Lemma neighbourhoods_differ_in_bounds pbuf cbuf prev_t prev_n curr_t curr_n x :
  0 <= prev_t + x -> prev_t <= prev_n ->
  prev_n + x + 5 < Z.of_nat (length pbuf) ->
  0 <= curr_t + x -> curr_t <= curr_n ->
  curr_n + x + 5 < Z.of_nat (length cbuf) ->
  neighbourhoods_differ pbuf cbuf prev_t prev_n curr_t curr_n x <> None.
Proof.
  intros. unfold neighbourhoods_differ.
  destruct (pixel_difference_in_bounds pbuf (prev_t + x) cbuf (curr_t + x))
    as [tl ->]; try lia.
  destruct (pixel_difference_in_bounds pbuf (prev_t + x + 3) cbuf (curr_t + x + 3))
    as [tr ->]; try lia.
  destruct (pixel_difference_in_bounds pbuf (prev_n + x) cbuf (curr_n + x))
    as [bl ->]; try lia.
  destruct (pixel_difference_in_bounds pbuf (prev_n + x + 3) cbuf (curr_n + x + 3))
    as [br ->]; try lia.
  destruct (_ >? 3); discriminate.
Qed.

Lemma block_at_in_bounds opts frame_prev frame_curr w h y x :
  0 <= border opts ->
  frame_fits frame_prev w h -> frame_fits frame_curr w h ->
  In (y, x) (scan_region opts w h) ->
  block_at opts frame_prev frame_curr (y, x) <> None.
Proof.
  intros Hb [Hp1 Hp2] [Hc1 Hc2] Hin.
  apply in_scan_region in Hin. destruct Hin as (c & -> & Hy & Hc).
  unfold block_at. cbn [fst snd].
  apply neighbourhoods_differ_in_bounds; nia.
Qed.

Lemma first_different_defined f ps :
  (forall p, In p ps -> f p <> None) ->
  verdict (first_different f ps) <> None.
Proof.
  induction ps as [|p ps IH]; intros H; cbn [first_different].
  - discriminate.
  - pose proof (H p (or_introl eq_refl)) as Hp.
    destruct (f p) as [[|]|]; cbn [verdict]; try discriminate; try congruence.
    apply IH. intros q Hq. apply H. right. exact Hq.
Qed.


(** X3.  Two pictures that fit their buffers, with the same stride, whose
    channels all differ by at most 25 (a pixel difference of at most 75,
    under the tolerance of 76) are found "not different", for every border
    that is not negative: in particular a picture does not differ from
    itself. *)
Theorem frames_differ_tolerates_noise opts frame_prev frame_curr w h :
  0 <= border opts -> 6 * border opts + 3 <= CInt.INT_MAX ->
  0 <= w -> 3 * w <= CInt.INT_MAX -> 0 <= h <= CInt.INT_MAX ->
  frame_fits frame_prev w h -> frame_fits frame_curr w h ->
  linesize frame_prev = linesize frame_curr ->
  channels_within 25 (data frame_prev) (data frame_curr) ->
  verdict (frames_differ opts frame_prev frame_curr w h) = Some false.
Proof.
  intros Hb Hb6 Hw Hw3 Hh Hp Hc Hls Hclose.
  assert (Hdefined : verdict (frames_differ opts frame_prev frame_curr w h)
                     <> None).
  { rewrite frames_differ_is_linear_search_aux by assumption.
    apply first_different_defined.
    intros [y x] Hin. eapply block_at_in_bounds; eassumption. }
  assert (Hsame : verdict (frames_differ opts frame_prev frame_curr w h)
                  <> Some true).
  { unfold frames_differ. apply scan_rows_close; assumption. }
  destruct (verdict (frames_differ opts frame_prev frame_curr w h)) as [[|]|];
    congruence.
Qed.

(** ** Timeline reporter: the two times *)

Lemma int_remainder q d :
  0 <= q <= CInt.INT_MAX -> 0 < d ->
  q -i q / d *i d = q mod d.
Proof.
  intros Hq Hd.
  pose proof (Z.div_mod q d ltac:(lia)).
  pose proof (Z.mod_pos_bound q d Hd).
  pose proof (Z.div_pos q d ltac:(lia) Hd).
  assert (0 <= q / d * d <= q) by nia.
  int_simpl. lia.
Qed.

(** What [get_times] computes, on elapsed seconds [s1 <= s2] within the int
    range: hours are split off both times when the first has at least one,
    then minutes are split off both remainders when the first remainder
    has at least one. *)
Lemma get_times_value f1 f2 fps :
  0 <= f1 <= f2 -> 0 <= den fps -> 0 < num fps ->
  f2 * den fps <= CInt.INT_MAX ->
  let s1 := f1 * den fps / num fps in
  let s2 := f2 * den fps / num fps in
  let split_h := s1 / 3600 >? 0 in
  let r1 := if split_h then s1 mod 3600 else s1 in
  let r2 := if split_h then s2 mod 3600 else s2 in
  let split_m := r1 / 60 >? 0 in
  get_times f1 f2 fps =
  Ok ({| hours := if split_h then s1 / 3600 else 0;
         minutes := if split_m then r1 / 60 else 0;
         seconds := if split_m then r1 mod 60 else r1 |},
      {| hours := if split_h then s2 / 3600 else 0;
         minutes := if split_m then r2 / 60 else 0;
         seconds := if split_m then r2 mod 60 else r2 |}).
Proof.
  intros Hf Hd Hn Hfd. cbv zeta.
  assert (Hbound : forall f, 0 <= f <= f2 ->
            0 <= f * den fps / num fps <= CInt.INT_MAX /\
            f *i den fps /i num fps = f * den fps / num fps).
  { intros f Hle. assert (0 <= f * den fps <= CInt.INT_MAX) by nia.
    split.
    - split; [apply Z.div_pos; lia|].
      apply Z.le_trans with (f * den fps); [|lia].
      apply Z.div_le_upper_bound; nia.
    - replace (f *i den fps) with (f * den fps) by (int_simpl; reflexivity).
      apply div_nonneg; lia. }
  destruct (Hbound f1 ltac:(lia)) as [Hs1 E1].
  destruct (Hbound f2 ltac:(lia)) as [Hs2 E2].
  unfold get_times.
  destruct (Z.leb_spec f1 f2); [|lia].
  destruct (Z.eqb_spec (num fps) 0); [lia|].
  rewrite E1, E2. clear E1 E2 Hbound.
  generalize dependent (f1 * den fps / num fps). intros s1 Hs1.
  generalize dependent (f2 * den fps / num fps). intros s2 Hs2.
  change (60 * 60) with 3600.
  rewrite (div_nonneg s1 3600), (div_nonneg s2 3600) by lia.
  rewrite !int_remainder by lia.
  pose proof (Z.mod_pos_bound s1 3600 ltac:(lia)).
  pose proof (Z.mod_pos_bound s2 3600 ltac:(lia)).
  destruct (s1 / 3600 >? 0); cbv beta iota.
  - rewrite (div_nonneg (s1 mod 3600) 60), (div_nonneg (s2 mod 3600) 60)
      by (unfold CInt.INT_MAX; lia).
    rewrite !int_remainder by (unfold CInt.INT_MAX; lia).
    destruct (s1 mod 3600 / 60 >? 0); reflexivity.
  - rewrite (div_nonneg s1 60), (div_nonneg s2 60) by lia.
    rewrite !int_remainder by lia.
    destruct (s1 / 60 >? 0); reflexivity.
Qed.

(** X7.  Nothing is lost: for each of the two times, hours, minutes and seconds
    add up to the elapsed seconds [index * den / num], also when the
    seconds field is left above 59. *)
Theorem get_times_adds_up f1 f2 fps t1 t2 :
  0 <= f1 <= f2 -> 0 <= den fps -> 0 < num fps ->
  f2 * den fps <= CInt.INT_MAX ->
  get_times f1 f2 fps = Ok (t1, t2) ->
  hours t1 * 3600 + minutes t1 * 60 + seconds t1 = f1 * den fps / num fps /\
  hours t2 * 3600 + minutes t2 * 60 + seconds t2 = f2 * den fps / num fps.
Proof.
  intros Hf Hd Hn Hfd Hget.
  rewrite (get_times_value f1 f2 fps Hf Hd Hn Hfd) in Hget.
  cbv zeta in Hget. injection Hget as <- <-. cbn [hours minutes seconds].
  set (s1 := f1 * den fps / num fps). set (s2 := f2 * den fps / num fps).
  pose proof (Z.div_mod s1 3600 ltac:(lia)).
  pose proof (Z.div_mod s2 3600 ltac:(lia)).
  destruct (s1 / 3600 >? 0).
  - pose proof (Z.div_mod (s1 mod 3600) 60 ltac:(lia)).
    pose proof (Z.div_mod (s2 mod 3600) 60 ltac:(lia)).
    destruct (s1 mod 3600 / 60 >? 0); lia.
  - pose proof (Z.div_mod s1 60 ltac:(lia)).
    pose proof (Z.div_mod s2 60 ltac:(lia)).
    destruct (s1 / 60 >? 0); lia.
Qed.

(** X8.  The second time is decomposed like the first (hours, minutes below 60,
    seconds below 60) when the first time has reached the hour or the
    second has not, and the first has reached the minute within its hour
    or the second has not: for instance when both are equal. *)
Theorem get_times_second_time f1 f2 fps t1 t2 :
  0 <= f1 <= f2 -> 0 <= den fps -> 0 < num fps ->
  f2 * den fps <= CInt.INT_MAX ->
  get_times f1 f2 fps = Ok (t1, t2) ->
  let s1 := f1 * den fps / num fps in
  let s2 := f2 * den fps / num fps in
  (3600 <= s1 \/ s2 < 3600) ->
  (60 <= s1 mod 3600 \/ s2 mod 3600 < 60) ->
  hours t2 = s2 / 3600 /\
  minutes t2 = s2 mod 3600 / 60 /\
  seconds t2 = s2 mod 60.
Proof.
  intros Hf Hd Hn Hfd Hget s1 s2 Hh Hm.
  rewrite (get_times_value f1 f2 fps Hf Hd Hn Hfd) in Hget.
  cbv zeta in Hget. fold s1 s2 in Hget.
  injection Hget as <- <-. cbn [hours minutes seconds].
  assert (Hs1 : 0 <= s1) by (apply Z.div_pos; nia).
  assert (Hs2 : 0 <= s2) by (apply Z.div_pos; nia).
  assert (Hmm : forall s, (s mod 3600) mod 60 = s mod 60)
    by (intros s; apply Z.mod_mod_divide; exists 60; reflexivity).
  pose proof (Z.mod_pos_bound s1 3600 ltac:(lia)).
  pose proof (Z.mod_pos_bound s2 3600 ltac:(lia)).
  assert (Hsmall : forall s d, 0 <= s < d -> s / d = 0 /\ s mod d = s).
  { intros s d Hsd. split; [apply Z.div_small | apply Z.mod_small]; lia. }
  assert (Hbig : forall s d, 0 < d -> d <= s -> 0 < s / d).
  { intros s d Hd0 Hds. apply Z.div_str_pos. lia. }
  destruct (Z.gtb_spec (s1 / 3600) 0) as [G1|G1].
  - destruct (Z.gtb_spec (s1 mod 3600 / 60) 0) as [G2|G2].
    + rewrite Hmm. repeat split.
    + assert (s1 mod 3600 < 60).
      { destruct (Z_lt_ge_dec (s1 mod 3600) 60) as [|Hge]; [assumption|].
        pose proof (Hbig (s1 mod 3600) 60 ltac:(lia) ltac:(lia)). lia. }
      destruct Hm as [Hm|Hm]; [lia|].
      destruct (Hsmall (s2 mod 3600) 60 ltac:(lia)) as [Ed Em].
      rewrite <- Hmm, Ed, Em. repeat split.
  - assert (s1 < 3600).
    { destruct (Z_lt_ge_dec s1 3600) as [|Hge]; [assumption|].
      pose proof (Hbig s1 3600 ltac:(lia) ltac:(lia)). lia. }
    destruct Hh as [Hh|Hh]; [lia|].
    destruct (Hsmall s2 3600 ltac:(lia)) as [Ed2 Em2].
    destruct (Hsmall s1 3600 ltac:(lia)) as [Ed1 Em1].
    rewrite Em1, Em2 in *. rewrite Ed2.
    destruct (Z.gtb_spec (s1 / 60) 0) as [G2|G2].
    + repeat split.
    + assert (s1 < 60).
      { destruct (Z_lt_ge_dec s1 60) as [|Hge]; [assumption|].
        pose proof (Hbig s1 60 ltac:(lia) ltac:(lia)). lia. }
      destruct Hm as [Hm|Hm]; [lia|].
      destruct (Hsmall s2 60 ltac:(lia)) as [Ed Em].
      rewrite Ed, Em. repeat split.
Qed.

(** ** Splash injector: a failing link *)

Lemma links_app l1 l2 : links (l1 ++ l2) = links l1 ++ links l2.
Proof.
  induction l1 as [|e l1 IH]; [reflexivity|].
  destruct e; cbn; rewrite IH; reflexivity.
Qed.

Lemma splash_loop_stops link_ok lim k :
  link_ok k = false -> k < lim -> lim <= CInt.INT_MAX ->
  forall n fuel i,
    CInt.INT_MIN <= i -> n = Z.to_nat (k - i) -> i <= k ->
    (forall j, i <= j < k -> link_ok j = true) ->
    (n < fuel)%nat ->
    splash_loop fuel link_ok i lim =
    (Ok k, map EvLink (slots i (S n)) ++ [EvLog LOG_INFO MsgSplashCopyFailed]).
Proof.
  intros Hk Hklim Hlim. induction n as [|n IH]; intros fuel i Hi Hn Hik Hok Hfuel;
    (destruct fuel as [|fuel]; [lia|]); cbn [splash_loop];
    (destruct (Z.ltb_spec i lim); [|lia]).
  - assert (i = k) by lia. subst i. rewrite Hk. reflexivity.
  - rewrite (Hok i) by lia.
    replace (i +i 1) with (i + 1) by (int_simpl; reflexivity).
    rewrite (IH fuel (i + 1)); try lia.
    + reflexivity.
    + intros j Hj. apply Hok. lia.
Qed.

(** X9.  When the link of slot [k] is the first to fail, [dump_splash] stops
    there: it has tried the slots [0 .. k], logs the failure, and reports
    and returns [k], the number of slots that exist. *)
Theorem dump_splash_stops_at_failed_link opts link_ok fps k :
  0 <= splash opts -> 0 <= num fps -> 0 < den fps ->
  splash opts * num fps <= CInt.INT_MAX ->
  SECOND_IN_CS * den fps <= CInt.INT_MAX ->
  0 <= k < (splash opts * num fps) / (100 * den fps) ->
  (forall j, 0 <= j < k -> link_ok j = true) -> link_ok k = false ->
  dump_splash opts link_ok fps =
  (Ok k, map EvLink (slots 0 (S (Z.to_nat k)))
         ++ [EvLog LOG_INFO MsgSplashCopyFailed;
             EvLog LOG_INFO (MsgSplashFrames k)]).
Proof.
  intros Hs Hn Hd Hsn Hcd Hk Hok Hfail. unfold dump_splash.
  unfold SECOND_IN_CS in *.
  replace (100 *i den fps) with (100 * den fps) by (int_simpl; reflexivity).
  replace (splash opts *i num fps) with (splash opts * num fps)
    by (int_simpl; nia).
  destruct (Z.eqb_spec (100 * den fps) 0); [lia|].
  rewrite div_nonneg by nia.
  set (N := splash opts * num fps / (100 * den fps)) in *.
  assert (HN : N <= CInt.INT_MAX).
  { subst N. apply Z.le_trans with (splash opts * num fps); [|assumption].
    apply Z.div_le_upper_bound; nia. }
  rewrite (splash_loop_stops link_ok N k Hfail ltac:(lia) HN (Z.to_nat k));
    try (unfold CInt.INT_MIN; lia).
  - cbn [bind LOG emit ret]. rewrite <- app_assoc. reflexivity.
  - intros j Hj. apply Hok. lia.
Qed.

Lemma splash_loop_bounded link_ok lim :
  lim <= CInt.INT_MAX ->
  forall fuel i,
    CInt.INT_MIN <= i -> (Z.to_nat (lim - i) <= fuel)%nat ->
    exists r evs,
      splash_loop fuel link_ok i lim = (Ok r, evs) /\
      i <= r <= Z.max i lim /\
      (links evs = slots i (Z.to_nat (r - i)) \/
       (r < lim /\ links evs = slots i (S (Z.to_nat (r - i))))).
Proof.
  intros Hlim. induction fuel as [|fuel IH]; intros i Hi Hfuel;
    cbn [splash_loop]; destruct (Z.ltb_spec i lim) as [Hlt|Hge]; try lia.
  - exists i, []. replace (Z.to_nat (i - i)) with O by lia.
    split; [reflexivity|]. split; [lia|]. left. reflexivity.
  - destruct (link_ok i).
    + replace (i +i 1) with (i + 1) by (int_simpl; reflexivity).
      destruct (IH (i + 1)) as (r & evs & Hrun & Hr & Hl); try lia.
      exists r, (EvLink i :: evs). rewrite Hrun.
      split; [reflexivity|]. split; [lia|].
      cbn [links].
      destruct Hl as [Hl|[Hrl Hl]]; [left|right; split; [assumption|]];
        rewrite Hl;
        [replace (Z.to_nat (r - i)) with (S (Z.to_nat (r - (i + 1)))) by lia
        |replace (Z.to_nat (r - i)) with (S (Z.to_nat (r - (i + 1)))) by lia];
        reflexivity.
    + exists i, [EvLink i; EvLog LOG_INFO MsgSplashCopyFailed].
      split; [reflexivity|]. split; [lia|]. right.
      replace (Z.to_nat (i - i)) with O by lia. split; [assumption|reflexivity].
  - exists i, []. replace (Z.to_nat (i - i)) with O by lia.
    split; [reflexivity|]. split; [lia|]. left. reflexivity.
Qed.

Lemma dump_splash_bounded opts link_ok fps :
  0 <= splash opts -> 0 <= num fps -> 0 < den fps ->
  splash opts * num fps <= CInt.INT_MAX ->
  SECOND_IN_CS * den fps <= CInt.INT_MAX ->
  let N := (splash opts * num fps) / (100 * den fps) in
  exists r evs,
    dump_splash opts link_ok fps = (Ok r, evs) /\
    0 <= r <= N /\
    (links evs = slots 0 (Z.to_nat r) \/
     (r < N /\ links evs = slots 0 (S (Z.to_nat r)))).
Proof.
  intros Hs Hn Hd Hsn Hcd N. unfold dump_splash.
  unfold SECOND_IN_CS in *.
  replace (100 *i den fps) with (100 * den fps) by (int_simpl; reflexivity).
  replace (splash opts *i num fps) with (splash opts * num fps)
    by (int_simpl; nia).
  destruct (Z.eqb_spec (100 * den fps) 0); [lia|].
  rewrite div_nonneg by nia. fold N.
  assert (HN : 0 <= N <= CInt.INT_MAX).
  { subst N. split; [apply Z.div_pos; nia|].
    apply Z.le_trans with (splash opts * num fps); [|assumption].
    apply Z.div_le_upper_bound; nia. }
  destruct (splash_loop_bounded link_ok N ltac:(lia) (Z.to_nat N) 0)
    as (r & evs & Hrun & Hr & Hl); try (unfold CInt.INT_MIN; lia).
  rewrite Hrun. cbn [bind LOG emit ret].
  exists r, (evs ++ [EvLog LOG_INFO (MsgSplashFrames r)] ++ []).
  split; [reflexivity|]. split; [lia|].
  rewrite links_app. cbn [links app]. rewrite app_nil_r.
  replace (r - 0) with r in Hl by lia. exact Hl.
Qed.

(** X10.  Whatever the links do, [dump_splash] returns a count between 0 and
    [N = floor (D * num / (100 * den))], having tried the slots below it in
    order and at most the one failing slot more: never a slot beyond
    [N - 1], and none at all for a duration of 0. *)
Theorem dump_splash_within_duration opts link_ok fps :
  0 <= splash opts -> 0 <= num fps -> 0 < den fps ->
  splash opts * num fps <= CInt.INT_MAX ->
  SECOND_IN_CS * den fps <= CInt.INT_MAX ->
  let N := (splash opts * num fps) / (100 * den fps) in
  exists r evs,
    dump_splash opts link_ok fps = (Ok r, evs) /\
    0 <= r <= N /\
    (links evs = slots 0 (Z.to_nat r) \/
     (r < N /\ links evs = slots 0 (S (Z.to_nat r)))).
Proof. exact (dump_splash_bounded opts link_ok fps). Qed.

(** ** Read loop: what every run keeps *)

Lemma compares_app l1 l2 :
  compares (l1 ++ l2) = (compares l1 + compares l2)%nat.
Proof.
  induction l1 as [|e l1 IH]; [reflexivity|].
  destruct e; cbn; rewrite IH; reflexivity.
Qed.

Lemma log_skipped_quiet fps slack frames skip :
  writes (snd (log_skipped fps slack frames skip)) = [] /\
  compares (snd (log_skipped fps slack frames skip)) = O.
Proof.
  unfold log_skipped.
  destruct (get_times _ _ fps); split; reflexivity.
Qed.

(** The outcomes of handling one picture: it becomes the retained picture
    and is written; or the retained picture stays and is written again; or
    it stays and nothing is written; or the program stops, having written
    nothing for this picture. *)
Lemma handle_frame_cases opts fps w h slack st rgb :
  match handle_frame opts fps w h slack st rgb with
  | (Ok st', evs) =>
      frames st' = frames st +i 1 /\
      compares evs = (if frames st =? 0 then O else 1%nat) /\
      ((frame_prev st' = sws_scale rgb (frame_curr st) /\
        frame_curr st' = frame_prev st /\ skip st' = 0 /\
        writes evs = [(out_frames st, frame_prev st')] /\
        out_frames st' = out_frames st +i 1) \/
       (frames st <> 0 /\
        frame_prev st' = frame_prev st /\
        frame_curr st' = sws_scale rgb (frame_curr st) /\
        skip st' = skip st +i 1 /\
        ((skip st' <= slack /\
          writes evs = [(out_frames st, frame_prev st')] /\
          out_frames st' = out_frames st +i 1) \/
         (slack < skip st' /\ writes evs = [] /\
          out_frames st' = out_frames st))))
  | (_, evs) => writes evs = []
  end.
Proof.
  unfold handle_frame.
  assert (Hdiff :
    match
      (if skip st >? slack then log_skipped fps slack (frames st) (skip st)
       else ret tt)
    with
    | (_, l) => writes l = [] /\ compares l = O
    end).
  { destruct (skip st >? slack); [|split; reflexivity].
    pose proof (log_skipped_quiet fps slack (frames st) (skip st)) as Hq.
    destruct (log_skipped fps slack (frames st) (skip st)). exact Hq. }
  destruct (if skip st >? slack then _ else _) as [[[]| |] l] eqn:Hlog;
    destruct Hdiff as [Hw Hc].
  all: destruct (Z.eqb_spec (frames st) 0) as [H0|H0].
  all: try (destruct (verdict (frames_differ opts (frame_prev st)
                                 (sws_scale rgb (frame_curr st)) w h))
              as [[|]|] eqn:Hv).
  all: cbn -[log_skipped Z.gtb]; rewrite ?Hlog; cbn -[Z.gtb].
  all: rewrite ?app_nil_r, ?writes_app, ?compares_app, ?Hw, ?Hc;
       cbn -[Z.gtb]; try reflexivity.
  all: try (split; [reflexivity|split; [reflexivity|]]; left;
            repeat split; reflexivity).
  all: destruct (Z.gtb_spec (skip st +i 1) slack); cbn.
  all: split; [reflexivity|split; [reflexivity|]]; right;
       split; [assumption|]; repeat split; try reflexivity.
  all: first [ right; repeat split; solve [reflexivity | lia]
             | left; repeat split; solve [reflexivity | lia] ].
Qed.

Lemma bind_assoc {A B C} (m : M A) (f : A -> M B) (g : B -> M C) :
  bind (bind m f) g = bind m (fun a => bind (f a) g).
Proof.
  destruct m as [[a| |] l]; cbn; try reflexivity.
  destruct (f a) as [[b| |] l']; cbn; try reflexivity.
  destruct (g b). rewrite app_assoc. reflexivity.
Qed.

Lemma bind_ret_l {A B} (a : A) (k : A -> M B) : bind (ret a) k = k a.
Proof. cbn. destruct (k a). reflexivity. Qed.

(** X11.  Reading a list of packets in two parts, the second from the state the
    first one leaves, is reading the whole list, as long as the first part
    holds no decode error (which ends the loop). *)
Theorem read_loop_in_two_parts opts fps w h slack l1 l2 :
  Forall (fun p => p <> DecodeError) l1 ->
  forall st,
    read_loop opts fps w h slack st (l1 ++ l2) =
    (st' <- read_loop opts fps w h slack st l1 ;;
     read_loop opts fps w h slack st' l2).
Proof.
  induction 1 as [|p l1 Hp Hl1 IH]; intros st.
  - cbn [app read_loop]. rewrite bind_ret_l. reflexivity.
  - cbn [app read_loop]. destruct p as [| | |rgb].
    + rewrite bind_assoc. unfold LOG, emit. cbn [bind]. rewrite IH. reflexivity.
    + contradiction.
    + apply IH.
    + rewrite bind_assoc.
      destruct (handle_frame opts fps w h slack st rgb) as [[st'| |] l];
        cbn [bind]; try reflexivity.
      rewrite IH. reflexivity.
Qed.

(** The state reached, the files written and the skip ranges reported
    depend only on the pictures decoded before the first decode error. *)
Lemma read_loop_pictures_read opts fps w h slack pkts :
  forall st,
    let run := read_loop opts fps w h slack st pkts in
    let cut := read_loop opts fps w h slack st
                 (map Picture (pictures_read pkts)) in
    fst run = fst cut /\
    writes (snd run) = writes (snd cut) /\
    skip_reports (snd run) = skip_reports (snd cut).
Proof.
  induction pkts as [|p pkts IH]; intros st; cbv zeta.
  - repeat split.
  - destruct p as [| | |rgb]; cbn [pictures_read map read_loop].
    + destruct (IH st) as (H1 & H2 & H3). cbv zeta in *.
      unfold LOG, emit. cbn [bind].
      destruct (read_loop opts fps w h slack st pkts) as [r l].
      cbn [fst snd writes skip_reports app] in *. repeat split; assumption.
    + repeat split.
    + apply IH.
    + destruct (handle_frame opts fps w h slack st rgb) as [[st'| |] l];
        cbn [bind]; try (repeat split; reflexivity).
      destruct (IH st') as (H1 & H2 & H3). cbv zeta in *.
      destruct (read_loop opts fps w h slack st' pkts) as [r l1].
      destruct (read_loop opts fps w h slack st' (map Picture (pictures_read pkts)))
        as [r' l2].
      cbn [fst snd] in *. rewrite !writes_app, !skip_reports_app.
      repeat split; congruence.
Qed.

(** X12.  A decode error is handled like the end of the stream, and packets of
    other streams or without a frame like no packet at all: the result of
    [excise_boring_bits], the files it writes and the skip ranges it
    reports are those of the run on the pictures decoded before the first
    decode error. *)
Theorem run_depends_on_pictures_read
    opts fps w h buf_curr buf_prev link_ok pkts :
  let run := excise_boring_bits opts fps w h buf_curr buf_prev link_ok pkts in
  let cut := excise_boring_bits opts fps w h buf_curr buf_prev link_ok
               (map Picture (pictures_read pkts)) in
  fst run = fst cut /\
  writes (snd run) = writes (snd cut) /\
  skip_reports (snd run) = skip_reports (snd cut).
Proof.
  cbv zeta. unfold excise_boring_bits.
  destruct (lift (slack_frames opts fps)) as [[s| |] l0]; cbn [bind];
    try (repeat split; reflexivity).
  destruct (match splash_path opts with
            | Some _ => dump_splash opts link_ok fps
            | None => ret 0
            end) as [[o| |] l1]; cbn [bind]; try (repeat split; reflexivity).
  pose proof (read_loop_pictures_read opts fps w h s pkts
                {| frame_prev := buf_prev; frame_curr := buf_curr;
                   frames := 0; out_frames := o; skip := 0 |}) as H.
  cbv zeta in H. destruct H as (H1 & H2 & H3).
  destruct (read_loop opts fps w h s _ pkts) as [r la].
  destruct (read_loop opts fps w h s _ (map Picture (pictures_read pkts)))
    as [r' lb].
  cbn [fst snd] in *. subst r'.
  destruct r as [st| |]; cbn [bind fst snd].
  - destruct (report_totals fps st) as [rt lt]. cbn [fst snd].
    rewrite !writes_app, !skip_reports_app, H2, H3. repeat split.
  - rewrite !writes_app, !skip_reports_app, H2, H3. repeat split.
  - rewrite !writes_app, !skip_reports_app, H2, H3. repeat split.
Qed.

Lemma slots_length o n : length (slots o n) = n.
Proof. revert o. induction n as [|n IH]; intros o; cbn; [|rewrite IH]; reflexivity. Qed.

Lemma slots_app o n m :
  slots o (n + m) = slots o n ++ slots (o + Z.of_nat n) m.
Proof.
  revert o. induction n as [|n IH]; intros o.
  - cbn. f_equal. lia.
  - cbn [Nat.add slots app]. rewrite IH. do 3 f_equal. lia.
Qed.

(** Counters along a run: [k] counts the pictures read. *)
Lemma read_loop_counters opts fps w h slack pkts :
  forall st,
    let n := Z.of_nat (length (pictures_read pkts)) in
    CInt.INT_MIN <= out_frames st -> out_frames st + n <= CInt.INT_MAX ->
    CInt.INT_MIN <= frames st -> frames st + n <= CInt.INT_MAX ->
    match read_loop opts fps w h slack st pkts with
    | (r, evs) =>
        map fst (writes evs) = slots (out_frames st) (length (writes evs)) /\
        (length (writes evs) <= length (pictures_read pkts))%nat /\
        match r with
        | Ok st' =>
            frames st' = frames st + n /\
            out_frames st' = out_frames st + Z.of_nat (length (writes evs))
        | _ => True
        end
    end.
Proof.
  induction pkts as [|p pkts IH]; intros st; cbv zeta.
  - cbn. intros. repeat split; lia.
  - destruct p as [| | |rgb]; cbn [pictures_read read_loop length].
    + intros Ho Hon Hf Hfn. specialize (IH st Ho Hon Hf Hfn).
      unfold LOG, emit. cbn [bind].
      destruct (read_loop opts fps w h slack st pkts) as [r l].
      exact IH.
    + intros. cbn. repeat split; lia.
    + apply IH.
    + rewrite Nat2Z.inj_succ. intros Ho Hon Hf Hfn.
      pose proof (handle_frame_cases opts fps w h slack st rgb) as Hc.
      destruct (handle_frame opts fps w h slack st rgb) as [[st'| |] l];
        cbn [bind].
      2,3: rewrite Hc; cbn; repeat split; lia.
      destruct Hc as (Hfr & _ & Hc).
      replace (frames st +i 1) with (frames st + 1) in Hfr
        by (int_simpl; reflexivity).
      assert (Hstep : exists k : nat,
                (k <= 1)%nat /\ length (writes l) = k /\
                map fst (writes l) = slots (out_frames st) k /\
                out_frames st' = out_frames st + Z.of_nat k).
      { replace (out_frames st +i 1) with (out_frames st + 1) in Hc
          by (int_simpl; reflexivity).
        destruct Hc as [(_ & _ & _ & Hw & Ho')
                       |(_ & _ & _ & _ & [(_ & Hw & Ho')|(_ & Hw & Ho')])];
          rewrite Hw; [exists 1%nat|exists 1%nat|exists O];
          cbn; repeat split; lia. }
      destruct Hstep as (k & Hk & Hlen & Hmap & Ho').
      specialize (IH st' ltac:(lia) ltac:(lia) ltac:(lia) ltac:(lia)).
      destruct (read_loop opts fps w h slack st' pkts) as [r l'].
      destruct IH as (IH1 & IH2 & IH3).
      rewrite writes_app, map_app, length_app, slots_app, Hlen, Hmap, IH1, Ho'.
      split; [reflexivity|]. split; [lia|].
      destruct r as [st''| |]; try exact I.
      destruct IH3 as [IHf IHo]. split; lia.
Qed.

(** X13.  The output files are numbered without gap or repetition: the slots
    written by the read loop are consecutive from the value [out_frames]
    has when it starts, in the order they are written, and the counter ends
    one past the last. *)
Theorem output_slots_consecutive opts fps w h slack st pkts st' evs :
  CInt.INT_MIN <= out_frames st ->
  out_frames st + Z.of_nat (length (pictures_read pkts)) <= CInt.INT_MAX ->
  CInt.INT_MIN <= frames st ->
  frames st + Z.of_nat (length (pictures_read pkts)) <= CInt.INT_MAX ->
  read_loop opts fps w h slack st pkts = (Ok st', evs) ->
  map fst (writes evs) = slots (out_frames st) (length (writes evs)) /\
  out_frames st' = out_frames st + Z.of_nat (length (writes evs)).
Proof.
  intros Ho Hon Hf Hfn Hrun.
  pose proof (read_loop_counters opts fps w h slack pkts st Ho Hon Hf Hfn) as H.
  rewrite Hrun in H. destruct H as (H1 & _ & _ & H3). split; assumption.
Qed.

(** X14.  [frames] counts the pictures read, and no more files are written than
    pictures are read: the loop adds to [out_frames] at most what it adds
    to [frames]. *)
Theorem frames_counts_pictures_read opts fps w h slack st pkts st' evs :
  CInt.INT_MIN <= out_frames st ->
  out_frames st + Z.of_nat (length (pictures_read pkts)) <= CInt.INT_MAX ->
  CInt.INT_MIN <= frames st ->
  frames st + Z.of_nat (length (pictures_read pkts)) <= CInt.INT_MAX ->
  read_loop opts fps w h slack st pkts = (Ok st', evs) ->
  frames st' = frames st + Z.of_nat (length (pictures_read pkts)) /\
  out_frames st' - out_frames st <= frames st' - frames st.
Proof.
  intros Ho Hon Hf Hfn Hrun.
  pose proof (read_loop_counters opts fps w h slack pkts st Ho Hon Hf Hfn) as H.
  rewrite Hrun in H. destruct H as (_ & H2 & H3 & H4). split; lia.
Qed.

(** ** Read loop: what is written *)

Lemma read_loop_writes_known opts fps w h slack (known : list byte -> Prop) pkts :
  (forall rgb, In rgb (pictures_read pkts) -> known rgb) ->
  forall st,
    frames st = 0 \/ known (data (frame_prev st)) ->
    forall i f,
      In (i, f) (writes (snd (read_loop opts fps w h slack st pkts))) ->
      known (data f).
Proof.
  induction pkts as [|p pkts IH]; intros Hknown st Hst i f.
  - cbn. contradiction.
  - destruct p as [| | |rgb]; cbn [pictures_read read_loop] in *.
    + unfold LOG, emit. cbn [bind].
      destruct (read_loop opts fps w h slack st pkts) as [r l] eqn:E.
      cbn [snd app writes]. intros Hin.
      apply (IH Hknown st Hst i f). rewrite E. exact Hin.
    + cbn. contradiction.
    + apply IH; assumption.
    + pose proof (handle_frame_cases opts fps w h slack st rgb) as Hc.
      destruct (handle_frame opts fps w h slack st rgb) as [[st'| |] l];
        cbn [bind snd].
      2,3: rewrite Hc; contradiction.
      destruct Hc as (_ & _ & Hc).
      assert (Hprev : known (data (frame_prev st'))).
      { destruct Hc as [(Hp & _)|(H0 & Hp & _)]; rewrite Hp.
        - cbn. apply Hknown. left. reflexivity.
        - destruct Hst; [contradiction|assumption]. }
      assert (Hl : forall j g, In (j, g) (writes l) -> g = frame_prev st').
      { intros j g.
        destruct Hc as [(_ & _ & _ & Hw & _)
                       |(_ & _ & _ & _ & [(_ & Hw & _)|(_ & Hw & _)])];
          rewrite Hw; cbn; intuition congruence. }
      destruct (read_loop opts fps w h slack st' pkts) as [r l'] eqn:E.
      cbn [snd]. rewrite writes_app, in_app_iff. intros [Hin|Hin].
      * rewrite (Hl _ _ Hin). exact Hprev.
      * apply (IH (fun rgb' Hr => Hknown rgb' (or_intror Hr)) st'
                  (or_intror Hprev) i f).
        rewrite E. exact Hin.
Qed.

(** X15.  Every file written holds one of the pictures read from the stream:
    starting with [frames = 0], the contents the two buffers have before
    the first picture are never written. *)
Theorem writes_are_stream_pictures opts fps w h slack st pkts i f :
  frames st = 0 ->
  In (i, f) (writes (snd (read_loop opts fps w h slack st pkts))) ->
  In (data f) (pictures_read pkts).
Proof.
  intros H0 Hin.
  apply (read_loop_writes_known opts fps w h slack
           (fun rgb => In rgb (pictures_read pkts)) pkts
           (fun rgb Hr => Hr) st (or_introl H0) i f Hin).
Qed.

(** ** Read loop: assertions and comparisons *)

Lemma log_skipped_never_asserts fps slack frames skip :
  0 <= slack < skip -> skip <= CInt.INT_MAX -> 0 <= frames <= CInt.INT_MAX ->
  fst (log_skipped fps slack frames skip) <> AssertFailed.
Proof.
  intros Hs Hk Hf. unfold log_skipped.
  replace (frames -i (skip -i slack)) with (frames - (skip - slack))
    by (int_simpl; reflexivity).
  unfold get_times.
  destruct (Z.leb_spec (frames - (skip - slack)) frames); [|lia].
  destruct (num fps =? 0); [cbn; discriminate|].
  destruct (_ >? 0); destruct (_ >? 0); cbn; discriminate.
Qed.

Lemma handle_frame_never_asserts opts fps w h slack st rgb :
  0 <= slack -> 0 <= frames st <= CInt.INT_MAX ->
  0 <= skip st <= CInt.INT_MAX ->
  fst (handle_frame opts fps w h slack st rgb) <> AssertFailed.
Proof.
  intros Hs Hf Hk. unfold handle_frame.
  assert (Hlog :
    fst (if skip st >? slack then log_skipped fps slack (frames st) (skip st)
         else ret tt) <> AssertFailed).
  { destruct (Z.gtb_spec (skip st) slack); [|cbn; discriminate].
    apply log_skipped_never_asserts; lia. }
  destruct (if skip st >? slack then _ else _) as [[[]| |] l] eqn:Hrun;
    cbn [fst] in Hlog; try congruence.
  all: destruct (frames st =? 0).
  all: try (destruct (verdict (frames_differ opts (frame_prev st)
                                 (sws_scale rgb (frame_curr st)) w h))
              as [[|]|]).
  all: cbn -[log_skipped Z.gtb]; rewrite ?Hrun; cbn -[Z.gtb];
       try discriminate.
  all: destruct (skip st +i 1 >? slack); cbn; discriminate.
Qed.

(** X16.  The read loop never fails an assertion: the range passed to
    [get_times] when a skip is logged always has [f1 <= f2].  (Counters are
    taken not to overflow and the slack not to be negative.) *)
Theorem read_loop_never_asserts opts fps w h slack st pkts :
  0 <= slack -> 0 <= frames st -> 0 <= skip st ->
  frames st + Z.of_nat (length (pictures_read pkts)) <= CInt.INT_MAX ->
  skip st + Z.of_nat (length (pictures_read pkts)) <= CInt.INT_MAX ->
  fst (read_loop opts fps w h slack st pkts) <> AssertFailed.
Proof.
  intros Hs. revert st.
  induction pkts as [|p pkts IH]; intros st Hf Hk Hfn Hkn.
  - cbn. discriminate.
  - destruct p as [| | |rgb]; cbn [pictures_read read_loop length] in *.
    + unfold LOG, emit. cbn [bind].
      specialize (IH st Hf Hk Hfn Hkn).
      destruct (read_loop opts fps w h slack st pkts). exact IH.
    + cbn. discriminate.
    + apply IH; assumption.
    + rewrite Nat2Z.inj_succ in *.
      pose proof (handle_frame_never_asserts opts fps w h slack st rgb Hs
                    ltac:(lia) ltac:(lia)) as Hna.
      pose proof (handle_frame_cases opts fps w h slack st rgb) as Hc.
      destruct (handle_frame opts fps w h slack st rgb) as [[st'| |] l];
        cbn [bind fst] in *; try congruence; try discriminate.
      destruct Hc as (Hfr & _ & Hc).
      replace (frames st +i 1) with (frames st + 1) in Hfr
        by (int_simpl; reflexivity).
      replace (skip st +i 1) with (skip st + 1) in Hc
        by (int_simpl; reflexivity).
      assert (Hk' : 0 <= skip st' <= skip st + 1).
      { destruct Hc as [(_ & _ & Hk' & _)|(_ & _ & _ & Hk' & _)]; lia. }
      specialize (IH st' ltac:(lia) ltac:(lia) ltac:(lia) ltac:(lia)).
      destruct (read_loop opts fps w h slack st' pkts). exact IH.
Qed.

Lemma read_loop_compares opts fps w h slack pkts :
  forall st st' evs,
    0 <= frames st ->
    frames st + Z.of_nat (length (pictures_read pkts)) <= CInt.INT_MAX ->
    read_loop opts fps w h slack st pkts = (Ok st', evs) ->
    compares evs =
    if frames st =? 0 then pred (length (pictures_read pkts))
    else length (pictures_read pkts).
Proof.
  induction pkts as [|p pkts IH]; intros st st' evs Hf Hfn.
  - cbn. intros [= <- <-]. destruct (frames st =? 0); reflexivity.
  - destruct p as [| | |rgb]; cbn [pictures_read read_loop length] in *.
    + unfold LOG, emit. cbn [bind].
      destruct (read_loop opts fps w h slack st pkts) as [r l] eqn:E.
      intros [= -> <-]. cbn [app compares]. apply (IH st st' l Hf Hfn E).
    + cbn. intros [= <- <-]. destruct (frames st =? 0); reflexivity.
    + apply IH; assumption.
    + rewrite Nat2Z.inj_succ in *.
      pose proof (handle_frame_cases opts fps w h slack st rgb) as Hc.
      destruct (handle_frame opts fps w h slack st rgb) as [[st1| |] l];
        cbn [bind]; try discriminate.
      destruct Hc as (Hfr & Hcmp & _).
      replace (frames st +i 1) with (frames st + 1) in Hfr
        by (int_simpl; reflexivity).
      destruct (read_loop opts fps w h slack st1 pkts) as [r l'] eqn:E.
      intros [= -> <-]. rewrite compares_app, Hcmp.
      rewrite (IH st1 st' l' ltac:(lia) ltac:(lia) E).
      destruct (Z.eqb_spec (frames st1) 0); [lia|].
      destruct (frames st =? 0); cbn; lia.
Qed.

(** X17.  The frame differencer is called once for every picture read after the
    first, and not for the first. *)
Theorem one_comparison_per_later_picture opts fps w h slack st pkts st' evs :
  frames st = 0 ->
  Z.of_nat (length (pictures_read pkts)) <= CInt.INT_MAX ->
  read_loop opts fps w h slack st pkts = (Ok st', evs) ->
  compares evs = pred (length (pictures_read pkts)).
Proof.
  intros H0 Hn Hrun.
  rewrite (read_loop_compares opts fps w h slack pkts st st' evs
             ltac:(lia) ltac:(lia) Hrun).
  rewrite H0. reflexivity.
Qed.

(** ** Output file names *)

Lemma digit_char_ok d :
  0 <= d <= 9 -> isdigit (digit_char d) = true /\ digit_value (digit_char d) = d.
Proof.
  intros Hd.
  assert (H : d = 0 \/ d = 1 \/ d = 2 \/ d = 3 \/ d = 4 \/ d = 5 \/ d = 6 \/
              d = 7 \/ d = 8 \/ d = 9) by lia.
  repeat (destruct H as [->|H]; [split; reflexivity|]).
  subst d. split; reflexivity.
Qed.

Lemma decimal_digits_spec fuel :
  forall n, 0 <= n < 10 ^ Z.of_nat fuel ->
    digits_value (decimal_digits fuel n) 0 = n /\
    Forall (fun d => 0 <= d <= 9) (decimal_digits fuel n).
Proof.
  induction fuel as [|fuel IH]; intros n Hn.
  - cbn in Hn. split; [cbn; lia|constructor].
  - cbn [decimal_digits]. destruct (Z.ltb_spec n 10) as [Hlt|Hge].
    + split; [reflexivity|]. constructor; [lia|constructor].
    + rewrite Nat2Z.inj_succ, Z.pow_succ_r in Hn by lia.
      destruct (IH (n / 10)) as [Hv Hd].
      { split; [apply Z.div_pos; lia|].
        apply Z.div_lt_upper_bound; lia. }
      pose proof (Z.div_mod n 10 ltac:(lia)).
      pose proof (Z.mod_pos_bound n 10 ltac:(lia)).
      split.
      * unfold digits_value in *. rewrite fold_left_app, Hv. cbn. lia.
      * apply Forall_app. split; [exact Hd|]. constructor; [lia|constructor].
Qed.

Lemma decimal_digits_length fuel :
  forall n k, 0 <= n < 10 ^ Z.of_nat k -> (1 <= k <= fuel)%nat ->
    (1 <= length (decimal_digits fuel n) <= k)%nat.
Proof.
  induction fuel as [|fuel IH]; intros n k Hn Hk; [lia|].
  cbn [decimal_digits]. destruct (Z.ltb_spec n 10) as [Hlt|Hge].
  - cbn. lia.
  - destruct k as [|k]; [lia|].
    rewrite Nat2Z.inj_succ, Z.pow_succ_r in Hn by lia.
    destruct k as [|k]; [cbn in Hn; lia|].
    rewrite length_app. cbn [length].
    destruct (IH (n / 10) (S k)) as [H1 H2]; [|lia|lia].
    split; [apply Z.div_pos; lia|].
    apply Z.div_lt_upper_bound; lia.
Qed.

Lemma numeral_of_digits ds rest :
  Forall (fun d => 0 <= d <= 9) ds ->
  forall acc,
    numeral (string_of_digits ds ++ rest)%string acc =
    numeral rest (digits_value ds acc).
Proof.
  induction 1 as [|d ds Hd Hds IH]; intros acc; [reflexivity|].
  cbn [string_of_digits String.append numeral digits_value fold_left].
  destruct (digit_char_ok d Hd) as [-> ->]. apply IH.
Qed.

Lemma digits_value_zeros k ds : digits_value (repeat 0 k ++ ds) 0 = digits_value ds 0.
Proof. induction k as [|k IH]; [reflexivity|]. cbn. exact IH. Qed.

Lemma Forall_zeros k : Forall (fun d => 0 <= d <= 9) (repeat 0 k).
Proof. induction k; cbn; constructor; [lia|assumption]. Qed.

(** Reading back the number printed into a file name gives the index. *)
Lemma numeral_format_08i i rest :
  0 <= i <= CInt.INT_MAX ->
  (forall acc, numeral rest acc = acc) ->
  numeral (format_08i i ++ rest)%string 0 = i.
Proof.
  intros Hi Hrest. unfold format_08i.
  destruct (Z.ltb_spec i 0); [lia|].
  rewrite Z.abs_eq by lia.
  destruct (decimal_digits_spec 10 i) as [Hv Hd].
  { change (10 ^ Z.of_nat 10) with 10000000000.
    unfold CInt.INT_MAX in Hi. lia. }
  rewrite numeral_of_digits.
  - rewrite Hrest, digits_value_zeros. exact Hv.
  - apply Forall_app. split; [apply Forall_zeros|exact Hd].
Qed.

Lemma append_cancel_l (a x y : string) :
  (a ++ x = a ++ y)%string -> x = y.
Proof.
  induction a as [|c a IH]; cbn; [auto|].
  intros [= H]. apply IH. exact H.
Qed.

(** X18.  Two different indices never give the same file name: a file written
    for one output slot is not overwritten by the file of another. *)
Theorem output_file_injective opts i j :
  0 <= i <= CInt.INT_MAX -> 0 <= j <= CInt.INT_MAX ->
  output_file opts i = output_file opts j -> i = j.
Proof.
  intros Hi Hj Heq. unfold output_file in Heq.
  apply append_cancel_l in Heq.
  assert (Hpng : forall acc, numeral ".png" acc = acc) by reflexivity.
  rewrite <- (numeral_format_08i i ".png" Hi Hpng).
  rewrite <- (numeral_format_08i j ".png" Hj Hpng).
  rewrite Heq. reflexivity.
Qed.

Lemma substring_prefix (a b : string) :
  substring 0 (String.length a) (a ++ b) = a.
Proof.
  induction a as [|c a IH]; cbn.
  - destruct b; reflexivity.
  - rewrite IH. reflexivity.
Qed.

Lemma substring_suffix (a b : string) :
  substring (String.length a) (String.length b) (a ++ b) = b.
Proof.
  induction a as [|c a IH]; cbn; [|exact IH].
  induction b as [|c b IHb]; cbn; [reflexivity|].
  rewrite IHb. reflexivity.
Qed.

Lemma length_append (a b : string) :
  String.length (a ++ b) = (String.length a + String.length b)%nat.
Proof. induction a as [|c a IH]; cbn; [|rewrite IH]; reflexivity. Qed.

Lemma string_of_digits_length ds :
  String.length (string_of_digits ds) = length ds.
Proof. induction ds as [|d ds IH]; cbn; [|rewrite IH]; reflexivity. Qed.

Lemma all_digits_string_of_digits ds :
  Forall (fun d => 0 <= d <= 9) ds -> all_digits (string_of_digits ds) = true.
Proof.
  induction 1 as [|d ds Hd Hds IH]; [reflexivity|].
  cbn [string_of_digits all_digits].
  destruct (digit_char_ok d Hd) as [-> _]. exact IH.
Qed.

(** X19.  With an output path [stem.png], the files are named [stem], a number
    of exactly eight characters, all of them decimal digits, whose value is
    the index, and [.png], as long as the index is below [10^8]: the names
    match the pattern [stem%08d.png]. *)
Theorem output_file_pattern opts stem i :
  stem <> EmptyString ->
  output_path opts = (stem ++ ".png")%string ->
  0 <= i < 100000000 ->
  exists number,
    output_file opts i = (stem ++ number ++ ".png")%string /\
    String.length number = 8%nat /\
    all_digits number = true /\
    numeral number 0 = i.
Proof.
  intros Hstem Hpath Hi. unfold output_file. rewrite Hpath.
  assert (Hlen : path_len (stem ++ ".png") = String.length stem).
  { unfold path_len. rewrite length_append.
    change (String.length ".png") with 4%nat.
    replace (String.length stem + 4 - 4)%nat with (String.length stem) by lia.
    pose proof (substring_suffix stem ".png") as Hsuf.
    change (String.length ".png") with 4%nat in Hsuf. rewrite Hsuf.
    destruct stem as [|c stem]; [contradiction|].
    cbn [String.length]. destruct (Nat.ltb_spec 4 (S (String.length stem) + 4));
      [reflexivity|lia]. }
  rewrite Hlen, substring_prefix.
  exists (format_08i i). split; [reflexivity|]. split; [|split].
  - unfold format_08i. destruct (Z.ltb_spec i 0); [lia|].
    rewrite Z.abs_eq by lia.
    rewrite string_of_digits_length, length_app, repeat_length.
    destruct (decimal_digits_length 10 i 8) as [H1 H2]; [|lia|lia].
    change (10 ^ Z.of_nat 8) with 100000000. lia.
  - unfold format_08i. destruct (Z.ltb_spec i 0); [lia|].
    rewrite Z.abs_eq by lia.
    apply all_digits_string_of_digits. apply Forall_app.
    split; [apply Forall_zeros|].
    apply (decimal_digits_spec 10 i).
    change (10 ^ Z.of_nat 10) with 10000000000. lia.
  - pose proof (numeral_format_08i i EmptyString) as H.
    assert (format_08i i ++ "" = format_08i i)%string as E.
    { generalize (format_08i i). intros s.
      induction s as [|c s IH]; cbn; [|rewrite IH]; reflexivity. }
    rewrite E in H. apply H; [unfold CInt.INT_MAX; lia|reflexivity].
Qed.

(** ** The command line *)

Lemma numeral_nonneg s : forall acc, 0 <= acc -> 0 <= numeral s acc.
Proof.
  induction s as [|c s IH]; intros acc Hacc; cbn [numeral]; [assumption|].
  destruct (isdigit c) eqn:Hc; [|assumption].
  apply IH. unfold isdigit in Hc. unfold digit_value.
  apply andb_true_iff in Hc. destruct Hc as [Hc _].
  apply Z.leb_le in Hc. lia.
Qed.

Lemma atoi_nonneg s : numeral s 0 <= CInt.INT_MAX -> 0 <= atoi s.
Proof.
  intros H. pose proof (numeral_nonneg s 0 ltac:(lia)).
  unfold atoi, LONG_MAX. unfold CInt.INT_MAX in H.
  rewrite Z.min_l by lia.
  rewrite wrap_id; [assumption|].
  unfold CInt.in_range, CInt.INT_MIN, CInt.INT_MAX. lia.
Qed.

Lemma handle_args_not_negative n :
  forall args argc o o',
    (length args <= n)%nat ->
    Forall (fun a => numeral a 0 <= CInt.INT_MAX) args ->
    0 <= Cli.border o /\ 0 <= Cli.slack o /\ 0 <= Cli.splash o ->
    Cli.handle_args argc args o = Cli.Go o' ->
    0 <= Cli.border o' /\ 0 <= Cli.slack o' /\ 0 <= Cli.splash o'.
Proof.
  induction n as [|n IH]; intros args argc o o' Hlen Hfit Ho;
    destruct args as [|arg rest]; cbn [length] in Hlen; try lia;
    cbn [Cli.handle_args].
  - intros [= <-]. exact Ho.
  - intros [= <-]. exact Ho.
  - inversion Hfit as [|? ? _ Hrest]; subst.
    assert (Hval : forall value rest' v o1,
              rest = value :: rest' ->
              0 <= Cli.border o1 /\ 0 <= Cli.slack o1 /\ 0 <= Cli.splash o1 ->
              Cli.handle_args argc rest' o1 = Cli.Go v ->
              0 <= Cli.border v /\ 0 <= Cli.slack v /\ 0 <= Cli.splash v).
    { intros value rest' v o1 -> Ho1. cbn [length] in Hlen.
      inversion Hrest; subst. apply IH; [lia|assumption|assumption]. }
    assert (Hatoi : forall value rest', rest = value :: rest' -> 0 <= atoi value).
    { intros value rest' ->. inversion Hrest; subst. apply atoi_nonneg. assumption. }
    repeat match goal with
           | |- context [if ?b then _ else _] => destruct b
           end;
      try discriminate;
      try (apply IH; [lia|assumption|cbn; tauto]);
      try (destruct rest as [|value rest'];
           [intros [= <-]; exact Ho|];
           destruct (Cli.starts_with_digit value); [|discriminate];
           apply (Hval value rest' o' _ eq_refl); cbn;
           pose proof (Hatoi value rest' eq_refl); tauto).
Qed.

(** X20.  When [main] goes on to process the video, the border, the slack and
    the splash time it has set are not negative: a value has to start with
    a digit to be accepted.  (No numeric argument is taken to exceed the
    int range.) *)
Theorem cli_numbers_not_negative argv o :
  Forall (fun a => numeral a 0 <= CInt.INT_MAX) argv ->
  Cli.prepare argv = Cli.Go o ->
  0 <= Cli.border o /\ 0 <= Cli.slack o /\ 0 <= Cli.splash o.
Proof.
  intros Hfit. unfold Cli.prepare.
  destruct (Z.of_nat (length argv) <? 3); [discriminate|].
  apply (handle_args_not_negative (length (tl argv))); [lia| |].
  - destruct argv; [constructor|]. inversion Hfit; assumption.
  - cbn. unfold BORDER, SLACK_TIME_CS, SPLASH_TIME_CS. lia.
Qed.

Lemma flag_true arg short long :
  Cli.flag arg short long = true -> arg = short \/ arg = long.
Proof.
  unfold Cli.flag. intros H. apply orb_true_iff in H.
  destruct H as [H|H]; apply String.eqb_eq in H; auto.
Qed.

Lemma handle_args_stop n :
  forall args argc o code out,
    (length args <= n)%nat ->
    Cli.handle_args argc args o = Cli.Stop code out ->
    (code = Cli.EXIT_SUCCESS /\ out = [Cli.Usage] /\
     (In "-h"%string args \/ In "--help"%string args)) \/
    (code = Cli.EXIT_FAILURE /\ (out = [Cli.Usage] \/ out = [Cli.BadArg])).
Proof.
  induction n as [|n IH]; intros args argc o code out Hlen;
    destruct args as [|arg rest]; cbn [length] in Hlen; try lia;
    cbn [Cli.handle_args]; try discriminate.
  assert (Hrec : forall args' o1,
            (length args' <= n)%nat ->
            (forall a, In a args' -> In a rest) ->
            Cli.handle_args argc args' o1 = Cli.Stop code out ->
            (code = Cli.EXIT_SUCCESS /\ out = [Cli.Usage] /\
             (In "-h"%string (arg :: rest) \/ In "--help"%string (arg :: rest))) \/
            (code = Cli.EXIT_FAILURE /\ (out = [Cli.Usage] \/ out = [Cli.BadArg]))).
  { intros args' o1 Hl Hsub Hrun.
    destruct (IH args' argc o1 code out Hl Hrun) as [(Hc & Ho & Hin)|Hf];
      [left|right; exact Hf].
    split; [assumption|]. split; [assumption|].
    destruct Hin as [Hin|Hin]; [left|right]; right; apply Hsub; exact Hin. }
  destruct (Cli.dashed arg).
  - destruct (Cli.flag arg "-h" "--help") eqn:Hhelp.
    + intros [= <- <-]. left. split; [reflexivity|]. split; [reflexivity|].
      apply flag_true in Hhelp. destruct Hhelp as [->| ->];
        [left|right]; left; reflexivity.
    + repeat match goal with
             | |- context [if ?b then _ else _] => destruct b
             end;
        try (apply Hrec; [lia|auto]);
        try (destruct rest as [|value rest']; [discriminate|];
             destruct (Cli.starts_with_digit value);
             [apply Hrec; [cbn [length] in Hlen; lia|intros a Ha; right; exact Ha]
             |intros [= <- <-]; right; split; [reflexivity|right; reflexivity]]).
  - destruct (Cli.input_path o), (Cli.output_path o), (Cli.splash_path o);
      try (apply Hrec; [lia|auto]).
    intros [= <- <-]. right. split; [reflexivity|left; reflexivity].
Qed.

(** X21.  [main] returns without processing anything only in these ways: with
    success after printing the usage text, and then a help option is among
    the arguments; or with failure, after the usage text or "Bad arg". *)
Theorem cli_stops_only_for_help_or_error argv code out :
  Cli.prepare argv = Cli.Stop code out ->
  (code = Cli.EXIT_SUCCESS /\ out = [Cli.Usage] /\
   (In "-h"%string (tl argv) \/ In "--help"%string (tl argv))) \/
  (code = Cli.EXIT_FAILURE /\ (out = [Cli.Usage] \/ out = [Cli.BadArg])).
Proof.
  unfold Cli.prepare.
  destruct (Z.of_nat (length argv) <? 3).
  - intros [= <- <-]. right. split; [reflexivity|left; reflexivity].
  - intros Hrun.
    exact (handle_args_stop (length (tl argv)) (tl argv) _ _ code out
             ltac:(lia) Hrun).
Qed.

(** ** What a run prints *)

Lemma printed_app level l1 l2 :
  printed level (l1 ++ l2) = printed level l1 ++ printed level l2.
Proof.
  induction l1 as [|e l1 IH]; [reflexivity|].
  destruct e as [lev m| | |]; cbn [app printed]; try exact IH.
  destruct (level_rank level <=? level_rank lev); cbn [app]; congruence.
Qed.

Lemma log_skipped_silent level fps slack frames skip :
  2 <= level_rank level ->
  printed level (snd (log_skipped fps slack frames skip)) = [].
Proof.
  intros Hl. unfold log_skipped.
  destruct (get_times _ _ fps) as [t| |]; cbn; try reflexivity.
  destruct (Z.leb_spec (level_rank level) 1); [lia|reflexivity].
Qed.

Lemma handle_frame_silent level opts fps w h slack st rgb :
  2 <= level_rank level ->
  printed level (snd (handle_frame opts fps w h slack st rgb)) = [].
Proof.
  intros Hl. unfold handle_frame.
  assert (Hdiff :
    printed level
      (snd (if skip st >? slack then log_skipped fps slack (frames st) (skip st)
            else ret tt)) = []).
  { destruct (skip st >? slack); [|reflexivity].
    apply log_skipped_silent. exact Hl. }
  destruct (if skip st >? slack then _ else _) as [[[]| |] l] eqn:Hlog;
    cbn [snd] in Hdiff.
  all: destruct (Z.eqb_spec (frames st) 0) as [H0|H0].
  all: try (destruct (verdict (frames_differ opts (frame_prev st)
                                 (sws_scale rgb (frame_curr st)) w h))
              as [[|]|] eqn:Hv).
  all: cbn -[log_skipped Z.gtb]; rewrite ?Hlog; cbn -[Z.gtb].
  all: try destruct (skip st +i 1 >? slack); cbn.
  all: rewrite ?app_nil_r, ?printed_app, ?Hdiff.
  all: destruct (Z.leb_spec (level_rank level) 0); try lia; try reflexivity.
Qed.

Lemma read_loop_printed level opts fps w h slack pkts :
  level = LOG_RESULT \/ level = LOG_WARNING ->
  forall st st' evs,
    read_loop opts fps w h slack st pkts = (Ok st', evs) ->
    printed level evs = if decode_fails pkts then [MsgDecodeFailed] else [].
Proof.
  intros Hl.
  assert (Hr : 2 <= level_rank level) by (destruct Hl; subst; cbn; lia).
  induction pkts as [|p pkts IH]; intros st st' evs; cbn [read_loop].
  - intros [= <- <-]. reflexivity.
  - destruct p as [| | |rgb]; cbn [decode_fails existsb orb].
    + unfold LOG, emit. cbn [bind].
      destruct (read_loop opts fps w h slack st pkts) as [[s| |] l] eqn:Hrun;
        intros [= <- <-].
      cbn [app printed]. destruct (Z.leb_spec (level_rank level) (level_rank LOG_DEBUG));
        [cbn in *; lia|]. apply (IH st s). exact Hrun.
    + cbn. intros [= <- <-]. destruct Hl; subst; reflexivity.
    + apply IH.
    + pose proof (handle_frame_silent level opts fps w h slack st rgb Hr) as Hq.
      destruct (handle_frame opts fps w h slack st rgb) as [[s| |] l];
        cbn [bind snd] in *; try discriminate.
      destruct (read_loop opts fps w h slack s pkts) as [[s2| |] l2] eqn:Hrun;
        intros [= <- <-].
      rewrite printed_app, Hq. cbn [app]. apply (IH s s2). exact Hrun.
Qed.

Lemma splash_loop_silent level link_ok lim fuel :
  2 <= level_rank level ->
  forall i, printed level (snd (splash_loop fuel link_ok i lim)) = [].
Proof.
  intros Hl. induction fuel as [|fuel IH]; intros i; cbn [splash_loop].
  - destruct (i <? lim); reflexivity.
  - destruct (i <? lim); [|reflexivity].
    unfold emit. cbn [bind].
    destruct (link_ok i).
    + specialize (IH (i +i 1)).
      destruct (splash_loop fuel link_ok (i +i 1) lim) as [r l].
      cbn [snd app printed] in *. exact IH.
    + cbn. destruct (Z.leb_spec (level_rank level) 1); [lia|reflexivity].
Qed.

Lemma dump_splash_silent level opts link_ok fps :
  2 <= level_rank level ->
  printed level (snd (dump_splash opts link_ok fps)) = [].
Proof.
  intros Hl. unfold dump_splash.
  destruct (SECOND_IN_CS *i den fps =? 0); [reflexivity|].
  pose proof (splash_loop_silent level link_ok
                (splash opts *i num fps /i (SECOND_IN_CS *i den fps))
                (Z.to_nat (splash opts *i num fps /i (SECOND_IN_CS *i den fps)))
                Hl 0) as Hq.
  destruct (splash_loop _ link_ok 0 _) as [[i| |] l]; cbn [bind snd] in *;
    try exact Hq.
  cbn. rewrite printed_app, Hq. cbn.
  destruct (Z.leb_spec (level_rank level) 1); [lia|reflexivity].
Qed.

Lemma excise_boring_bits_printed level opts fps w h buf_curr buf_prev link_ok pkts b evs :
  level = LOG_RESULT \/ level = LOG_WARNING ->
  excise_boring_bits opts fps w h buf_curr buf_prev link_ok pkts = (Ok b, evs) ->
  exists n_in n_out t1 t2,
    printed level evs =
    (if decode_fails pkts then [MsgDecodeFailed] else [])
      ++ printed level [EvLog LOG_RESULT (MsgTotalFrames n_in n_out);
                        EvLog LOG_RESULT (MsgTotalTimes t1 t2)].
Proof.
  intros Hl.
  assert (Hr : 2 <= level_rank level) by (destruct Hl; subst; cbn; lia).
  unfold excise_boring_bits.
  destruct (slack_frames opts fps) as [slack| |]; cbn [lift bind]; try discriminate.
  assert (Hsplash :
    printed level
      (snd (match splash_path opts with
            | Some _ => dump_splash opts link_ok fps
            | None => ret 0
            end)) = []).
  { destruct (splash_path opts); [|reflexivity].
    apply dump_splash_silent. exact Hr. }
  destruct (match splash_path opts with Some _ => _ | None => _ end)
    as [[o| |] l0]; cbn [bind snd] in *; try discriminate.
  destruct (read_loop opts fps w h slack _ pkts) as [[st| |] l1] eqn:Hloop;
    cbn [bind]; try discriminate.
  apply (read_loop_printed level opts fps w h slack pkts Hl) in Hloop.
  unfold report_totals.
  destruct (get_times (frames st) (out_frames st) fps) as [t| |];
    cbn [lift bind]; try discriminate.
  unfold LOG, emit, ret. cbn [bind app]. intros [= <- <-].
  exists (frames st), (out_frames st), (fst t), (snd t).
  rewrite !printed_app, Hsplash, Hloop. reflexivity.
Qed.

(** X22.  At the default level, a run of [excise_boring_bits] that completes
    prints the two parts of the totals line and nothing else, apart from
    the decode warning before it when a packet failed to decode: no
    per-frame line, no skip range and no splash count. *)
Theorem default_run_prints_totals opts fps w h buf_curr buf_prev link_ok pkts b evs :
  excise_boring_bits opts fps w h buf_curr buf_prev link_ok pkts = (Ok b, evs) ->
  exists n_in n_out t1 t2,
    printed LOG_RESULT evs =
    (if decode_fails pkts then [MsgDecodeFailed] else [])
      ++ [MsgTotalFrames n_in n_out; MsgTotalTimes t1 t2].
Proof.
  intros Hrun.
  apply (excise_boring_bits_printed LOG_RESULT) in Hrun; [|left; reflexivity].
  exact Hrun.
Qed.

(** X23.  Under [--quiet] (level [LOG_WARNING]) a run of [excise_boring_bits]
    that completes prints nothing, not even the totals, unless a packet
    failed to decode: then the decode warning is all it prints. *)
Theorem quiet_run_prints_only_decode_warning
    opts fps w h buf_curr buf_prev link_ok pkts b evs :
  excise_boring_bits opts fps w h buf_curr buf_prev link_ok pkts = (Ok b, evs) ->
  printed LOG_WARNING evs = if decode_fails pkts then [MsgDecodeFailed] else [].
Proof.
  intros Hrun.
  apply (excise_boring_bits_printed LOG_WARNING) in Hrun; [|right; reflexivity].
  destruct Hrun as (n_in & n_out & t1 & t2 & ->).
  cbn. apply app_nil_r.
Qed.

(** ** The driver *)

(** X24.  [main] exits with success in two cases only: a help option was met
    before any bad argument; or the input was opened, a video stream and
    its decoder were found, and then either [excise_boring_bits] returned
    true or the decoder could not be opened: in that last case the
    negative code of [avcodec_open2] is returned as a [bool], which is
    true, and no frame has been processed. *)
Theorem main_exit_success_iff argv lib excise :
  fst (Driver.main argv lib excise) = Ok Cli.EXIT_SUCCESS <->
  (exists out, Cli.prepare argv = Cli.Stop Cli.EXIT_SUCCESS out) \/
  (exists o, Cli.prepare argv = Cli.Go o /\
     0 <= Driver.avformat_open_input lib /\
     0 <= Driver.av_find_best_stream lib /\
     Driver.avcodec_find_decoder lib = true /\
     (Driver.avcodec_open2 lib < 0 \/ fst (excise o) = Ok true)).
Proof.
  unfold Driver.main.
  destruct (Cli.prepare argv) as [code out|o]; cbn [fst].
  - split.
    + intros [= ->]. left. exists out. reflexivity.
    + intros [[out' [= -> _]]|(o & [=] & _)]. reflexivity.
  - unfold Driver.excise_boring_bits_wrapper, Driver.bool_of_int.
    destruct (Z.ltb_spec (Driver.avformat_open_input lib) 0) as [Ho|Ho];
      [cbn; split; [discriminate|intros [[out [=]]|(o' & _ & ? & _)]; lia]|].
    destruct (Z.ltb_spec (Driver.av_find_best_stream lib) 0) as [Hs|Hs];
      [cbn; split; [discriminate|intros [[out [=]]|(o' & _ & _ & ? & _)]; lia]|].
    destruct (Driver.avcodec_find_decoder lib); cbn [negb];
      [|cbn; split; [discriminate
                    |intros [[out [=]]|(o' & _ & _ & _ & ? & _)]; discriminate]].
    destruct (Z.ltb_spec (Driver.avcodec_open2 lib) 0) as [Hc|Hc].
    + destruct (Z.eqb_spec (Driver.avcodec_open2 lib) 0); [lia|]. cbn.
      split; [|reflexivity].
      intros _. right. exists o. repeat split; try assumption. left. exact Hc.
    + split.
      * intros Hrun. right. exists o. repeat split; try assumption. right.
        destruct (excise o) as [[[|]| |] evs]; cbn in Hrun |- *;
          solve [reflexivity | discriminate].
      * intros [[out [=]]|(o' & [= <-] & _ & _ & _ & [?|Hx])]; [lia|].
        destruct (excise o) as [[[|]| |] evs]; cbn in Hx |- *;
          solve [reflexivity | discriminate].
Qed.

(** ** The properties at sample inputs *)

Lemma frames_differ_tolerates_noise_witness :
  verdict (frames_differ (Sample.plain 0) Example.black2 Example.dim2 2 2)
    = Some false.
Proof.
  apply (frames_differ_tolerates_noise (Sample.plain 0)
           Example.black2 Example.dim2 2 2).
  - cbn. lia.
  - cbn. unfold CInt.INT_MAX. lia.
  - lia.
  - unfold CInt.INT_MAX. lia.
  - unfold CInt.INT_MAX. lia.
  - unfold frame_fits. cbn. lia.
  - unfold frame_fits. cbn. lia.
  - reflexivity.
  - unfold channels_within. cbn. repeat constructor; cbn; lia.
Defined.

Lemma frames_differ_is_linear_search_witness :
  frames_differ Sample.bordered (Sample.frame6 Sample.dark)
    (Sample.frame6 (Sample.block 2 2)) 6 6 =
  first_different
    (block_at Sample.bordered (Sample.frame6 Sample.dark)
       (Sample.frame6 (Sample.block 2 2)))
    (scan_region Sample.bordered 6 6).
Proof.
  apply (frames_differ_is_linear_search Sample.bordered
           (Sample.frame6 Sample.dark) (Sample.frame6 (Sample.block 2 2)) 6 6);
    cbn; unfold CInt.INT_MAX; lia.
Defined.



Lemma get_times_first_time_witness :
  let s := 3725 * den Sample.fps_1 / num Sample.fps_1 in
  hours {| hours := 1; minutes := 2; seconds := 5 |} = s / 3600 /\
  minutes {| hours := 1; minutes := 2; seconds := 5 |} = s mod 3600 / 60 /\
  seconds {| hours := 1; minutes := 2; seconds := 5 |} = s mod 60 /\
  0 <= seconds {| hours := 1; minutes := 2; seconds := 5 |} < 60.
Proof.
  apply (get_times_first_time 3725 7300 Sample.fps_1
           {| hours := 1; minutes := 2; seconds := 5 |}
           {| hours := 2; minutes := 1; seconds := 40 |}).
  - lia.
  - cbn. lia.
  - cbn. lia.
  - cbn. unfold CInt.INT_MAX. lia.
  - reflexivity.
Defined.

Lemma get_times_adds_up_witness :
  hours {| hours := 0; minutes := 1; seconds := 15 |} * 3600
    + minutes {| hours := 0; minutes := 1; seconds := 15 |} * 60
    + seconds {| hours := 0; minutes := 1; seconds := 15 |}
    = 75 * den Sample.fps_1 / num Sample.fps_1 /\
  hours {| hours := 0; minutes := 61; seconds := 0 |} * 3600
    + minutes {| hours := 0; minutes := 61; seconds := 0 |} * 60
    + seconds {| hours := 0; minutes := 61; seconds := 0 |}
    = 3660 * den Sample.fps_1 / num Sample.fps_1.
Proof.
  apply (get_times_adds_up 75 3660 Sample.fps_1
           {| hours := 0; minutes := 1; seconds := 15 |}
           {| hours := 0; minutes := 61; seconds := 0 |}).
  - lia.
  - cbn. lia.
  - cbn. lia.
  - cbn. unfold CInt.INT_MAX. lia.
  - reflexivity.
Defined.

Lemma get_times_second_time_witness :
  hours {| hours := 2; minutes := 1; seconds := 40 |}
    = 7300 * den Sample.fps_1 / num Sample.fps_1 / 3600 /\
  minutes {| hours := 2; minutes := 1; seconds := 40 |}
    = (7300 * den Sample.fps_1 / num Sample.fps_1) mod 3600 / 60 /\
  seconds {| hours := 2; minutes := 1; seconds := 40 |}
    = (7300 * den Sample.fps_1 / num Sample.fps_1) mod 60.
Proof.
  apply (get_times_second_time 3725 7300 Sample.fps_1
           {| hours := 1; minutes := 2; seconds := 5 |}
           {| hours := 2; minutes := 1; seconds := 40 |}).
  - lia.
  - cbn. lia.
  - cbn. lia.
  - cbn. unfold CInt.INT_MAX. lia.
  - reflexivity.
  - left. cbn. lia.
  - left. cbn. lia.
Defined.

Lemma dump_splash_stops_at_failed_link_witness :
  dump_splash (Sample.with_splash 0) Example.first_only Sample.fps_1 =
  (Ok 1, map EvLink (slots 0 (S (Z.to_nat 1)))
         ++ [EvLog LOG_INFO MsgSplashCopyFailed;
             EvLog LOG_INFO (MsgSplashFrames 1)]).
Proof.
  apply (dump_splash_stops_at_failed_link (Sample.with_splash 0)
           Example.first_only Sample.fps_1 1).
  - cbn. unfold SPLASH_TIME_CS. lia.
  - cbn. lia.
  - cbn. lia.
  - cbn. unfold SPLASH_TIME_CS, CInt.INT_MAX. lia.
  - cbn. unfold SECOND_IN_CS, CInt.INT_MAX. lia.
  - cbn. lia.
  - intros j Hj. assert (j = 0) as -> by lia. reflexivity.
  - reflexivity.
Defined.

Lemma dump_splash_within_duration_witness :
  let N := (splash Sample.long_splash * num Sample.fps_1)
             / (100 * den Sample.fps_1) in
  exists r evs,
    dump_splash Sample.long_splash Example.first_only Sample.fps_1 = (Ok r, evs) /\
    0 <= r <= N /\
    (links evs = slots 0 (Z.to_nat r) \/
     (r < N /\ links evs = slots 0 (S (Z.to_nat r)))).
Proof.
  apply (dump_splash_within_duration Sample.long_splash Example.first_only
           Sample.fps_1).
  - cbn. lia.
  - cbn. lia.
  - cbn. lia.
  - cbn. unfold CInt.INT_MAX. lia.
  - cbn. unfold SECOND_IN_CS, CInt.INT_MAX. lia.
Defined.

Lemma read_loop_in_two_parts_witness :
  read_loop (Sample.plain 0) Sample.fps_1 2 2 0 (Sample.start 0)
    ([Picture Sample.white; NotVideo] ++ [DecodeError; Picture Sample.black]) =
  (st' <- read_loop (Sample.plain 0) Sample.fps_1 2 2 0 (Sample.start 0)
            [Picture Sample.white; NotVideo] ;;
   read_loop (Sample.plain 0) Sample.fps_1 2 2 0 st'
     [DecodeError; Picture Sample.black]).
Proof.
  apply (read_loop_in_two_parts (Sample.plain 0) Sample.fps_1 2 2 0
           [Picture Sample.white; NotVideo] [DecodeError; Picture Sample.black]).
  repeat constructor; discriminate.
Defined.

Lemma output_slots_consecutive_witness :
  map fst (writes (snd (Example.loop Example.stream))) =
    slots (out_frames (Sample.start 0))
      (length (writes (snd (Example.loop Example.stream)))) /\
  out_frames (Example.final (Example.loop Example.stream)) =
    out_frames (Sample.start 0)
    + Z.of_nat (length (writes (snd (Example.loop Example.stream)))).
Proof.
  apply (output_slots_consecutive (Sample.plain 0) Sample.fps_1 2 2 0
           (Sample.start 0) Example.stream
           (Example.final (Example.loop Example.stream))
           (snd (Example.loop Example.stream))).
  - cbn. unfold CInt.INT_MIN. lia.
  - cbn. unfold CInt.INT_MAX. lia.
  - cbn. unfold CInt.INT_MIN. lia.
  - cbn. unfold CInt.INT_MAX. lia.
  - reflexivity.
Defined.

Lemma frames_counts_pictures_read_witness :
  frames (Example.final (Example.loop Example.stream)) =
    frames (Sample.start 0)
    + Z.of_nat (length (pictures_read Example.stream)) /\
  out_frames (Example.final (Example.loop Example.stream))
    - out_frames (Sample.start 0)
  <= frames (Example.final (Example.loop Example.stream))
     - frames (Sample.start 0).
Proof.
  apply (frames_counts_pictures_read (Sample.plain 0) Sample.fps_1 2 2 0
           (Sample.start 0) Example.stream
           (Example.final (Example.loop Example.stream))
           (snd (Example.loop Example.stream))).
  - cbn. unfold CInt.INT_MIN. lia.
  - cbn. unfold CInt.INT_MAX. lia.
  - cbn. unfold CInt.INT_MIN. lia.
  - cbn. unfold CInt.INT_MAX. lia.
  - reflexivity.
Defined.

Lemma writes_are_stream_pictures_witness :
  In (data (sws_scale Sample.black Sample.slot2)) (pictures_read Example.stream).
Proof.
  apply (writes_are_stream_pictures (Sample.plain 0) Sample.fps_1 2 2 0
           (Sample.start 0) Example.stream 1
           (sws_scale Sample.black Sample.slot2)).
  - reflexivity.
  - vm_compute. right. left. reflexivity.
Defined.

Lemma read_loop_never_asserts_witness :
  fst (read_loop (Sample.plain 0) Sample.fps_1 2 2 0 Sample.after_pause
         Example.stream) <> AssertFailed.
Proof.
  apply (read_loop_never_asserts (Sample.plain 0) Sample.fps_1 2 2 0
           Sample.after_pause Example.stream).
  - lia.
  - cbn. lia.
  - cbn. lia.
  - cbn. unfold CInt.INT_MAX. lia.
  - cbn. unfold CInt.INT_MAX. lia.
Defined.

Lemma one_comparison_per_later_picture_witness :
  compares (snd (Example.loop Example.stream)) =
  pred (length (pictures_read Example.stream)).
Proof.
  apply (one_comparison_per_later_picture (Sample.plain 0) Sample.fps_1 2 2 0
           (Sample.start 0) Example.stream
           (Example.final (Example.loop Example.stream))
           (snd (Example.loop Example.stream))).
  - reflexivity.
  - cbn. unfold CInt.INT_MAX. lia.
  - reflexivity.
Defined.

Lemma output_file_injective_witness : 41 + 1 = 42.
Proof.
  apply (output_file_injective (Sample.plain 0) (41 + 1) 42).
  - unfold CInt.INT_MAX. lia.
  - unfold CInt.INT_MAX. lia.
  - reflexivity.
Defined.

Lemma output_file_pattern_witness :
  exists number,
    output_file (Sample.plain 0) 42 = ("out/frame" ++ number ++ ".png")%string /\
    String.length number = 8%nat /\
    all_digits number = true /\
    numeral number 0 = 42.
Proof.
  apply (output_file_pattern (Sample.plain 0) "out/frame" 42).
  - discriminate.
  - reflexivity.
  - lia.
Defined.

Lemma cli_numbers_not_negative_witness :
  0 <= Cli.border (Cli.set_output
                     (Cli.set_input
                        (Cli.set_level (Cli.set_border Cli.initial 7) LOG_WARNING)
                        "in.mkv") "out/frame.png") /\
  0 <= Cli.slack (Cli.set_output
                    (Cli.set_input
                       (Cli.set_level (Cli.set_border Cli.initial 7) LOG_WARNING)
                       "in.mkv") "out/frame.png") /\
  0 <= Cli.splash (Cli.set_output
                     (Cli.set_input
                        (Cli.set_level (Cli.set_border Cli.initial 7) LOG_WARNING)
                        "in.mkv") "out/frame.png").
Proof.
  apply (cli_numbers_not_negative Example.argv_border).
  - unfold Example.argv_border. repeat constructor; vm_compute; discriminate.
  - reflexivity.
Defined.

Lemma cli_stops_only_for_help_or_error_witness :
  (Cli.EXIT_SUCCESS = Cli.EXIT_SUCCESS /\ [Cli.Usage] = [Cli.Usage] /\
   (In "-h"%string (tl Example.argv_help) \/
    In "--help"%string (tl Example.argv_help))) \/
  (Cli.EXIT_SUCCESS = Cli.EXIT_FAILURE /\
   ([Cli.Usage] = [Cli.Usage] \/ [Cli.Usage] = [Cli.BadArg])).
Proof.
  apply (cli_stops_only_for_help_or_error Example.argv_help).
  reflexivity.
Defined.

Lemma default_run_prints_totals_witness :
  exists n_in n_out t1 t2,
    printed LOG_RESULT
      (snd (Example.short_run
              [Picture Sample.white; Picture Sample.black; DecodeError])) =
    (if decode_fails [Picture Sample.white; Picture Sample.black; DecodeError]
     then [MsgDecodeFailed] else [])
      ++ [MsgTotalFrames n_in n_out; MsgTotalTimes t1 t2].
Proof.
  apply (default_run_prints_totals (Sample.plain 100) Sample.fps_1 2 2
           Sample.slot2 Sample.slot2 Sample.always
           [Picture Sample.white; Picture Sample.black; DecodeError] true).
  reflexivity.
Defined.

Lemma quiet_run_prints_only_decode_warning_witness :
  printed LOG_WARNING
    (snd (Example.short_run [Picture Sample.white; NotVideo; Picture Sample.white])) =
  if decode_fails [Picture Sample.white; NotVideo; Picture Sample.white]
  then [MsgDecodeFailed] else [].
Proof.
  apply (quiet_run_prints_only_decode_warning (Sample.plain 100) Sample.fps_1 2 2
           Sample.slot2 Sample.slot2 Sample.always
           [Picture Sample.white; NotVideo; Picture Sample.white] true).
  reflexivity.
Defined.

(** ** Dropped frames and skip reports *)

Lemma frames_reported_app l1 l2 :
  frames_reported (l1 ++ l2) = frames_reported l1 + frames_reported l2.
Proof.
  unfold frames_reported.
  induction l1 as [|r l1 IH]; cbn [app fold_right]; [reflexivity|].
  rewrite IH. lia.
Qed.

Lemma handle_frame_accounting opts fps w h slack st rgb st' evs :
  0 <= slack -> 0 <= frames st < CInt.INT_MAX -> 0 <= skip st < CInt.INT_MAX ->
  handle_frame opts fps w h slack st rgb = (Ok st', evs) ->
  1 - Z.of_nat (length (writes evs)) + pending slack st =
    frames_reported (skip_reports evs) + pending slack st' /\
  0 <= skip st' <= skip st + 1 /\
  frames st' = frames st + 1.
Proof.
  intros Hs Hf Hk. unfold handle_frame, pending.
  assert (Hlog :
    match (if skip st >? slack then log_skipped fps slack (frames st) (skip st)
           else ret tt) with
    | (Ok _, l) =>
        writes l = [] /\
        frames_reported (skip_reports l) = Z.max 0 (skip st - slack)
    | _ => True
    end).
  { destruct (Z.gtb_spec (skip st) slack).
    - unfold log_skipped.
      replace (frames st -i (skip st -i slack))
        with (frames st - (skip st - slack)) by (int_simpl; reflexivity).
      destruct (get_times _ _ fps); cbn; try exact I. split; [reflexivity|lia].
    - cbn. split; [reflexivity|lia]. }
  destruct (if skip st >? slack then _ else _) as [[[]| |] l] eqn:Hrun.
  all: destruct (frames st =? 0).
  all: try (destruct (verdict (frames_differ opts (frame_prev st)
                                 (sws_scale rgb (frame_curr st)) w h))
              as [[|]|]).
  all: cbn -[log_skipped Z.gtb Z.max Z.of_nat Z.sub Z.add frames_reported
             skip_reports writes length];
       rewrite ?Hrun;
       cbn -[Z.gtb Z.max Z.of_nat Z.sub Z.add frames_reported
             skip_reports writes length];
       try discriminate.
  all: replace (skip st +i 1) with (skip st + 1) by (int_simpl; reflexivity).
  all: replace (frames st +i 1) with (frames st + 1) by (int_simpl; reflexivity).
  all: try destruct (Z.gtb_spec (skip st + 1) slack).
  all: cbn -[Z.max Z.of_nat Z.sub Z.add frames_reported skip_reports writes length].
  all: intros [= <- <-]; cbn [skip frames].
  all: try match type of Hlog with _ /\ _ => destruct Hlog as [Hw Hr] end.
  all: repeat first [ progress cbn [writes skip_reports length app]
                    | rewrite app_nil_r | rewrite writes_app
                    | rewrite skip_reports_app | rewrite frames_reported_app
                    | rewrite Hw | rewrite Hr ].
  all: unfold frames_reported; cbn [fold_right length]; lia.
Qed.

Lemma read_loop_accounting opts fps w h slack pkts :
  0 <= slack ->
  forall st st' evs,
    let n := Z.of_nat (length (pictures_read pkts)) in
    0 <= frames st -> frames st + n <= CInt.INT_MAX ->
    0 <= skip st -> skip st + n <= CInt.INT_MAX ->
    read_loop opts fps w h slack st pkts = (Ok st', evs) ->
    frames st' = frames st + n /\
    n - Z.of_nat (length (writes evs)) + pending slack st =
      frames_reported (skip_reports evs) + pending slack st'.
Proof.
  intros Hs. induction pkts as [|p pkts IH]; intros st st' evs; cbv zeta.
  - cbn. intros _ _ _ _ [= <- <-]. cbn. split; lia.
  - destruct p as [| | |rgb]; cbn [pictures_read read_loop length].
    + intros Hf Hfn Hk Hkn. unfold LOG, emit. cbn [bind].
      destruct (read_loop opts fps w h slack st pkts) as [[s| |] l] eqn:Hrun;
        intros [= <- <-].
      cbn [app writes skip_reports]. apply (IH st s l); assumption.
    + intros _ _ _ _. cbn. intros [= <- <-]. cbn. split; lia.
    + apply IH.
    + rewrite Nat2Z.inj_succ. intros Hf Hfn Hk Hkn.
      destruct (handle_frame opts fps w h slack st rgb) as [[s| |] l] eqn:Hstep;
        cbn [bind]; try discriminate.
      destruct (handle_frame_accounting opts fps w h slack st rgb s l)
        as (Hacc & Hsk & Hfr); try assumption; try lia.
      destruct (read_loop opts fps w h slack s pkts) as [[s2| |] l2] eqn:Hrun;
        intros [= <- <-].
      destruct (IH s s2 l2) as [IHf IHa]; try assumption; try lia.
      rewrite writes_app, skip_reports_app, frames_reported_app, length_app,
        Nat2Z.inj_add.
      split; lia.
Qed.

(** X25.  Every dropped picture is accounted for: when the read loop ends, the
    pictures read and not written are as many as the frames the reported
    skip ranges span ([f2 - f1] for each range), plus those dropped in a
    pause that is still open, which no report covers. *)
Theorem dropped_frames_reported_or_pending opts fps w h slack st pkts st' evs :
  0 <= slack -> frames st = 0 -> skip st = 0 ->
  Z.of_nat (length (pictures_read pkts)) <= CInt.INT_MAX ->
  read_loop opts fps w h slack st pkts = (Ok st', evs) ->
  frames st' - Z.of_nat (length (writes evs)) =
  frames_reported (skip_reports evs) + pending slack st'.
Proof.
  intros Hs Hf Hk Hn Hrun.
  destruct (read_loop_accounting opts fps w h slack pkts Hs st st' evs)
    as [Hfr Hacc]; try assumption; try lia.
  unfold pending in Hacc at 1. rewrite Hk in Hacc. lia.
Qed.

Lemma dropped_frames_reported_or_pending_witness :
  frames (Example.final (Example.loop Example.pauses))
    - Z.of_nat (length (writes (snd (Example.loop Example.pauses)))) =
  frames_reported (skip_reports (snd (Example.loop Example.pauses)))
    + pending 0 (Example.final (Example.loop Example.pauses)).
Proof.
  apply (dropped_frames_reported_or_pending (Sample.plain 0) Sample.fps_1 2 2 0
           (Sample.start 0) Example.pauses
           (Example.final (Example.loop Example.pauses))
           (snd (Example.loop Example.pauses))).
  - lia.
  - reflexivity.
  - reflexivity.
  - cbn. unfold CInt.INT_MAX. lia.
  - reflexivity.
Defined.

(** ** The numbering of a whole run *)

Lemma splash_loop_no_writes link_ok lim fuel :
  forall i, writes (snd (splash_loop fuel link_ok i lim)) = [].
Proof.
  induction fuel as [|fuel IH]; intros i; cbn [splash_loop].
  - destruct (i <? lim); reflexivity.
  - destruct (i <? lim); [|reflexivity].
    unfold emit. cbn [bind].
    destruct (link_ok i); [|reflexivity].
    specialize (IH (i +i 1)).
    destruct (splash_loop fuel link_ok (i +i 1) lim) as [r l].
    cbn [snd app writes] in *. exact IH.
Qed.

Lemma dump_splash_no_writes opts link_ok fps :
  writes (snd (dump_splash opts link_ok fps)) = [].
Proof.
  unfold dump_splash.
  destruct (SECOND_IN_CS *i den fps =? 0); [reflexivity|].
  pose proof (splash_loop_no_writes link_ok
                (splash opts *i num fps /i (SECOND_IN_CS *i den fps))
                (Z.to_nat (splash opts *i num fps /i (SECOND_IN_CS *i den fps)))
                0) as Hq.
  destruct (splash_loop _ link_ok 0 _) as [[i| |] l]; cbn [bind snd] in *;
    try exact Hq.
  cbn. rewrite writes_app, Hq. reflexivity.
Qed.

Lemma handle_frame_no_links opts fps w h slack st rgb :
  links (snd (handle_frame opts fps w h slack st rgb)) = [].
Proof.
  unfold handle_frame.
  assert (Hdiff :
    links
      (snd (if skip st >? slack then log_skipped fps slack (frames st) (skip st)
            else ret tt)) = []).
  { destruct (skip st >? slack); [|reflexivity].
    unfold log_skipped. destruct (get_times _ _ fps); reflexivity. }
  destruct (if skip st >? slack then _ else _) as [[[]| |] l] eqn:Hlog;
    cbn [snd] in Hdiff.
  all: destruct (Z.eqb_spec (frames st) 0) as [H0|H0].
  all: try (destruct (verdict (frames_differ opts (frame_prev st)
                                 (sws_scale rgb (frame_curr st)) w h))
              as [[|]|] eqn:Hv).
  all: cbn -[log_skipped Z.gtb]; rewrite ?Hlog; cbn -[Z.gtb].
  all: try destruct (skip st +i 1 >? slack); cbn.
  all: rewrite ?app_nil_r, ?links_app, ?Hdiff; reflexivity.
Qed.

Lemma read_loop_no_links opts fps w h slack pkts :
  forall st, links (snd (read_loop opts fps w h slack st pkts)) = [].
Proof.
  induction pkts as [|p pkts IH]; intros st; cbn [read_loop]; [reflexivity|].
  destruct p as [| | |rgb].
  - unfold LOG, emit. cbn [bind]. specialize (IH st).
    destruct (read_loop opts fps w h slack st pkts) as [r l]. exact IH.
  - reflexivity.
  - apply IH.
  - pose proof (handle_frame_no_links opts fps w h slack st rgb) as Hq.
    destruct (handle_frame opts fps w h slack st rgb) as [[s| |] l];
      cbn [bind snd] in *; try exact Hq.
    specialize (IH s).
    destruct (read_loop opts fps w h slack s pkts) as [r l2].
    cbn [snd] in *. rewrite links_app, Hq, IH. reflexivity.
Qed.

(** X26.  The files of a whole run are numbered without gap: the splash links
    take the slots from 0, and the pictures written follow consecutively
    from the count [N] that [dump_splash] returns.  When a link fails, its
    slot [N] is the one the first picture is written to; without a splash
    image nothing is linked and the pictures start at 0. *)
Theorem run_files_numbered_after_splash
    opts fps w h buf_curr buf_prev link_ok pkts b evs :
  0 <= splash opts -> 0 <= num fps -> 0 < den fps ->
  splash opts * num fps <= CInt.INT_MAX ->
  SECOND_IN_CS * den fps <= CInt.INT_MAX ->
  (splash opts * num fps) / (100 * den fps)
    + Z.of_nat (length (pictures_read pkts)) <= CInt.INT_MAX ->
  excise_boring_bits opts fps w h buf_curr buf_prev link_ok pkts = (Ok b, evs) ->
  exists N,
    0 <= N <= (splash opts * num fps) / (100 * den fps) /\
    (links evs = slots 0 (Z.to_nat N) \/ links evs = slots 0 (S (Z.to_nat N))) /\
    (splash_path opts = None -> links evs = []) /\
    map fst (writes evs) = slots N (length (writes evs)).
Proof.
  intros Hs Hn Hd Hsn Hcd Hfit.
  assert (HN : 0 <= (splash opts * num fps) / (100 * den fps))
    by (apply Z.div_pos; nia).
  unfold excise_boring_bits.
  destruct (slack_frames opts fps) as [slack| |]; cbn [lift bind]; try discriminate.
  assert (Hsplash :
    match (match splash_path opts with
           | Some _ => dump_splash opts link_ok fps
           | None => ret 0
           end) with
    | (Ok o, l0) =>
        0 <= o <= (splash opts * num fps) / (100 * den fps) /\
        writes l0 = [] /\
        (links l0 = slots 0 (Z.to_nat o) \/ links l0 = slots 0 (S (Z.to_nat o))) /\
        (splash_path opts = None -> links l0 = [])
    | _ => True
    end).
  { destruct (splash_path opts) as [path|].
    - destruct (dump_splash_bounded opts link_ok fps Hs Hn Hd Hsn Hcd)
        as (r & l0 & Hrun & Hr & Hl).
      pose proof (dump_splash_no_writes opts link_ok fps) as Hw.
      rewrite Hrun in Hw |- *. cbn [snd] in Hw.
      split; [exact Hr|]. split; [exact Hw|].
      split; [destruct Hl as [Hl|[_ Hl]]; [left|right]; exact Hl|discriminate].
    - unfold ret. split; [lia|]. split; [reflexivity|].
      split; [left; reflexivity|reflexivity]. }
  destruct (match splash_path opts with Some _ => _ | None => _ end)
    as [[o| |] l0]; cbn [bind]; try discriminate.
  destruct Hsplash as (Ho & Hw0 & Hl0 & Hnone).
  pose proof (read_loop_counters opts fps w h slack pkts
                {| frame_prev := buf_prev; frame_curr := buf_curr;
                   frames := 0; out_frames := o; skip := 0 |}) as Hc.
  cbv zeta in Hc. cbn [out_frames frames] in Hc.
  specialize (Hc ltac:(unfold CInt.INT_MIN; lia) ltac:(lia)
                 ltac:(unfold CInt.INT_MIN; lia) ltac:(lia)).
  pose proof (read_loop_no_links opts fps w h slack pkts
                {| frame_prev := buf_prev; frame_curr := buf_curr;
                   frames := 0; out_frames := o; skip := 0 |}) as Hl1.
  destruct (read_loop opts fps w h slack _ pkts) as [[st| |] l1];
    cbn [bind snd] in *; try discriminate.
  destruct Hc as (Hmap & _ & _).
  unfold report_totals.
  destruct (get_times (frames st) (out_frames st) fps) as [t| |];
    cbn [lift bind]; try discriminate.
  unfold LOG, emit, ret. cbn [bind app]. intros [= <- <-].
  exists o.
  rewrite !links_app, !writes_app, Hw0, Hl1. cbn [links writes app].
  rewrite !app_nil_r. repeat split; try lia; assumption.
Qed.

Lemma run_files_numbered_after_splash_witness :
  exists N,
    0 <= N <= (splash (Sample.with_splash 100) * num Sample.fps_1)
              / (100 * den Sample.fps_1) /\
    (links (snd (Example.splash_run Example.two_pictures))
       = slots 0 (Z.to_nat N) \/
     links (snd (Example.splash_run Example.two_pictures))
       = slots 0 (S (Z.to_nat N))) /\
    (splash_path (Sample.with_splash 100) = None ->
     links (snd (Example.splash_run Example.two_pictures)) = []) /\
    map fst (writes (snd (Example.splash_run Example.two_pictures))) =
    slots N (length (writes (snd (Example.splash_run Example.two_pictures)))).
Proof.
  apply (run_files_numbered_after_splash (Sample.with_splash 100) Sample.fps_1
           2 2 Sample.slot2 Sample.slot2 Example.first_only
           Example.two_pictures true).
  - cbn. unfold SPLASH_TIME_CS. lia.
  - cbn. lia.
  - cbn. lia.
  - cbn. unfold SPLASH_TIME_CS, CInt.INT_MAX. lia.
  - cbn. unfold SECOND_IN_CS, CInt.INT_MAX. lia.
  - cbn. unfold CInt.INT_MAX. lia.
  - reflexivity.
Defined.

(** ** Skip ranges and the frames they cover *)

Lemma handled_app l1 l2 : handled (l1 ++ l2) = handled l1 ++ handled l2.
Proof.
  induction l1 as [|e l1 IH]; [reflexivity|].
  destruct e as [lev m| | |]; cbn [app handled]; try exact IH.
  destruct m; cbn [app]; congruence.
Qed.

Lemma logged_app l1 l2 : logged (l1 ++ l2) = logged l1 ++ logged l2.
Proof.
  induction l1 as [|e l1 IH]; [reflexivity|].
  destruct e; cbn [app logged]; congruence.
Qed.

(** One picture: which index it has, whether a file is written for it,
    and what is reported. *)
Lemma handle_frame_fate opts fps w h slack st rgb st' l :
  0 <= slack -> 0 <= frames st < CInt.INT_MAX -> 0 <= skip st < CInt.INT_MAX ->
  handle_frame opts fps w h slack st rgb = (Ok st', l) ->
  frames st' = frames st + 1 /\
  handled l = [frames st] /\
  ((skip st' = 0 /\
    (forall cur r, fates cur (l ++ r) = frames st :: fates (Some (frames st)) r) /\
    In (MsgDifferent (frames st)) (logged l) /\
    skip_reports l =
      if skip st >? slack
      then [(frames st - (skip st - slack), frames st)] else []) \/
   (frames st <> 0 /\ skip st' = skip st + 1 /\ skip st' <= slack /\
    (forall cur r, fates cur (l ++ r) = frames st :: fates (Some (frames st)) r) /\
    skip_reports l = []) \/
   (frames st <> 0 /\ skip st' = skip st + 1 /\ slack < skip st' /\
    (forall cur r, fates cur (l ++ r) = fates (Some (frames st)) r) /\
    skip_reports l = [])).
Proof.
  intros Hs Hf Hk. unfold handle_frame.
  assert (Hlog :
    match (if skip st >? slack then log_skipped fps slack (frames st) (skip st)
           else ret tt) with
    | (Ok _, l0) =>
        handled l0 = [] /\
        (forall cur r, fates cur (l0 ++ r) = fates cur r) /\
        skip_reports l0 =
          (if skip st >? slack
           then [(frames st - (skip st - slack), frames st)] else [])
    | _ => True
    end).
  { destruct (Z.gtb_spec (skip st) slack).
    - unfold log_skipped.
      replace (frames st -i (skip st -i slack))
        with (frames st - (skip st - slack)) by (int_simpl; reflexivity).
      destruct (get_times _ _ fps); cbn; try exact I.
      repeat split; reflexivity.
    - cbn. repeat split; reflexivity. }
  destruct (if skip st >? slack then _ else _) as [[[]| |] l0] eqn:Hrun.
  all: destruct (Z.eqb_spec (frames st) 0) as [H0|H0].
  all: try (destruct (verdict (frames_differ opts (frame_prev st)
                                 (sws_scale rgb (frame_curr st)) w h))
              as [[|]|]).
  all: cbn -[log_skipped Z.gtb Z.sub Z.add handled fates skip_reports logged];
       rewrite ?Hrun;
       cbn -[Z.gtb Z.sub Z.add handled fates skip_reports logged];
       try discriminate.
  all: replace (skip st +i 1) with (skip st + 1) by (int_simpl; reflexivity).
  all: replace (frames st +i 1) with (frames st + 1) by (int_simpl; reflexivity).
  all: try destruct (Z.gtb_spec (skip st + 1) slack).
  all: cbn -[Z.gtb Z.sub Z.add handled fates skip_reports logged].
  all: intros [= <- <-]; cbn [skip frames].
  all: try match type of Hlog with
           | _ /\ _ => destruct Hlog as (Hh & Hfa & Hr)
           end.
  all: split; [reflexivity|].
  all: rewrite ?app_nil_r.
  all: split;
       [ repeat first [ progress cbn [handled app] | rewrite handled_app
                      | rewrite Hh ]; reflexivity |].
  (* different *)
  all: try (left; split; [reflexivity|];
            split;
            [ intros cur r; cbn [app fates]; rewrite <- ?app_assoc;
              rewrite ?Hfa; reflexivity |];
            split;
            [ repeat first [ progress cbn [logged app In] | rewrite logged_app ];
              auto |];
            repeat first [ progress cbn [skip_reports app]
                         | rewrite skip_reports_app | rewrite app_nil_r ];
            exact Hr).
  (* same, dropped *)
  all: try (right; right; split; [assumption|]; split; [reflexivity|];
            split; [lia|]; split; [intros cur r; reflexivity|reflexivity]).
  (* same, written again *)
  all: right; left; split; [assumption|]; split; [reflexivity|];
       split; [lia|]; split; [intros cur r; reflexivity|reflexivity].
Qed.

(** Along the read loop, from any state: the indices handled, the files
    written, and for each reported range where it lies. *)
Lemma read_loop_ranges opts fps w h slack pkts :
  0 <= slack ->
  forall st st' evs,
    let n := length (pictures_read pkts) in
    0 <= frames st -> frames st + Z.of_nat n <= CInt.INT_MAX ->
    0 <= skip st -> skip st + Z.of_nat n <= CInt.INT_MAX ->
    read_loop opts fps w h slack st pkts = (Ok st', evs) ->
    handled evs = slots (frames st) n /\
    (forall cur, fates cur evs = emitted evs) /\
    (forall i, In i (emitted evs) -> frames st <= i /\ In i (handled evs)) /\
    (frames st = 0 -> n <> O -> In 0 (emitted evs)) /\
    (forall f1 f2, In (f1, f2) (skip_reports evs) ->
       frames st - pending slack st <= f1 /\ f1 < f2 /\
       In f2 (emitted evs) /\ In (MsgDifferent f2) (logged evs) /\
       (forall i, f1 <= i < f2 -> frames st <= i -> ~ In i (emitted evs)) /\
       (frames st < f1 -> In (f1 - 1) (emitted evs)) /\
       (f1 <= frames st -> f1 = frames st - pending slack st)).
Proof.
  intros Hs. induction pkts as [|p pkts IH]; intros st st' evs; cbv zeta.
  - cbn. intros _ _ _ _ [= <- <-]. cbn.
    repeat split; try contradiction; try congruence.
  - destruct p as [| | |rgb]; cbn [pictures_read read_loop length].
    + (* not a video packet *)
      intros Hf Hfn Hk Hkn. unfold LOG, emit. cbn [bind].
      destruct (read_loop opts fps w h slack st pkts) as [[s| |] l] eqn:Hrun;
        intros [= <- <-].
      destruct (IH st s l Hf Hfn Hk Hkn Hrun) as (H1 & H2 & H3 & H4 & H5).
      unfold emitted in *. cbn [app handled fates skip_reports logged].
      split; [exact H1|]. split; [exact H2|]. split; [exact H3|].
      split; [exact H4|].
      intros f1 f2 Hin. destruct (H5 f1 f2 Hin) as (A & B & C & D & E & F & G).
      split; [exact A|]. split; [exact B|]. split; [exact C|].
      split; [right; exact D|]. split; [exact E|]. split; [exact F|exact G].
    + (* decode error *)
      intros _ _ _ _. cbn. intros [= <- <-]. cbn.
      repeat split; try contradiction; try congruence.
    + apply IH.
    + (* a picture *)
      rewrite Nat2Z.inj_succ. intros Hf Hfn Hk Hkn.
      destruct (handle_frame opts fps w h slack st rgb) as [[s| |] l] eqn:Hstep;
        cbn [bind]; try discriminate.
      destruct (handle_frame_fate opts fps w h slack st rgb s l)
        as (Hfr & Hh & Hcase); try assumption; try lia.
      destruct (read_loop opts fps w h slack s pkts) as [[s2| |] l2] eqn:Hrun;
        intros [= <- <-].
      assert (Hks : 0 <= skip s <= skip st + 1)
        by (destruct Hcase as [(E & _)|[(_ & E & _)|(_ & E & _)]]; lia).
      destruct (IH s s2 l2) as (H1 & H2 & H3 & H4 & H5); try assumption; try lia.
      rewrite Hfr in *.
      (* what is written for this picture *)
      assert (Hem : exists wr : bool,
                emitted (l ++ l2)
                  = (if wr then [frames st] else []) ++ emitted l2 /\
                (forall cur, fates cur (l ++ l2) = emitted (l ++ l2)) /\
                (wr = false -> 0 < pending slack s) /\
                (wr = true -> pending slack s = 0) /\
                (frames st = 0 -> wr = true)).
      { unfold emitted, pending.
        destruct Hcase as [(E & Hfa & _)|[(Hn0 & E & Hle & Hfa & _)
                                         |(Hn0 & E & Hgt & Hfa & _)]].
        - exists true. rewrite (Hfa None), H2. unfold emitted.
          repeat split; try discriminate; try reflexivity; try lia.
          intros cur. rewrite Hfa, H2. reflexivity.
        - exists true. rewrite (Hfa None), H2. unfold emitted.
          repeat split; try discriminate; try reflexivity; try lia.
          intros cur. rewrite Hfa, H2. reflexivity.
        - exists false. rewrite (Hfa None), H2. unfold emitted.
          repeat split; try discriminate; try reflexivity; try lia.
          intros cur. rewrite Hfa, H2. reflexivity. }
      destruct Hem as (wr & Hem & Hindep & Hwr0 & Hwr1 & Hfirst).
      assert (Hp1 : pending slack s <= pending slack st + 1)
        by (unfold pending; lia).
      assert (Hp2 : 0 < pending slack s ->
                    pending slack s = pending slack st + 1).
      { unfold pending.
        destruct Hcase as [(E & _)|[(_ & E & Hle & _)|(_ & E & Hgt & _)]]; lia. }
      assert (Hin_em : forall i, In i (emitted (l ++ l2)) <->
                                 (wr = true /\ i = frames st) \/ In i (emitted l2)).
      { intros i. rewrite Hem, in_app_iff. destruct wr; cbn [In]; intuition congruence. }
      rewrite handled_app, Hh, H1. cbn [app slots].
      split; [reflexivity|]. split; [exact Hindep|].
      split.
      { intros i Hi. apply Hin_em in Hi. destruct Hi as [[_ ->]|Hi].
        - split; [lia|left; reflexivity].
        - destruct (H3 i Hi) as [Hge Hin]. split; [lia|].
          right. rewrite <- H1. exact Hin. }
      split.
      { intros H0 _. apply Hin_em. left. split; [auto|congruence]. }
      intros f1 f2 Hin. rewrite skip_reports_app in Hin.
      apply in_app_or in Hin. destruct Hin as [Hin|Hin].
      * (* the range reported for this picture *)
        destruct Hcase as [(E & _ & Hd & Hr)|[(_ & _ & _ & _ & Hr)
                                             |(_ & _ & _ & _ & Hr)]];
          try (rewrite Hr in Hin; contradiction).
        rewrite Hr in Hin.
        destruct (Z.gtb_spec (skip st) slack) as [Hgt|]; [|contradiction].
        destruct Hin as [[= <- <-]|[]].
        assert (Hwr : wr = true).
        { destruct wr; [reflexivity|].
          specialize (Hwr0 eq_refl). unfold pending in Hwr0. lia. }
        unfold pending.
        split; [lia|]. split; [lia|].
        split; [apply Hin_em; left; split; [exact Hwr|reflexivity]|].
        split; [rewrite logged_app; apply in_or_app; left; exact Hd|].
        split; [intros i Hi Hge; lia|].
        split; [intros Hlt; lia|]. intros _. lia.
      * (* a range reported later *)
        destruct (H5 f1 f2 Hin) as (A & B & C & D & E & F & G).
        split; [lia|]. split; [lia|].
        split; [apply Hin_em; right; exact C|].
        split; [rewrite logged_app; apply in_or_app; right; exact D|].
        split; [|split].
        -- intros i Hi Hge Hem'. apply Hin_em in Hem'.
           destruct Hem' as [[Hwr ->]|Hem'].
           ++ specialize (Hwr1 Hwr).
              assert (f1 <= frames st + 1) by lia. specialize (G H). lia.
           ++ destruct (Z.eq_dec i (frames st)) as [->|Hne].
              ** destruct (H3 _ Hem') as [Hlt _]. lia.
              ** apply (E i); [lia|lia|exact Hem'].
        -- intros Hlt. apply Hin_em.
           destruct (Z_lt_le_dec (frames st + 1) f1) as [Hfar|Hnear].
           ++ right. apply F. exact Hfar.
           ++ left. specialize (G Hnear).
              destruct wr; [split; [reflexivity|lia]|].
              specialize (Hwr0 eq_refl). lia.
        -- intros Hle. assert (Hn : f1 <= frames st + 1) by lia.
           specialize (G Hn).
           assert (0 < pending slack s) by lia.
           specialize (Hp2 H). lia.
Qed.

(** C5.  Whenever the read loop reports a skip range [(f1, f2)], which it
    does when a picture is classified different after the skip counter
    has exceeded the slack, the range is half-open: [f1] is the index of
    the first dropped picture and [f2] the index of the differing picture
    itself, one past the last dropped one.  Every picture with
    [f1 <= i < f2] was read and dropped, the pictures [f1 - 1] and [f2] on
    either side were written, so no written picture has its index in
    [f1 .. f2 - 1] and [f2 - f1] pictures were dropped. *)
Theorem skip_range_covers_dropped_span
    opts fps w h slack st pkts st' evs f1 f2 :
  0 <= slack -> frames st = 0 -> skip st = 0 ->
  Z.of_nat (length (pictures_read pkts)) <= CInt.INT_MAX ->
  read_loop opts fps w h slack st pkts = (Ok st', evs) ->
  In (f1, f2) (skip_reports evs) ->
  0 < f1 < f2 /\
  In (MsgDifferent f2) (logged evs) /\
  In f2 (emitted evs) /\
  In (f1 - 1) (emitted evs) /\
  (forall i, f1 <= i < f2 -> dropped_frame evs i).
Proof.
  intros Hs Hf Hk Hn Hrun Hin.
  destruct (read_loop_ranges opts fps w h slack pkts Hs st st' evs)
    as (Hh & _ & Hem & Hfirst & Hranges); try assumption; try lia.
  destruct (Hranges f1 f2 Hin) as (A & B & C & D & E & F & _).
  unfold pending in A. rewrite Hf, Hk in *.
  destruct (Hem f2 C) as [_ Hf2].
  rewrite Hh in Hf2. apply in_slots in Hf2.
  assert (Hpos : 0 < f1).
  { destruct (Z.eq_dec f1 0) as [->|]; [|lia].
    exfalso. apply (E 0); [lia|lia|].
    apply Hfirst; [reflexivity|]. intros H0. rewrite H0 in Hf2. cbn in Hf2. lia. }
  split; [lia|]. split; [exact D|]. split; [exact C|].
  split; [apply F; exact Hpos|].
  intros i Hi. split.
  - rewrite Hh. apply in_slots. lia.
  - apply E; lia.
Qed.

Lemma skip_range_covers_dropped_span_witness :
  0 < 1 < 2 /\
  In (MsgDifferent 2) (logged (snd (Example.loop Example.pauses))) /\
  In 2 (emitted (snd (Example.loop Example.pauses))) /\
  In (1 - 1) (emitted (snd (Example.loop Example.pauses))) /\
  (forall i, 1 <= i < 2 ->
     dropped_frame (snd (Example.loop Example.pauses)) i).
Proof.
  apply (skip_range_covers_dropped_span (Sample.plain 0) Sample.fps_1 2 2 0
           (Sample.start 0) Example.pauses
           (Example.final (Example.loop Example.pauses))
           (snd (Example.loop Example.pauses)) 1 2).
  - lia.
  - reflexivity.
  - reflexivity.
  - cbn. unfold CInt.INT_MAX. lia.
  - reflexivity.
  - vm_compute. left. reflexivity.
Defined.
